(** * Metrics host: rooms, sessions and metric ingestion

    A shallow embedding of [metrics-host.js]: the [MetricsRoom] class, the
    process-wide [rooms] registry, the WebSocket connection handler with its
    timers, and the two room endpoints of the HTTP API that change the
    registry.  Handlers run to completion on one thread, so each of them is a
    function from the state before to the state after together with the list
    of calls it made on the [ws] and MongoDB libraries, in call order.
    Timers are events: a pending timer may run at any later point, and the
    delay it was set with is recorded in the call that set it.  The
    utilities, the read-only endpoints and the shutdown handler follow
    the event loop.  Start-up, the text of HTTP replies, and the two
    database queries (the metrics history and the retention sweep) are
    left out. *)

From Stdlib Require Import QArith Qround Strings.Byte Ascii.
From stdpp Require Import base option list vector gmap strings fin_maps.

Local Open Scope string_scope.
Local Open Scope list_scope.
Local Open Scope nat_scope.

(** ** JavaScript values

    Message fields come out of [JSON.parse]: primitives, arrays and plain
    objects ([JUndefined] is what reading an absent field gives).  The
    handlers test them with [!x], [===] and [<] and print them in
    template literals, so these coercions are written out, together
    with the [TypeError] they raise on an object that has no primitive
    value.  A number is the exact rational value of its double
    (comparison, negation and truncation are exact on doubles). *)

Inductive JsNum :=
  | NaN
  | PosInf
  | NegInf
  | Fin (q : Q).

#[local] Set Warnings "-register-all".

Inductive JsVal :=
  | JUndefined
  | JNull
  | JBool (b : bool)
  | JNum (n : JsNum)
  | JStr (s : string)
  | JArr (items : list JsVal)
  | JObj (fields : list (string * JsVal)).

Definition JInt (z : Z) : JsVal := JNum (Fin (inject_Z z)).

(** [ToBoolean]: what [if (x)] and [!x] test. *)
Definition ToBoolean (v : JsVal) : bool :=
  match v with
  | JUndefined | JNull => false
  | JBool b => b
  | JNum NaN => false
  | JNum (Fin q) => negb (Qeq_bool q 0)
  | JNum _ => true
  | JStr s => negb (String.eqb s "")
  | JArr _ | JObj _ => true
  end.

(** [x === "lit"] for a string literal. *)
Definition strict_eq_str (v : JsVal) (lit : string) : bool :=
  match v with
  | JStr s => String.eqb s lit
  | _ => false
  end.

(** [a < b] on numbers; a comparison with NaN is [undefined], hence false. *)
Definition num_lt (a b : JsNum) : bool :=
  match a, b with
  | NaN, _ | _, NaN => false
  | Fin p, Fin q => negb (Qle_bool q p)
  | NegInf, NegInf => false
  | NegInf, _ => true
  | _, NegInf => false
  | PosInf, _ => false
  | Fin _, PosInf => true
  end.

Definition num_neg (a : JsNum) : JsNum :=
  match a with
  | NaN => NaN
  | PosInf => NegInf
  | NegInf => PosInf
  | Fin q => Fin (- q)
  end.

Inductive IntOrInf :=
  | IInt (z : Z)
  | IPosInf
  | INegInf.

Definition ToIntegerOrInfinity (a : JsNum) : IntOrInf :=
  match a with
  | NaN => IInt 0
  | PosInf => IPosInf
  | NegInf => INegInf
  | Fin q => IInt (Z.quot (Qnum q) (Z.pos (Qden q)))
  end.

(** [arr.slice(start)]: the index the copy starts from. *)
Definition slice_start (rel : IntOrInf) (len : nat) : nat :=
  match rel with
  | INegInf => 0
  | IPosInf => len
  | IInt z =>
      if (z <? 0)%Z then Z.to_nat (Z.max (Z.of_nat len + z) 0)
      else Z.to_nat (Z.min z (Z.of_nat len))
  end.

Definition slice {A} (l : list A) (start : JsNum) : list A :=
  drop (slice_start (ToIntegerOrInfinity start) (length l)) l.

(** ** Utility functions *)

Definition hexDigit (n : N) : ascii :=
  match n with
  | 0%N => "0" | 1%N => "1" | 2%N => "2" | 3%N => "3"
  | 4%N => "4" | 5%N => "5" | 6%N => "6" | 7%N => "7"
  | 8%N => "8" | 9%N => "9" | 10%N => "a" | 11%N => "b"
  | 12%N => "c" | 13%N => "d" | 14%N => "e" | _ => "f"
  end%char.

(** [buf.toString('hex')] *)
Fixpoint toHex (bs : list byte) : string :=
  match bs with
  | [] => ""
  | b :: bs' =>
      let n := Byte.to_N b in
      String (hexDigit (n / 16)) (String (hexDigit (n mod 16)) (toHex bs'))
  end.

Definition upcase (a : ascii) : ascii :=
  let n := N_of_ascii a in
  if ((97 <=? n) && (n <=? 122))%N then ascii_of_N (n - 32) else a.

Fixpoint toUpperCase (s : string) : string :=
  match s with
  | EmptyString => EmptyString
  | String a s' => String (upcase a) (toUpperCase s')
  end.

(** [crypto.randomBytes(3).toString('hex').toUpperCase()], as a function of
    the three random bytes. *)
Definition generateRoomCode (rnd : vec byte 3) : string :=
  toUpperCase (toHex (vec_to_list rnd)).

(** [crypto.randomBytes(8).toString('hex')] *)
Definition generateClientId (rnd : vec byte 8) : string :=
  toHex (vec_to_list rnd).

(** ** Configuration *)

Module CONFIG.
Definition MAX_CLIENTS_PER_ROOM : nat := 50.
Definition AUTH_TIMEOUT : Z := 30000.
Definition HEARTBEAT_INTERVAL : Z := 30000.
End CONFIG.

(** ** Data model *)

Inductive Role := Controller | Client.

Inductive ReadyState := OPEN | CLOSING | CLOSED.

(** A [setTimeout] handle: pending, cancelled by [clearTimeout], or run. *)
Inductive Timer := Armed | Cleared | Fired.

#[global] Instance Role_eq_dec : EqDecision Role.
Proof. solve_decision. Defined.

#[global] Instance ReadyState_eq_dec : EqDecision ReadyState.
Proof. solve_decision. Defined.

#[global] Instance Timer_eq_dec : EqDecision Timer.
Proof. solve_decision. Defined.

Record Settings := mkSettings {
  maxMetricsHistory : JsVal;
  enableRealTime : JsVal;
  enableAlerts : JsVal
}.

(** The [settings] object of a [room_settings] message, read through the
    three keys the server consults; [None] is an absent key. *)
Record SettingsPatch := mkPatch {
  p_maxMetricsHistory : option JsVal;
  p_enableRealTime : option JsVal;
  p_enableAlerts : option JsVal
}.

(** A JSON object as the own keys a spread copies. *)
Abbreviation JsObject := (gmap string JsVal).

Definition get_field (o : JsObject) (k : string) : JsVal :=
  default JUndefined (o !! k).

(** [metricEntry]: the spread payload under the four keys written after
    it, which shadow same-named payload keys. *)
Record MetricEntry := mkEntry {
  me_fields : JsObject;
  me_clientId : string;
  me_roomCode : string;
  me_timestamp : Z;
  me_receivedAt : Z
}.

(** The message text of an alert, kept as the template's two holes. *)
Inductive AlertMessage :=
  | LowEntropyText (clientPrefix : string) (entropy : JsVal)
  | BreachedText (clientPrefix : string).

Record Alert := mkAlert {
  a_type : string;
  a_severity : string;
  a_message : AlertMessage
}.

(** Room objects live in a store and are referred to by address: a
    connection's closure keeps its room object even after the registry
    forgets or replaces the code. Sockets are addresses into [conns]. *)
Record MetricsRoom := mkRoom {
  code : string;
  controller : option nat;
  clients : gmap string nat;
  metrics : list MetricEntry;
  createdAt : Z;
  lastActivity : Z;
  settings : Settings
}.

(** One accepted connection: the [ws] object's fields the server reads or
    writes, and the variables of the handler's closure. *)
Record Conn := mkConn {
  clientId : string;
  remoteAddress : JsVal;
  userAgentHeader : option string;
  readyState : ReadyState;
  ws_role : option Role;
  ws_roomCode : option string;
  room : option nat;
  authTimeout : Timer;
  heartbeat : bool
}.

Record SessionInfo := mkSession {
  si_roomCode : string;
  si_role : JsVal;
  si_connectedAt : Z;
  si_ip : JsVal
}.

Record State := mkState {
  rooms : gmap string nat;
  heap : list MetricsRoom;
  conns : list Conn;
  clientSessions : gmap string SessionInfo;
  removalTimers : list nat
}.

Definition initial : State := mkState ∅ [] [] ∅ [].

(** ** Outgoing messages and library calls *)

Inductive OutMsg :=
  | room_info (roomCode cid : string) (role : JsVal)
      (clientCount : nat) (controllerConnected : bool)
  | client_joined (cid : string) (clientCount : nat)
  | client_left (cid : string) (clientCount : nat)
  | metrics_msg (from : string) (payload : JsObject) (timestamp : Z)
  | alerts_msg (alerts : list Alert)
  | settings_updated (st : Settings)
  | error_msg (message : string)
  | pong (timestamp : Z).

(** What a handler asks of the outside, in the order it asks. *)
Inductive Action :=
  | WsSend (ws : nat) (m : OutMsg)
  | WsClose (ws : nat) (reason : option string)
  | WsPing (ws : nat)
  | SetTimeout (ms : Z)
  | SetInterval (ms : Z)
  | InsertMetric (e : MetricEntry)
  | InsertSession (roomCode : string)
  | DeleteSession (roomCode : string).

(** ** Incoming messages and events *)

Inductive InMsg :=
  | hello (role code_ : JsVal)
  | metrics_in (payload : option JsObject)
  | room_settings (st : option SettingsPatch)
  | ping
  | other
  | malformed.

Inductive Event :=
  | Connection (rnd : vec byte 8) (addr : JsVal) (ua : option string)
  | Message (ws : nat) (m : InMsg)
  | Close (ws : nat)
  | AuthTimeout (ws : nat)
  | Heartbeat (ws : nat)
  | EmptyRoomTimeout
  | MetricStored (ok : bool)
  | PostRooms (rnd : vec byte 3)
  | DeleteRooms (roomCode : string).

(** ** Field updates *)

Definition set_controller (v : option nat) (rm : MetricsRoom) : MetricsRoom :=
  mkRoom (code rm) v (clients rm) (metrics rm) (createdAt rm)
    (lastActivity rm) (settings rm).

Definition set_clients (v : gmap string nat) (rm : MetricsRoom) : MetricsRoom :=
  mkRoom (code rm) (controller rm) v (metrics rm) (createdAt rm)
    (lastActivity rm) (settings rm).

Definition set_metrics (v : list MetricEntry) (rm : MetricsRoom) : MetricsRoom :=
  mkRoom (code rm) (controller rm) (clients rm) v (createdAt rm)
    (lastActivity rm) (settings rm).

Definition set_lastActivity (v : Z) (rm : MetricsRoom) : MetricsRoom :=
  mkRoom (code rm) (controller rm) (clients rm) (metrics rm) (createdAt rm)
    v (settings rm).

Definition set_settings (v : Settings) (rm : MetricsRoom) : MetricsRoom :=
  mkRoom (code rm) (controller rm) (clients rm) (metrics rm) (createdAt rm)
    (lastActivity rm) v.

Definition set_readyState (v : ReadyState) (c : Conn) : Conn :=
  mkConn (clientId c) (remoteAddress c) (userAgentHeader c) v (ws_role c)
    (ws_roomCode c) (room c) (authTimeout c) (heartbeat c).

Definition set_ws (rl : Role) (rc : string) (c : Conn) : Conn :=
  mkConn (clientId c) (remoteAddress c) (userAgentHeader c) (readyState c)
    (Some rl) (Some rc) (room c) (authTimeout c) (heartbeat c).

Definition set_room (v : option nat) (c : Conn) : Conn :=
  mkConn (clientId c) (remoteAddress c) (userAgentHeader c) (readyState c)
    (ws_role c) (ws_roomCode c) v (authTimeout c) (heartbeat c).

Definition set_authTimeout (v : Timer) (c : Conn) : Conn :=
  mkConn (clientId c) (remoteAddress c) (userAgentHeader c) (readyState c)
    (ws_role c) (ws_roomCode c) (room c) v (heartbeat c).

Definition set_heartbeat (v : bool) (c : Conn) : Conn :=
  mkConn (clientId c) (remoteAddress c) (userAgentHeader c) (readyState c)
    (ws_role c) (ws_roomCode c) (room c) (authTimeout c) v.

Definition set_rooms (v : gmap string nat) (s : State) : State :=
  mkState v (heap s) (conns s) (clientSessions s) (removalTimers s).

Definition set_clientSessions (v : gmap string SessionInfo) (s : State) : State :=
  mkState (rooms s) (heap s) (conns s) v (removalTimers s).

Definition set_removalTimers (v : list nat) (s : State) : State :=
  mkState (rooms s) (heap s) (conns s) (clientSessions s) v.

Definition upd_room (r : nat) (f : MetricsRoom → MetricsRoom) (s : State) : State :=
  mkState (rooms s) (alter f r (heap s)) (conns s) (clientSessions s)
    (removalTimers s).

Definition upd_conn (ws : nat) (f : Conn → Conn) (s : State) : State :=
  mkState (rooms s) (heap s) (alter f ws (conns s)) (clientSessions s)
    (removalTimers s).

(** ** Socket primitives *)

Definition is_open (s : State) (ws : nat) : bool :=
  match conns s !! ws with
  | Some c => if readyState c is OPEN then true else false
  | None => false
  end.

(** [ws.close(...)]: an open socket starts its closing handshake. *)
Definition ws_close (ws : nat) (reason : option string) (s : State)
  : State * list Action :=
  (upd_conn ws
     (λ c, if readyState c is OPEN then set_readyState CLOSING c else c) s,
   [WsClose ws reason]).

(** [clearTimeout(t)] *)
Definition clearTimeout (t : Timer) : Timer :=
  if t is Armed then Cleared else t.

(** [room.clients.size === 0 && !room.controller] *)
Definition room_is_empty (rm : MetricsRoom) : bool :=
  (size (clients rm) =? 0)%nat && (if controller rm is None then true else false).

(** How a call ended: it returned, or it threw and the statements after
    it were skipped. *)
Inductive Completion := Normal | Throw.

(** The two conversions of the runtime that are not part of the
    repository: the numeric reading of a string and the decimal text of
    a number.  Everything below holds for any. *)
Record Runtime := mkRuntime {
  StringToNumber : string → JsNum;
  NumberToString : JsNum → string
}.

(** Whether a parsed object has an own key [k]. *)
Definition has_key (k : string) (fields : list (string * JsVal)) : bool :=
  existsb (λ kv : string * JsVal, String.eqb kv.1 k) fields.

Section Server.

Variable rt : Runtime.

(** [ToString(v)], as a template literal applies it; [None] is a
    [TypeError].  No own property of a parsed object is callable, so an
    object converts through [Object.prototype.toString] unless an own
    [toString] key shadows it, and then neither [valueOf] (which returns
    the object) nor [toString] gives a primitive.  An array converts
    through [join], which reads [undefined] and [null] as empty. *)
Fixpoint ToString (v : JsVal) : option string :=
  match v with
  | JUndefined => Some "undefined"
  | JNull => Some "null"
  | JBool true => Some "true"
  | JBool false => Some "false"
  | JNum n => Some (NumberToString rt n)
  | JStr s => Some s
  | JArr items =>
      (fix join (l : list JsVal) : option string :=
         match l with
         | [] => Some ""
         | x :: rest =>
             let next :=
               match x with
               | JUndefined | JNull => Some ""
               | _ => ToString x
               end in
             match next, rest with
             | None, _ => None
             | Some sx, [] => Some sx
             | Some sx, _ :: _ =>
                 match join rest with
                 | Some sr => Some (sx +:+ "," +:+ sr)
                 | None => None
                 end
             end
         end) items
  | JObj fields =>
      if has_key "toString" fields then None else Some "[object Object]"
  end.

(** [ToNumber(v)], as [<], [>] and unary minus apply it: an object or an
    array is first brought to a primitive, with hint number; for parsed
    values that is the string [ToString] gives, or the same
    [TypeError]. *)
Definition ToNumber (v : JsVal) : option JsNum :=
  match v with
  | JUndefined => Some NaN
  | JNull => Some (Fin 0)
  | JBool true => Some (Fin 1)
  | JBool false => Some (Fin 0)
  | JNum n => Some n
  | JStr s => Some (StringToNumber rt s)
  | JArr _ | JObj _ => StringToNumber rt <$> ToString v
  end.

(** [v < n] and [n > v] against a number [n]: both compare [ToNumber v]
    with [n], and throw when it does. *)
Definition js_lt_num (v : JsVal) (n : JsNum) : option bool :=
  (λ x, num_lt x n) <$> ToNumber v.

Definition js_num_gt (n : JsNum) (v : JsVal) : option bool :=
  (λ x, num_lt x n) <$> ToNumber v.

Definition num_of_nat (n : nat) : JsNum := Fin (inject_Z (Z.of_nat n)).

(** ** class MetricsRoom *)

(** [new MetricsRoom(code)] *)
Definition newRoom (tm : Z) (rc : string) : MetricsRoom :=
  mkRoom rc None ∅ [] tm tm
    (mkSettings (JInt 1000) (JBool true) (JBool true)).

Definition sendToClient (s : State) (ws : nat) (m : OutMsg) : list Action :=
  if is_open s ws then [WsSend ws m] else [].

Definition sendToController (s : State) (rm : MetricsRoom) (m : OutMsg)
  : list Action :=
  match controller rm with
  | Some ctl => if is_open s ctl then sendToClient s ctl m else []
  | None => []
  end.

(** The last statement of [addClient] prints [role] in a template
    literal, which throws on a role that has no primitive value. *)
Definition addClient (tm : Z) (r : nat) (cid : string) (ws : nat)
    (role : JsVal) (s : State) : State * list Action * Completion :=
  match heap s !! r with
  | None => (s, [], Normal)
  | Some rm =>
      let ctl := strict_eq_str role "controller" in
      let rm1 :=
        if ctl then set_controller (Some ws) rm
        else set_clients (<[cid := ws]> (clients rm)) rm in
      let rm2 := set_lastActivity tm rm1 in
      let s1 :=
        upd_conn ws (set_ws (if ctl then Controller else Client) (code rm))
          (upd_room r (λ _, rm2) s) in
      let info :=
        sendToClient s1 ws
          (room_info (code rm2) cid role (size (clients rm2))
             (if controller rm2 is Some _ then true else false)) in
      let joined :=
        match controller rm2 with
        | Some ctl_ws =>
            if strict_eq_str role "client"
            then sendToClient s1 ctl_ws (client_joined cid (size (clients rm2)))
            else []
        | None => []
        end in
      (s1, info ++ joined, if ToString role is Some _ then Normal else Throw)
  end.

Definition removeClient (tm : Z) (r : nat) (cid : string)
    (role : option Role) (s : State) : State * list Action :=
  match heap s !! r with
  | None => (s, [])
  | Some rm =>
      let rm1 :=
        if role is Some Controller then set_controller None rm
        else set_clients (delete cid (clients rm)) rm in
      let rm2 := set_lastActivity tm rm1 in
      let s1 := upd_room r (λ _, rm2) s in
      let left :=
        match role, controller rm2 with
        | Some Client, Some ctl_ws =>
            sendToClient s1 ctl_ws (client_left cid (size (clients rm2)))
        | _, _ => []
        end in
      (s1, left)
  end.

(** [checkAlerts]: the calls it makes, or [None] when the comparison of
    [entropy] throws, which is before any call. *)
Definition checkAlerts (s : State) (rm : MetricsRoom) (cid : string)
    (m : JsObject) : option (list Action) :=
  if negb (ToBoolean (enableAlerts (settings rm))) then Some []
  else
    match js_lt_num (get_field m "entropy") (Fin 20) with
    | None => None
    | Some lt =>
        let low :=
          if lt
          then [mkAlert "low_entropy" "warning"
                  (LowEntropyText (String.substring 0 8 cid) (get_field m "entropy"))]
          else [] in
        let breached :=
          if ToBoolean (get_field m "breached")
          then [mkAlert "breached_password" "critical"
                  (BreachedText (String.substring 0 8 cid))]
          else [] in
        let alerts := low ++ breached in
        if (0 <? length alerts)%nat
        then Some (sendToController s rm (alerts_msg alerts))
        else Some []
    end.

(** The trim that follows the [push], on the buffer the [push] left:
    the new buffer, or [None] when reading the maximum throws. *)
Definition trim (cap : JsVal) (buf : list MetricEntry)
  : option (list MetricEntry) :=
  match js_num_gt (num_of_nat (length buf)) cap, ToNumber cap with
  | Some true, Some n => Some (slice buf (num_neg n))
  | Some false, _ => Some buf
  | _, _ => None
  end.

(** [addMetrics]: a throw in the trim leaves the pushed record in the
    buffer and skips the rest; a throw in [checkAlerts] comes after the
    insert and the forward. *)
Definition addMetrics (tm : Z) (r : nat) (cid : string) (m : JsObject)
    (s : State) : State * list Action * Completion :=
  match heap s !! r with
  | None => (s, [], Normal)
  | Some rm =>
      let metricEntry := mkEntry m cid (code rm) tm tm in
      let pushed := metrics rm ++ [metricEntry] in
      match trim (maxMetricsHistory (settings rm)) pushed with
      | None => (upd_room r (λ _, set_metrics pushed rm) s, [], Throw)
      | Some buf =>
          let rm1 := set_lastActivity tm (set_metrics buf rm) in
          let s1 := upd_room r (λ _, rm1) s in
          let calls :=
            [InsertMetric metricEntry]
            ++ sendToController s1 rm1 (metrics_msg cid m tm) in
          match checkAlerts s1 rm1 cid m with
          | None => (s1, calls, Throw)
          | Some alerts => (s1, calls ++ alerts, Normal)
          end
      end
  end.

(** [{ ...room.settings, ...settings }] *)
Definition merge_settings (old : Settings) (p : SettingsPatch) : Settings :=
  mkSettings
    (default (maxMetricsHistory old) (p_maxMetricsHistory p))
    (default (enableRealTime old) (p_enableRealTime p))
    (default (enableAlerts old) (p_enableAlerts p)).

(** ** The connection handler *)

Definition rooms_get (s : State) (c : JsVal) : option nat :=
  match c with
  | JStr k => rooms s !! k
  | _ => None
  end.

(** The hello branch; when [addClient] throws, the session entry is not
    written. *)
Definition on_hello (tm : Z) (ws : nat) (c : Conn) (role code_ : JsVal)
    (s : State) : State * list Action * Completion :=
  let s0 := upd_conn ws (λ c, set_authTimeout (clearTimeout (authTimeout c)) c) s in
  if negb (ToBoolean role) || negb (ToBoolean code_)
  then (ws_close ws (Some "Invalid authentication") s0, Normal)
  else
    match rooms_get s0 code_, code_ with
    | Some r, JStr k =>
        let s1 := upd_conn ws (set_room (Some r)) s0 in
        match heap s1 !! r with
        | None => (s1, [], Normal)
        | Some rm =>
            if strict_eq_str role "client"
               && (CONFIG.MAX_CLIENTS_PER_ROOM <=? size (clients rm))%nat
            then
              let '(s2, a) := ws_close ws (Some "Room is full") s1 in
              (s2, WsSend ws (error_msg "Room is full") :: a, Normal)
            else
              match addClient tm r (clientId c) ws role s1 with
              | (s2, a, Normal) =>
                  (set_clientSessions
                     (<[clientId c := mkSession k role tm (remoteAddress c)]>
                        (clientSessions s2)) s2,
                   a, Normal)
              | (s2, a, Throw) => (s2, a, Throw)
              end
        end
    | _, _ =>
        let '(s1, a) := ws_close ws (Some "Invalid room code") s0 in
        (s1, WsSend ws (error_msg "Invalid room code") :: a, Normal)
    end.

(** [req.headers['user-agent'] || 'unknown'] *)
Definition userAgent (c : Conn) : string :=
  match userAgentHeader c with
  | Some u => if String.eqb u "" then "unknown" else u
  | None => "unknown"
  end.

(** The [catch] of the message handler: whatever was done before the
    throw stays done, and the sender is sent an [error]. *)
Definition catch (ws : nat) (res : State * list Action * Completion)
  : State * list Action :=
  match res with
  | (s, a, Normal) => (s, a)
  | (s, a, Throw) => (s, a ++ [WsSend ws (error_msg "Invalid message format")])
  end.

Definition on_message (tm : Z) (ws : nat) (m : InMsg) (s : State)
  : State * list Action :=
  match conns s !! ws with
  | None => (s, [])
  | Some c =>
      if readyState c is CLOSED then (s, [])
      else
        catch ws
          match m with
          | hello role code_ => on_hello tm ws c role code_ s
          | metrics_in payload =>
              match room c, ws_role c, payload with
              | Some r, Some Client, Some p =>
                  addMetrics tm r (clientId c)
                    (<["userAgent" := JStr (userAgent c)]>
                       (<["ip" := remoteAddress c]> p)) s
              | _, _, _ => (s, [], Normal)
              end
          | room_settings st =>
              match room c, ws_role c, st with
              | Some r, Some Controller, Some p =>
                  match heap s !! r with
                  | None => (s, [], Normal)
                  | Some rm =>
                      let rm1 := set_settings (merge_settings (settings rm) p) rm in
                      let s1 := upd_room r (λ _, rm1) s in
                      (s1, sendToController s1 rm1 (settings_updated (settings rm1)),
                       Normal)
                  end
              | _, _, _ => (s, [], Normal)
              end
          | ping => (s, [WsSend ws (pong tm)], Normal)
          | other => (s, [], Normal)
          | malformed => (s, [], Throw)
          end
  end.

Definition on_close (tm : Z) (ws : nat) (s : State) : State * list Action :=
  match conns s !! ws with
  | None => (s, [])
  | Some c =>
      if readyState c is CLOSED then (s, [])
      else
        let s0 :=
          upd_conn ws
            (λ c, set_heartbeat false
                    (set_authTimeout (clearTimeout (authTimeout c))
                       (set_readyState CLOSED c))) s in
        let '(s2, a) :=
          match room c with
          | None => (s0, [])
          | Some r =>
              let '(s1, a1) := removeClient tm r (clientId c) (ws_role c) s0 in
              match heap s1 !! r with
              | Some rm =>
                  if room_is_empty rm
                  then (set_removalTimers (removalTimers s1 ++ [r]) s1,
                        a1 ++ [SetTimeout 60000])
                  else (s1, a1)
              | None => (s1, a1)
              end
          end in
        (set_clientSessions (delete (clientId c) (clientSessions s2)) s2, a)
  end.

(** The callback of the [setTimeout] armed on connection. *)
Definition on_authTimeout (ws : nat) (s : State) : State * list Action :=
  match conns s !! ws with
  | None => (s, [])
  | Some c =>
      if authTimeout c is Armed then
        let s0 := upd_conn ws (set_authTimeout Fired) s in
        if room c is None
        then ws_close ws (Some "Authentication timeout") s0
        else (s0, [])
      else (s, [])
  end.

Definition on_heartbeat (ws : nat) (s : State) : State * list Action :=
  match conns s !! ws with
  | None => (s, [])
  | Some c =>
      if heartbeat c && is_open s ws then (s, [WsPing ws]) else (s, [])
  end.

(** The callback of the oldest pending [setTimeout] of a close handler:
    all of them wait the same delay, so they run in the order armed. *)
Definition on_emptyRoomTimeout (s : State) : State * list Action :=
  match removalTimers s with
  | [] => (s, [])
  | r :: rest =>
      let s0 := set_removalTimers rest s in
      match heap s0 !! r with
      | Some rm =>
          if room_is_empty rm
          then (set_rooms (delete (code rm) (rooms s0)) s0, [])
          else (s0, [])
      | None => (s0, [])
      end
  end.

Definition on_connection (rnd : vec byte 8) (addr : JsVal) (ua : option string)
    (s : State) : State * list Action :=
  (mkState (rooms s) (heap s)
     (conns s ++ [mkConn (generateClientId rnd) addr ua OPEN None None None Armed true])
     (clientSessions s) (removalTimers s),
   [SetTimeout CONFIG.AUTH_TIMEOUT; SetInterval CONFIG.HEARTBEAT_INTERVAL]).

(** ** The registry endpoints *)

(** [POST /api/rooms], up to its first [await]. *)
Definition post_rooms (tm : Z) (rnd : vec byte 3) (s : State)
  : State * list Action :=
  let roomCode := generateRoomCode rnd in
  (mkState (<[roomCode := length (heap s)]> (rooms s))
     (heap s ++ [newRoom tm roomCode]) (conns s) (clientSessions s)
     (removalTimers s),
   [InsertSession roomCode]).

Definition close_all (sockets : list nat) (s : State) : State * list Action :=
  foldl (λ '(s, a) ws, let '(s', a') := ws_close ws None s in (s', a ++ a'))
    (s, []) sockets.

(** [DELETE /api/rooms/:roomCode], up to its first [await]. The clients
    are closed in key order here; the source follows insertion order. *)
Definition delete_rooms (rc : string) (s : State) : State * list Action :=
  match rooms s !! rc with
  | None => (s, [])
  | Some r =>
      match heap s !! r with
      | None => (s, [])
      | Some rm =>
          let '(s1, a) :=
            close_all (option_list (controller rm)
                       ++ (map_to_list (clients rm)).*2) s in
          (set_rooms (delete rc (rooms s1)) s1, a ++ [DeleteSession rc])
      end
  end.

(** ** The event loop *)

Definition step (tm : Z) (e : Event) (s : State) : State * list Action :=
  match e with
  | Connection rnd addr ua => on_connection rnd addr ua s
  | Message ws m => on_message tm ws m s
  | Close ws => on_close tm ws s
  | AuthTimeout ws => on_authTimeout ws s
  | Heartbeat ws => on_heartbeat ws s
  | EmptyRoomTimeout => on_emptyRoomTimeout s
  | MetricStored _ => (s, [])
  | PostRooms rnd => post_rooms tm rnd s
  | DeleteRooms rc => delete_rooms rc s
  end.

(** A run: events with the clock reading at each, oldest first. *)
Fixpoint run (tr : list (Z * Event)) (s : State) : State * list Action :=
  match tr with
  | [] => (s, [])
  | (tm, e) :: tr' =>
      let '(s1, a1) := step tm e s in
      let '(s2, a2) := run tr' s1 in
      (s2, a1 ++ a2)
  end.

Definition exec (tr : list (Z * Event)) : State := (run tr initial).1.

(** ** Vocabulary of the statements *)

(** The socket a library call is made on. *)
Definition action_target (a : Action) : option nat :=
  match a with
  | WsSend ws _ | WsClose ws _ | WsPing ws => Some ws
  | SetTimeout _ | SetInterval _
  | InsertMetric _ | InsertSession _ | DeleteSession _ => None
  end.

(** One of [0-9A-F]. *)
Definition is_upper_hex (a : ascii) : bool :=
  existsb (Ascii.eqb a) (String.list_ascii_of_string "0123456789ABCDEF").

(** Every registered code leads to a room object that carries it. *)
Definition registry_ok (s : State) : Prop :=
  ∀ k r, rooms s !! k = Some r → ∃ rm, heap s !! r = Some rm ∧ code rm = k.

(** Room objects are never freed and keep their code. *)
Definition heap_ext (s s' : State) : Prop :=
  ∀ r rm, heap s !! r = Some rm → ∃ rm', heap s' !! r = Some rm' ∧ code rm' = code rm.




(** Every hello among the events carries role [client] or [controller]. *)
Definition roles_valid (tr : list (Z * Event)) : bool :=
  forallb
    (λ te, match te.2 with
           | Message _ (hello role _) =>
               strict_eq_str role "client" || strict_eq_str role "controller"
           | _ => true
           end) tr.

(** No room object holds more clients than the configured maximum. *)
Definition within_cap (s : State) : Prop :=
  ∀ r rm, heap s !! r = Some rm → size (clients rm) ≤ CONFIG.MAX_CLIENTS_PER_ROOM.

(** No [room_settings] message among the events carries a
    [maxMetricsHistory] key. *)
Definition maximum_untouched (tr : list (Z * Event)) : bool :=
  forallb
    (λ te, match te.2 with
           | Message _ (room_settings (Some p)) =>
               if p_maxMetricsHistory p is None then true else false
           | _ => true
           end) tr.

(** Every room still has the default maximum of 1000 and a buffer within
    it. *)
Definition buffers_within_default (s : State) : Prop :=
  ∀ r rm, heap s !! r = Some rm →
    maxMetricsHistory (settings rm) = JInt 1000 ∧ length (metrics rm) ≤ 1000.

(** A call that turns a session away: a close, or an [error] message. *)
Definition is_rejection (a : Action) : bool :=
  match a with
  | WsClose _ _ | WsSend _ (error_msg _) => true
  | _ => false
  end.

(** The payload as the handler passes it on: the spread of the message's
    payload under the two keys added from the request. *)
Definition spread_payload (c : Conn) (p : JsObject) : JsObject :=
  <["userAgent" := JStr (userAgent c)]> (<["ip" := remoteAddress c]> p).

(** The alerts one payload raises, in the order the rules are written,
    given the outcome [lt] of the entropy comparison. *)
Definition raised (cid : string) (m : JsObject) (lt : bool) : list Alert :=
  (if lt
   then [mkAlert "low_entropy" "warning"
           (LowEntropyText (String.substring 0 8 cid) (get_field m "entropy"))]
   else [])
  ++ (if ToBoolean (get_field m "breached")
      then [mkAlert "breached_password" "critical"
              (BreachedText (String.substring 0 8 cid))]
      else []).

(** The reply of the message handler's [catch]. *)
Definition failure_reply (ws : nat) : list Action :=
  [WsSend ws (error_msg "Invalid message format")].

End Server.

(** ** Functions outside the event loop

    The remaining functions of the file: the two string utilities, the
    room methods and endpoints that only read the state, and the shutdown
    handler. *)

Definition doubleQuote : ascii := ascii_of_nat 34.

(** The character class of the pattern in [sanitizeInput]: the two angle
    brackets, the double and the single quote, and the ampersand. *)
Definition is_markup (a : ascii) : bool :=
  existsb (Ascii.eqb a) ["<"; ">"; doubleQuote; "'"; "&"]%char.

(** The global [replace] of [sanitizeInput]: every character of the
    class is dropped. *)
Fixpoint strip_markup (s : string) : string :=
  match s with
  | EmptyString => EmptyString
  | String a s' =>
      if is_markup a then strip_markup s' else String a (strip_markup s')
  end.

Definition sanitizeInput (input : JsVal) : string :=
  match input with
  | JStr s => String.substring 0 100 (strip_markup s)
  | _ => ""
  end.

(** One entry of [os.networkInterfaces()]. *)
Record NetInfo := mkNet {
  family : string;
  internal : bool;
  address : string
}.

(** The inner loop of [getLocalIp], over one interface's entries. *)
Fixpoint firstExternal (entries : list NetInfo) : option string :=
  match entries with
  | [] => None
  | net :: rest =>
      if String.eqb (family net) "IPv4" && negb (internal net)
      then Some (address net)
      else firstExternal rest
  end.

(** [getLocalIp], given [os.networkInterfaces()] as its interfaces in
    [Object.keys] order. *)
Fixpoint getLocalIp (nets : list (string * list NetInfo)) : string :=
  match nets with
  | [] => "localhost"
  | (_, entries) :: rest =>
      match firstExternal entries with
      | Some a => a
      | None => getLocalIp rest
      end
  end.

(** [room.broadcastToClients(message, excludeClient)]; the clients are
    visited in key order here, in insertion order in the source. *)
Definition broadcastToClients (s : State) (rm : MetricsRoom) (m : OutMsg)
    (excludeClient : option nat) : list Action :=
  flat_map
    (λ kv : string * nat,
       if negb (bool_decide (excludeClient = Some kv.2)) && is_open s kv.2
       then sendToClient s kv.2 m
       else [])
    (map_to_list (clients rm)).

Record RoomStats := mkStats {
  st_roomCode : string;
  st_clientCount : nat;
  st_controllerConnected : bool;
  st_metricsCount : nat;
  st_createdAt : Z;
  st_lastActivity : Z;
  st_uptime : Z
}.

(** [room.getStats()] at clock reading [tm]. *)
Definition getStats (tm : Z) (rm : MetricsRoom) : RoomStats :=
  mkStats (code rm) (size (clients rm))
    (if controller rm is Some _ then true else false)
    (length (metrics rm)) (createdAt rm) (lastActivity rm) (tm - createdAt rm).

(** The room objects the registry leads to: [rooms.values()], in key
    order. *)
Definition registered_rooms (s : State) : list MetricsRoom :=
  omap (λ kr : string * nat, heap s !! kr.2) (map_to_list (rooms s)).

(** [GET /api/rooms/:roomCode/stats]: [None] is the 404 reply. *)
Definition get_room_stats (tm : Z) (rc : string) (s : State) : option RoomStats :=
  match rooms s !! rc with
  | Some r => getStats tm <$> heap s !! r
  | None => None
  end.

(** [GET /api/rooms]: the list and its [total]. *)
Definition get_rooms (tm : Z) (s : State) : list RoomStats * nat :=
  let roomList := getStats tm <$> registered_rooms s in
  (roomList, length roomList).

(** [rooms] and [totalClients] of [GET /api/info]. *)
Definition get_info (s : State) : nat * nat :=
  (size (rooms s),
   foldl (λ sum rm, sum + size (clients rm)) 0 (registered_rooms s)).

(** The socket is connected: its close event has not occurred. *)
Definition is_connected (s : State) (ws : nat) : bool :=
  match conns s !! ws with
  | Some c => if readyState c is CLOSED then false else true
  | None => false
  end.

(** [wss.clients]: the connected sockets, in the order they connected. *)
Definition wss_clients (s : State) : list nat :=
  filter (λ ws, is_connected s ws = true) (seq 0 (length (conns s))).

(** The [SIGINT] handler, up to [server.close]: every tracked socket is
    closed with the shutdown reason, and the forced exit is scheduled. *)
Definition on_sigint (s : State) : State * list Action :=
  let '(s1, a) :=
    foldl (λ '(s, a) ws,
             let '(s', a') := ws_close ws (Some "Server shutdown") s in
             (s', a ++ a'))
      (s, []) (wss_clients s) in
  (s1, a ++ [SetTimeout 5000]).

(** The digit a hex character stands for, in either case; it reads the
    codes of [toHex] back in the proofs. *)
Definition hexValue (a : ascii) : N :=
  let n := N_of_ascii a in
  if ((48 <=? n) && (n <=? 57))%N then (n - 48)%N
  else if ((97 <=? n) && (n <=? 102))%N then (n - 87)%N
  else if ((65 <=? n) && (n <=? 70))%N then (n - 55)%N
  else 0%N.

Fixpoint fromHex (s : string) : list byte :=
  match s with
  | String a (String b rest) =>
      default x00 (Byte.of_N (16 * hexValue a + hexValue b)) :: fromHex rest
  | _ => []
  end.

Definition is_lower_hex (a : ascii) : bool :=
  existsb (Ascii.eqb a) (String.list_ascii_of_string "0123456789abcdef").

(** ** Vocabulary of the statements, continued *)

(** How one event can change the room object at address [r]: not at all,
    by a join, by a metric record (trimmed, or left as pushed when the
    trim throws), by a settings update, or by a leave. *)
Inductive room_change (rt : Runtime) (tm : Z) (s : State) (r : nat)
    (rm : MetricsRoom) : Event → MetricsRoom → Prop :=
  | change_none e : room_change rt tm s r rm e rm
  | change_join ws c role k :
      conns s !! ws = Some c →
      readyState c ≠ CLOSED →
      rooms s !! k = Some r →
      room_change rt tm s r rm (Message ws (hello role (JStr k)))
        (set_lastActivity tm
           (if strict_eq_str role "controller"
            then set_controller (Some ws) rm
            else set_clients (<[clientId c := ws]> (clients rm)) rm))
  | change_metrics ws c p buf :
      conns s !! ws = Some c →
      readyState c ≠ CLOSED →
      room c = Some r →
      ws_role c = Some Client →
      trim rt (maxMetricsHistory (settings rm))
        (metrics rm ++ [mkEntry (spread_payload c p) (clientId c) (code rm) tm tm])
      = Some buf →
      room_change rt tm s r rm (Message ws (metrics_in (Some p)))
        (set_lastActivity tm (set_metrics buf rm))
  | change_pushed ws c p :
      conns s !! ws = Some c →
      readyState c ≠ CLOSED →
      room c = Some r →
      ws_role c = Some Client →
      trim rt (maxMetricsHistory (settings rm))
        (metrics rm ++ [mkEntry (spread_payload c p) (clientId c) (code rm) tm tm])
      = None →
      room_change rt tm s r rm (Message ws (metrics_in (Some p)))
        (set_metrics
           (metrics rm
            ++ [mkEntry (spread_payload c p) (clientId c) (code rm) tm tm])
           rm)
  | change_settings ws c p :
      conns s !! ws = Some c →
      readyState c ≠ CLOSED →
      room c = Some r →
      ws_role c = Some Controller →
      room_change rt tm s r rm (Message ws (room_settings (Some p)))
        (set_settings (merge_settings (settings rm) p) rm)
  | change_leave ws c :
      conns s !! ws = Some c →
      readyState c ≠ CLOSED →
      room c = Some r →
      room_change rt tm s r rm (Close ws)
        (set_lastActivity tm
           (if ws_role c is Some Controller then set_controller None rm
            else set_clients (delete (clientId c) (clients rm)) rm)).

(** How one event can change the record of socket [ws]: the client id
    stays, the socket never reopens, a closed socket stays closed, and
    only its own close event closes it. *)
Definition conn_forward (e : Event) (ws : nat) (c c' : Conn) : Prop :=
  clientId c' = clientId c
  ∧ (readyState c' = OPEN → readyState c = OPEN)
  ∧ (readyState c = CLOSED → readyState c' = CLOSED)
  ∧ (readyState c' = CLOSED → readyState c = CLOSED ∨ e = Close ws).

(** A send or a ping goes to a connected socket. *)
Definition reaches_connected (s : State) (a : Action) : bool :=
  match a with
  | WsSend ws _ | WsPing ws => is_connected s ws
  | _ => true
  end.

(** Room members are accepted connections, and every client entry is
    filed under the client id of its own socket. *)
Definition members_keyed (s : State) : Prop :=
  ∀ r rm, heap s !! r = Some rm →
    (∀ ws, controller rm = Some ws → is_Some (conns s !! ws))
    ∧ (∀ k ws, clients rm !! k = Some ws →
         ∃ c, conns s !! ws = Some c ∧ clientId c = k).

(** Every entry of the session table carries the id of a connected
    socket. *)
Definition sessions_live (s : State) : Prop :=
  ∀ cid si, clientSessions s !! cid = Some si →
    ∃ ws c, conns s !! ws = Some c ∧ clientId c = cid ∧ readyState c ≠ CLOSED.

(** The record of a socket after an event that is not its close: the
    client id stays, the socket does not reopen, and it is closed
    exactly if it was. *)
Definition conn_keeps (c c' : Conn) : Prop :=
  clientId c' = clientId c
  ∧ (readyState c' = OPEN → readyState c = OPEN)
  ∧ (readyState c' = CLOSED ↔ readyState c = CLOSED).

Definition conns_keep (s s' : State) : Prop :=
  ∀ ws c, conns s !! ws = Some c →
    ∃ c', conns s' !! ws = Some c' ∧ conn_keeps c c'.

(** The event is a room creation. *)
Definition creates_room (e : Event) : bool :=
  if e is PostRooms _ then true else false.

(** The close event of socket [ws] is among the events. *)
Definition closes (ws : nat) (tr : list (Z * Event)) : bool :=
  existsb (λ te, if te.2 is Close ws' then ws' =? ws else false) tr.

(** ** Sample runs

    Inputs for the concrete runs checked at the end of the file. *)

(** None of the sample runs compares a string with a number or prints a
    number, so the two conversions of the runtime play no part in
    them. *)
Definition sampleRuntime : Runtime := mkRuntime (λ _, NaN) (λ _, "").

(** The random bytes behind room code [0AFF3C]. *)
Definition roomBytes : vec byte 3 := [# x0a; xff; x3c].

Definition clientBytes (i : nat) : vec byte 8 :=
  [# x00; x00; x00; x00; x00; x00; x00; default x00 (Byte.of_nat i)].

Definition connect (i : nat) : Event :=
  Connection (clientBytes i) (JStr "10.0.0.7") (Some "probe").

Definition say (ws : nat) (role : string) : Event :=
  Message ws (hello (JStr role) (JStr "0AFF3C")).

(** Sockets [first], [first+1], ... connect and say hello with [role]. *)
Fixpoint joins (role : string) (first n : nat) : list (Z * Event) :=
  match n with
  | 0 => []
  | S n' => (0%Z, connect first) :: (0%Z, say first role) :: joins role (S first) n'
  end.

(** A room with a controller (socket 0) and one client (socket 1). *)
Definition pairedRoom : list (Z * Event) :=
  [(0, PostRooms roomBytes); (1, connect 0); (2, say 0 "controller");
   (3, connect 1); (4, say 1 "client")]%Z.

(** A room with a controller (socket 0) and a second connection
    (socket 1) that has not said hello. *)
Definition controllerAndGuest : list (Z * Event) :=
  [(0, PostRooms roomBytes); (1, connect 0); (2, say 0 "controller");
   (3, connect 1)]%Z.

(** A room filled by fifty clients (sockets 0 to 49). *)
Definition fullRoom : list (Z * Event) :=
  (0%Z, PostRooms roomBytes) :: joins "client" 0 50.

(** The paired room after its controller has lowered the maximum to 2
    and its client has reported two records. *)
Definition cappedRoom : list (Z * Event) :=
  pairedRoom
  ++ [(5, Message 0 (room_settings (Some (mkPatch (Some (JInt 2)) None None))));
      (6, Message 1 (metrics_in (Some {[ "entropy" := JInt 50 ]})));
      (7, Message 1 (metrics_in (Some {[ "entropy" := JInt 60 ]})))]%Z.

(** What [JSON.parse] makes of an object with the one key [toString]
    holding 0: a value without a primitive value. *)
Definition unreadable : JsVal := JObj [("toString", JInt 0)].


(** * Properties *)

(** ** Stores under update *)

Lemma heap_upd_conn ws f s : heap (upd_conn ws f s) = heap s.
Proof. reflexivity. Qed.

Lemma heap_upd_room_eq r rm0 rm s :
  heap s !! r = Some rm0 → heap (upd_room r (λ _, rm) s) !! r = Some rm.
Proof.
  intros H. unfold upd_room. simpl. rewrite list_lookup_alter_eq, H. reflexivity.
Qed.

Lemma heap_upd_room_ne r r' f s :
  r ≠ r' → heap (upd_room r f s) !! r' = heap s !! r'.
Proof. intros H. unfold upd_room. simpl. by rewrite list_lookup_alter_ne. Qed.

Lemma conns_upd_conn_ne ws ws' f s :
  ws ≠ ws' → conns (upd_conn ws f s) !! ws' = conns s !! ws'.
Proof. intros H. unfold upd_conn. simpl. by rewrite list_lookup_alter_ne. Qed.

Lemma is_open_upd_room r f s ws : is_open (upd_room r f s) ws = is_open s ws.
Proof. reflexivity. Qed.

Lemma is_open_upd_conn_rs ws ws' f s :
  (∀ c, readyState (f c) = readyState c) →
  is_open (upd_conn ws f s) ws' = is_open s ws'.
Proof.
  intros Hf. unfold is_open, upd_conn. simpl.
  destruct (decide (ws = ws')) as [->|Hne].
  - rewrite list_lookup_alter_eq. destruct (conns s !! ws'); simpl; [|done].
    by rewrite Hf.
  - by rewrite list_lookup_alter_ne.
Qed.

Lemma catch_fst ws res : (catch ws res).1 = res.1.1.
Proof. by destruct res as [[s a] []]. Qed.

Section Properties.

(** The runtime's conversions, as in [Server]. *)
Variable rt : Runtime.

(** ** Closing a controller socket *)

Lemma removeClient_controller tm r cid rm s :
  heap s !! r = Some rm →
  removeClient tm r cid (Some Controller) s
  = (upd_room r (λ _, set_lastActivity tm (set_controller None rm)) s, []).
Proof. intros H. unfold removeClient. rewrite H. reflexivity. Qed.

Lemma on_close_conns_ne tm ws ws' s :
  ws ≠ ws' → conns (on_close tm ws s).1 !! ws' = conns s !! ws'.
Proof.
  intros Hne. unfold on_close.
  destruct (conns s !! ws) as [c|] eqn:Hc; [|done].
  destruct (readyState c); try done;
    (destruct (room c) as [r|]; [|by simpl; rewrite list_lookup_alter_ne]);
    unfold removeClient; rewrite heap_upd_conn;
    (destruct (heap s !! r) as [rm|] eqn:Hr; simpl;
     [rewrite list_lookup_alter_eq, Hr; simpl;
      match goal with |- context [room_is_empty ?x] => destruct (room_is_empty x) end
     | rewrite Hr]);
    simpl; by rewrite list_lookup_alter_ne.
Qed.

(** C10: when a socket whose role is controller closes, the room kept by
    its handler loses its controller reference whatever that reference
    was (the closing socket is never compared with it), and no other
    socket is touched: a replacement controller stays connected and is
    detached from the room. *)
Theorem controller_close_nulls_slot tm ws c r rm s :
  conns s !! ws = Some c →
  readyState c ≠ CLOSED →
  ws_role c = Some Controller →
  room c = Some r →
  heap s !! r = Some rm →
  controller <$> heap (step rt tm (Close ws) s).1 !! r = Some None
  ∧ ∀ ws', ws' ≠ ws → conns (step rt tm (Close ws) s).1 !! ws' = conns s !! ws'.
Proof.
  intros Hc Hrs Hrole Hroom Hr. split.
  - simpl. unfold on_close. rewrite Hc.
    destruct (readyState c) eqn:E; try done;
      rewrite Hroom, Hrole;
      (rewrite (removeClient_controller _ _ _ rm); [|by rewrite heap_upd_conn]);
      (erewrite heap_upd_room_eq; [|by rewrite heap_upd_conn]);
      match goal with |- context [room_is_empty ?x] => destruct (room_is_empty x) end;
      simpl; rewrite list_lookup_alter_eq, Hr; reflexivity.
  - intros ws' Hne. simpl. by apply on_close_conns_ne.
Qed.

(** ** An accepted hello *)

Lemma on_hello_accept tm ws c role k r rm s :
  ToBoolean role = true →
  k ≠ "" →
  rooms s !! k = Some r →
  heap s !! r = Some rm →
  strict_eq_str role "client"
    && (CONFIG.MAX_CLIENTS_PER_ROOM <=? size (clients rm)) = false →
  catch ws (on_hello rt tm ws c role (JStr k) s)
  = let s1 :=
      upd_conn ws (set_room (Some r))
        (upd_conn ws (λ c, set_authTimeout (clearTimeout (authTimeout c)) c) s) in
    let '(s2, a) := (addClient rt tm r (clientId c) ws role s1).1 in
    match ToString rt role with
    | Some _ =>
        (set_clientSessions
           (<[clientId c := mkSession k role tm (remoteAddress c)]>
              (clientSessions s2)) s2, a)
    | None => (s2, a ++ failure_reply ws)
    end.
Proof.
  intros Hrole Hk Hreg Hr Hcap. unfold on_hello.
  rewrite Hrole. cbn [ToBoolean].
  destruct (String.eqb_spec k "") as [->|_]; [done|]. cbn [negb orb].
  unfold rooms_get. change (rooms (upd_conn ws ?f s)) with (rooms s).
  rewrite Hreg, !heap_upd_conn, Hr, Hcap. unfold addClient.
  rewrite !heap_upd_conn, Hr. cbn [fst].
  by destruct (ToString rt role).
Qed.

(** C9: a valid controller hello to a room that already has a controller
    puts the new session in the room's single controller slot; the only
    call made is the [room_info] reply to the new session, so the old
    controller's socket is neither closed nor sent anything, and its
    connection record is unchanged. *)
Theorem second_controller_replaces tm ws c old k r rm s :
  conns s !! ws = Some c →
  readyState c ≠ CLOSED →
  k ≠ "" →
  rooms s !! k = Some r →
  heap s !! r = Some rm →
  controller rm = Some old →
  old ≠ ws →
  let res := step rt tm (Message ws (hello (JStr "controller") (JStr k))) s in
  controller <$> heap res.1 !! r = Some (Some ws)
  ∧ res.2 = (if is_open s ws
             then [WsSend ws (room_info (code rm) (clientId c) (JStr "controller")
                               (size (clients rm)) true)]
             else [])
  ∧ (∀ a, a ∈ res.2 → action_target a ≠ Some old)
  ∧ conns res.1 !! old = conns s !! old.
Proof.
  intros Hc Hrs Hk Hreg Hr Hold Hne res.
  assert (Hres : res =
    (let s1 :=
      upd_conn ws (set_room (Some r))
        (upd_conn ws (λ c, set_authTimeout (clearTimeout (authTimeout c)) c) s) in
    let '(s2, a) := (addClient rt tm r (clientId c) ws (JStr "controller") s1).1 in
    (set_clientSessions
       (<[clientId c := mkSession k (JStr "controller") tm (remoteAddress c)]>
          (clientSessions s2)) s2, a))).
  { subst res. simpl. unfold on_message. rewrite Hc.
    destruct (readyState c); try done;
      by rewrite (on_hello_accept _ _ _ _ _ r rm). }
  clearbody res. subst res. unfold addClient.
  rewrite !heap_upd_conn, Hr. simpl strict_eq_str. cbv iota. cbv zeta.
  assert (Hopen : ∀ f g h st,
    (∀ c, readyState (f c) = readyState c) →
    (∀ c, readyState (g c) = readyState c) →
    (∀ c, readyState (h c) = readyState c) →
    is_open (upd_conn ws f (upd_room r st (upd_conn ws g (upd_conn ws h s)))) ws
    = is_open s ws).
  { intros f g h st Hf Hg Hh. rewrite is_open_upd_conn_rs by done.
    rewrite is_open_upd_room. by rewrite !is_open_upd_conn_rs by done. }
  unfold sendToClient. rewrite Hopen by done. simpl.
  rewrite app_nil_r.
  split; [|split; [|split]].
  - rewrite !list_lookup_alter_eq, Hr. reflexivity.
  - reflexivity.
  - intros a Ha. destruct (is_open s ws).
    + apply list_elem_of_singleton in Ha as ->. simpl. congruence.
    + by apply not_elem_of_nil in Ha.
  - by rewrite !list_lookup_alter_ne.
Qed.

(** ** The history buffer *)

Lemma trunc_neg_ge_one q :
  (1 <= q)%Q →
  ToIntegerOrInfinity (num_neg (Fin q)) = IInt (- Qfloor q)
  ∧ (1 ≤ Qfloor q)%Z
  ∧ (inject_Z (Qfloor q) <= q)%Q
  ∧ ∀ len : Z, (q < inject_Z len)%Q → (Qfloor q < len)%Z.
Proof.
  intros H1. split; [|split; [|split]].
  - destruct q as [n d]. unfold Qle in H1. simpl in *.
    rewrite Z.quot_opp_l by lia. rewrite Z.quot_div_nonneg by lia. reflexivity.
  - change 1%Z with (Qfloor 1). by apply Qfloor_resp_le.
  - apply Qfloor_le.
  - intros len Hlen.
    destruct (Z.lt_ge_cases (Qfloor q) len) as [|Hge]; [done|exfalso].
    apply (Qlt_not_le _ _ Hlen). eapply Qle_trans; [|apply Qfloor_le].
    by rewrite <- Zle_Qle.
Qed.

Lemma trim_throws cap (buf : list MetricEntry) :
  trim rt cap buf = None ↔ ToNumber rt cap = None.
Proof.
  unfold trim, js_num_gt. destruct (ToNumber rt cap) as [n|]; cbn; [|done].
  by destruct (num_lt n _).
Qed.

(** What the trim keeps, when the setting reads as a number [q ≥ 1]:
    the last [⌊q⌋] entries of the buffer, all of them when there are no
    more. *)
Lemma trim_exact cap q (buf : list MetricEntry) :
  ToNumber rt cap = Some (Fin q) →
  (1 <= q)%Q →
  trim rt cap buf = Some (drop (length buf - Z.to_nat (Qfloor q)) buf).
Proof.
  intros Hcap Hq. unfold trim, js_num_gt, num_of_nat. rewrite Hcap.
  cbn [fmap option_fmap option_map num_lt].
  destruct (trunc_neg_ge_one q Hq) as (Hf & Hf1 & Hfq & Hflen).
  destruct (Qle_bool (inject_Z (Z.of_nat (length buf))) q) eqn:Hle; cbn [negb].
  - apply Qle_bool_iff in Hle. apply Qfloor_resp_le in Hle.
    rewrite Qfloor_Z in Hle.
    replace (length buf - Z.to_nat (Qfloor q)) with 0 by lia.
    by rewrite drop_0.
  - assert (Hlt : (q < inject_Z (Z.of_nat (length buf)))%Q).
    { apply Qnot_le_lt. intros H. apply Qle_bool_iff in H. congruence. }
    specialize (Hflen _ Hlt).
    unfold slice. rewrite Hf. unfold slice_start.
    destruct (Z.ltb_spec (- Qfloor q) 0); [|lia].
    do 2 f_equal. lia.
Qed.

(** ** Metric ingestion *)

Lemma sendToController_eq s rm m :
  sendToController s rm m
  = match controller rm with
    | Some ctl => if is_open s ctl then [WsSend ctl m] else []
    | None => []
    end.
Proof.
  unfold sendToController, sendToClient.
  destruct (controller rm) as [ctl|]; [|done]. by destruct (is_open s ctl).
Qed.

Lemma on_message_metrics tm ws c r rm p s :
  conns s !! ws = Some c →
  readyState c ≠ CLOSED →
  room c = Some r →
  ws_role c = Some Client →
  heap s !! r = Some rm →
  let m := spread_payload c p in
  let e := mkEntry m (clientId c) (code rm) tm tm in
  let pushed := metrics rm ++ [e] in
  step rt tm (Message ws (metrics_in (Some p))) s
  = match trim rt (maxMetricsHistory (settings rm)) pushed with
    | None => (upd_room r (λ _, set_metrics pushed rm) s, failure_reply ws)
    | Some buf =>
        let rm1 := set_lastActivity tm (set_metrics buf rm) in
        (upd_room r (λ _, rm1) s,
         [InsertMetric e]
         ++ match controller rm with
            | Some ctl =>
                if is_open s ctl
                then [WsSend ctl (metrics_msg (clientId c) m tm)] else []
            | None => []
            end
         ++ match checkAlerts rt s rm1 (clientId c) m with
            | Some alerts => alerts
            | None => failure_reply ws
            end)
    end.
Proof.
  intros Hc Hrs Hroom Hrole Hr m e pushed. simpl. unfold on_message. rewrite Hc.
  destruct (readyState c); try done;
    rewrite Hroom, Hrole; unfold addMetrics; rewrite Hr;
    fold (spread_payload c p); fold m; fold e; fold pushed;
    (destruct (trim rt _ pushed) as [buf|]; [|done]);
    rewrite sendToController_eq;
    match goal with |- context [checkAlerts rt ?s1 ?rm1 ?cid ?m1] =>
      change (checkAlerts rt s1 rm1 cid m1) with (checkAlerts rt s rm1 cid m1);
      destruct (checkAlerts rt s rm1 cid m1)
    end; cbn [catch]; by rewrite <- ?app_assoc.
Qed.

Lemma checkAlerts_eq s rm cid m :
  checkAlerts rt s rm cid m
  = if ToBoolean (enableAlerts (settings rm)) then
      match js_lt_num rt (get_field m "entropy") (Fin 20) with
      | None => None
      | Some lt =>
          Some match raised cid m lt, controller rm with
               | _ :: _, Some ctl =>
                   if is_open s ctl
                   then [WsSend ctl (alerts_msg (raised cid m lt))] else []
               | _, _ => []
               end
      end
    else Some [].
Proof.
  unfold checkAlerts.
  destruct (ToBoolean (enableAlerts (settings rm))); [|done]. cbn [negb].
  destruct (js_lt_num rt _ _) as [lt|]; [|done]. fold (raised cid m lt).
  destruct (raised cid m lt) as [|a l]; [done|].
  cbn [length Nat.ltb Nat.leb]. by rewrite sendToController_eq.
Qed.

(** C1 (as amended): a metrics message with a payload from a connected
    socket that joined as a client appends one record to its room's
    buffer.  When the room's [maxMetricsHistory] cannot be read as a
    number (it holds an object without a primitive value), the handler
    stops there: the record stays in the buffer, nothing is inserted or
    forwarded, and the sender is sent the [error] of the handler's
    [catch].  Otherwise the buffer is trimmed and the handler makes, in
    this order: one insert of that record into the store; one [metrics]
    message to the room's controller when the room has one and its
    socket is open, none otherwise; and then either nothing, or one
    [alerts] message to that same open controller, or, exactly when
    alerts are enabled and the payload's [entropy] cannot be read as a
    number, the [error] to the sender.  The outcome of the insert
    arrives later and changes nothing. *)
Theorem ingestion_sequence tm ws c r rm p s :
  conns s !! ws = Some c →
  readyState c ≠ CLOSED →
  room c = Some r →
  ws_role c = Some Client →
  heap s !! r = Some rm →
  let m := spread_payload c p in
  let e := mkEntry m (clientId c) (code rm) tm tm in
  let res := step rt tm (Message ws (metrics_in (Some p))) s in
  (∀ tm' ok, step rt tm' (MetricStored ok) res.1 = (res.1, []))
  ∧ match ToNumber rt (maxMetricsHistory (settings rm)) with
    | None =>
        metrics <$> heap res.1 !! r = Some (metrics rm ++ [e])
        ∧ res.2 = failure_reply ws
    | Some _ =>
        ∃ buf forward alerts,
          trim rt (maxMetricsHistory (settings rm)) (metrics rm ++ [e]) = Some buf
          ∧ metrics <$> heap res.1 !! r = Some buf
          ∧ res.2 = [InsertMetric e] ++ forward ++ alerts
          ∧ forward
            = match controller rm with
              | Some ctl =>
                  if is_open s ctl
                  then [WsSend ctl (metrics_msg (clientId c) m tm)] else []
              | None => []
              end
          ∧ (alerts = []
             ∨ (∃ ctl l, controller rm = Some ctl ∧ is_open s ctl = true ∧ l ≠ []
                         ∧ alerts = [WsSend ctl (alerts_msg l)])
             ∨ alerts = failure_reply ws)
          ∧ (alerts = failure_reply ws
             ↔ ToBoolean (enableAlerts (settings rm)) = true
               ∧ ToNumber rt (get_field m "entropy") = None)
    end.
Proof.
  intros Hc Hrs Hroom Hrole Hr m e res. subst res. split; [done|].
  rewrite (on_message_metrics tm ws c r rm p s) by done.
  fold m. fold e.
  destruct (ToNumber rt (maxMetricsHistory (settings rm))) as [n|] eqn:Hn.
  - destruct (trim rt _ (metrics rm ++ [e])) as [buf|] eqn:Hb;
      [|apply trim_throws in Hb; congruence].
    eexists buf, _, _. split; [done|]. cbn [fst snd].
    split; [by erewrite heap_upd_room_eq by done|].
    split; [reflexivity|]. split; [reflexivity|].
    rewrite checkAlerts_eq. cbn [settings set_lastActivity set_metrics controller].
    unfold js_lt_num.
    destruct (ToBoolean (enableAlerts (settings rm)));
      [|split; [by left|split; [done|by intros []]]].
    destruct (ToNumber rt (get_field m "entropy")) as [x|];
      cbn [fmap option_fmap option_map].
    + assert (Hcase :
        ∀ alerts,
          alerts = [] ∨ (∃ ctl l, controller rm = Some ctl ∧ is_open s ctl = true
                                  ∧ l ≠ [] ∧ alerts = [WsSend ctl (alerts_msg l)]) →
          (alerts = [] ∨ (∃ ctl l, controller rm = Some ctl ∧ is_open s ctl = true
                                   ∧ l ≠ [] ∧ alerts = [WsSend ctl (alerts_msg l)])
           ∨ alerts = failure_reply ws)
          ∧ (alerts = failure_reply ws ↔ true = true ∧ Some x = None)).
      { intros alerts H. split; [tauto|]. split; [|by intros []].
        intros ->. destruct H as [H|(ctl & l & _ & _ & _ & H)]; discriminate. }
      apply Hcase.
      destruct (raised _ _ _) as [|a l] eqn:Hl; [by left|].
      destruct (controller rm) as [ctl|]; [|by left].
      destruct (is_open s ctl) eqn:Ho; [|by left].
      right. by exists ctl, (a :: l).
    + split; [by right; right|]. done.
  - assert (Hb : trim rt (maxMetricsHistory (settings rm)) (metrics rm ++ [e]) = None)
      by by apply trim_throws.
    rewrite Hb. cbn [fst snd]. split; [|done].
    by erewrite heap_upd_room_eq by done.
Qed.

(** C5 (as amended): right after a metric ingestion into a room whose
    [maxMetricsHistory] reads as a number [q ≥ 1], the buffer is exactly
    the last [⌊q⌋] entries of the old buffer followed by the new record,
    and all of them when they fit: the entries dropped are the oldest,
    only the overflow is dropped, the survivors keep their order, the
    new record is the last one, and the buffer holds at most [q]
    entries. *)
Theorem buffer_bounded_after_ingestion tm ws c r rm p q s :
  conns s !! ws = Some c →
  readyState c ≠ CLOSED →
  room c = Some r →
  ws_role c = Some Client →
  heap s !! r = Some rm →
  ToNumber rt (maxMetricsHistory (settings rm)) = Some (Fin q) →
  (1 <= q)%Q →
  let e := mkEntry (spread_payload c p) (clientId c) (code rm) tm tm in
  let pushed := metrics rm ++ [e] in
  let res := step rt tm (Message ws (metrics_in (Some p))) s in
  ∃ rm',
    heap res.1 !! r = Some rm'
    ∧ settings rm' = settings rm
    ∧ metrics rm' = drop (length pushed - Z.to_nat (Qfloor q)) pushed
    ∧ length (metrics rm') = length pushed `min` Z.to_nat (Qfloor q)
    ∧ (inject_Z (Z.of_nat (length (metrics rm'))) <= q)%Q
    ∧ last (metrics rm') = Some e
    ∧ ((inject_Z (Z.of_nat (length pushed)) <= q)%Q → metrics rm' = pushed).
Proof.
  intros Hc Hrs Hroom Hrole Hr Hcap Hq e pushed res. subst res.
  rewrite (on_message_metrics tm ws c r rm p s) by done. fold e. fold pushed.
  rewrite (trim_exact _ _ pushed Hcap Hq).
  destruct (trunc_neg_ge_one q Hq) as (_ & Hf1 & Hfq & _).
  eexists. cbn [fst]. split; [by erewrite heap_upd_room_eq|].
  split; [reflexivity|]. cbn [metrics set_lastActivity set_metrics].
  split; [done|].
  assert (Hlen : length (drop (length pushed - Z.to_nat (Qfloor q)) pushed)
                 = length pushed `min` Z.to_nat (Qfloor q))
    by (rewrite length_drop; lia).
  split; [done|]. split; [|split].
  - rewrite Hlen. eapply Qle_trans; [|exact Hfq]. rewrite <- Zle_Qle. lia.
  - assert (Hp : length pushed = S (length (metrics rm)))
      by (unfold pushed; rewrite length_app; cbn [length]; lia).
    rewrite last_lookup, lookup_drop, length_drop.
    match goal with |- pushed !! ?i = _ =>
      replace i with (length (metrics rm)) by lia end.
    unfold pushed. by rewrite lookup_app_r, Nat.sub_diag.
  - intros Hfit. apply Qfloor_resp_le in Hfit. rewrite Qfloor_Z in Hfit.
    replace (length pushed - Z.to_nat (Qfloor q)) with 0 by lia.
    by rewrite drop_0.
Qed.

(** X2: a [room_settings] message, whoever sends it and whatever it
    carries, leaves every room's metrics buffer as it is. *)
Lemma settings_update_keeps_buffer tm ws st r s :
  metrics <$> heap (step rt tm (Message ws (room_settings st)) s).1 !! r
  = metrics <$> heap s !! r.
Proof.
  simpl. unfold on_message.
  destruct (conns s !! ws) as [c|]; [|done].
  destruct (readyState c); try done;
    destruct (room c) as [r'|]; try done;
    destruct (ws_role c) as [[]|]; try done;
    destruct st as [pt|]; try done;
    destruct (heap s !! r') as [rm|] eqn:Hr'; try done;
    (destruct (decide (r' = r)) as [->|Hne];
     [cbn [fst catch]; erewrite heap_upd_room_eq by done; by rewrite Hr'
     |cbn [fst catch]; by rewrite heap_upd_room_ne]).
Qed.

(** C6 (as amended): with alerts disabled in the room's settings
    nothing is raised.  With alerts enabled, evaluation first compares
    the payload's [entropy] with 20.  When [entropy] cannot be read as a
    number (an object with an own [toString] key, for one) the
    comparison throws: no alert is raised whatever [breached] holds, and
    the message handler, having already stored and forwarded the record,
    answers the sender with its [error].  When it can, the [low_entropy]
    warning is raised exactly when the number is below 20 and the
    [breached_password] critical alert exactly when [breached] is
    truthy; an absent field raises nothing and is no error; whatever is
    raised goes to the controller as one [alerts] message when the room
    has a controller with an open socket, and nowhere otherwise. *)
Theorem alert_rules s rm cid m :
  let entropy := get_field m "entropy" in
  let low :=
    mkAlert "low_entropy" "warning"
      (LowEntropyText (String.substring 0 8 cid) entropy) in
  let br :=
    mkAlert "breached_password" "critical"
      (BreachedText (String.substring 0 8 cid)) in
  (ToBoolean (enableAlerts (settings rm)) = false →
   checkAlerts rt s rm cid m = Some [])
  ∧ (ToBoolean (enableAlerts (settings rm)) = true →
     ToNumber rt entropy = None →
     checkAlerts rt s rm cid m = None)
  ∧ (ToBoolean (enableAlerts (settings rm)) = true →
     ∀ n, ToNumber rt entropy = Some n →
     ∃ alerts,
       (low ∈ alerts ↔ num_lt n (Fin 20) = true)
       ∧ (br ∈ alerts ↔ ToBoolean (get_field m "breached") = true)
       ∧ (∀ a, a ∈ alerts → a = low ∨ a = br)
       ∧ NoDup alerts
       ∧ checkAlerts rt s rm cid m
         = Some match alerts, controller rm with
                | _ :: _, Some ctl =>
                    if is_open s ctl then [WsSend ctl (alerts_msg alerts)] else []
                | _, _ => []
                end
       ∧ (m !! "breached" = None → br ∉ alerts)
       ∧ (m !! "breached" = Some (JBool true) → br ∈ alerts))
  ∧ (m !! "entropy" = None → ToNumber rt entropy = Some NaN)
  ∧ (∀ q, m !! "entropy" = Some (JNum (Fin q)) →
       ToNumber rt entropy = Some (Fin q)
       ∧ (num_lt (Fin q) (Fin 20) = true ↔ (q < 20)%Q))
  ∧ num_lt NaN (Fin 20) = false
  ∧ (∀ fields, m !! "entropy" = Some (JObj fields) →
       has_key "toString" fields = true → ToNumber rt entropy = None)
  ∧ (∀ tm ws c r p s0,
       conns s0 !! ws = Some c →
       readyState c ≠ CLOSED →
       room c = Some r →
       ws_role c = Some Client →
       heap s0 !! r = Some rm →
       m = spread_payload c p →
       ToBoolean (enableAlerts (settings rm)) = true →
       ToNumber rt entropy = None →
       ∀ buf,
         trim rt (maxMetricsHistory (settings rm))
           (metrics rm ++ [mkEntry m (clientId c) (code rm) tm tm]) = Some buf →
         (step rt tm (Message ws (metrics_in (Some p))) s0).2
         = [InsertMetric (mkEntry m (clientId c) (code rm) tm tm)]
           ++ match controller rm with
              | Some ctl =>
                  if is_open s0 ctl
                  then [WsSend ctl (metrics_msg (clientId c) m tm)] else []
              | None => []
              end
           ++ failure_reply ws).
Proof.
  intros entropy low br.
  split; [intros Hoff; by rewrite checkAlerts_eq, Hoff|].
  split.
  { intros Hen Hthrow. rewrite checkAlerts_eq, Hen. unfold js_lt_num.
    fold entropy. by rewrite Hthrow. }
  split.
  { intros Hen n Hn. exists (raised cid m (num_lt n (Fin 20))).
    assert (Hlow : low ∈ raised cid m (num_lt n (Fin 20))
                   ↔ num_lt n (Fin 20) = true).
    { unfold raised. fold entropy. fold low. fold br.
      destruct (num_lt n (Fin 20)); destruct (ToBoolean (get_field m "breached"));
        simpl; split; try done; try (intros _; by left).
      - intros H. apply list_elem_of_singleton in H. discriminate.
      - intros H. by apply not_elem_of_nil in H. }
    assert (Hbr : br ∈ raised cid m (num_lt n (Fin 20))
                  ↔ ToBoolean (get_field m "breached") = true).
    { unfold raised. fold entropy. fold low. fold br.
      destruct (num_lt n (Fin 20)); destruct (ToBoolean (get_field m "breached"));
        simpl; split; try done.
      - intros _. right. by left.
      - intros H. apply list_elem_of_singleton in H. discriminate.
      - intros _. by left.
      - intros H. by apply not_elem_of_nil in H. }
    split; [done|]. split; [done|].
    split; [|split; [|split; [|split]]].
    - intros a. unfold raised. fold entropy. fold low. fold br.
      destruct (num_lt n (Fin 20)); destruct (ToBoolean (get_field m "breached"));
        simpl; intros H.
      + apply elem_of_cons in H as [->| H]; [by left|].
        apply list_elem_of_singleton in H as ->. by right.
      + apply list_elem_of_singleton in H as ->. by left.
      + apply list_elem_of_singleton in H as ->. by right.
      + by apply not_elem_of_nil in H.
    - unfold raised.
      destruct (num_lt n (Fin 20)); destruct (ToBoolean (get_field m "breached"));
        simpl; repeat constructor.
      + intros H. apply list_elem_of_singleton in H. discriminate.
      + by intros H%not_elem_of_nil.
      + by intros H%not_elem_of_nil.
      + by intros H%not_elem_of_nil.
    - rewrite checkAlerts_eq, Hen. unfold js_lt_num. fold entropy.
      by rewrite Hn.
    - intros Hm. rewrite Hbr. unfold get_field. rewrite Hm. done.
    - intros Hm. rewrite Hbr. unfold get_field. by rewrite Hm. }
  split; [intros Hm; unfold entropy, get_field; by rewrite Hm|].
  split.
  { intros q Hm. unfold entropy, get_field. rewrite Hm. split; [done|].
    change (negb (Qle_bool 20 q) = true ↔ (q < 20)%Q).
    rewrite negb_true_iff. split.
    + intros H. apply Qnot_le_lt. intros H'. apply Qle_bool_iff in H'. congruence.
    + intros H. destruct (Qle_bool 20 q) eqn:E; [|done].
      apply Qle_bool_iff in E. exfalso. eapply Qlt_not_le; eauto. }
  split; [done|]. split.
  { intros fields Hm Hkey. unfold entropy, get_field. rewrite Hm.
    cbn -[has_key]. by rewrite Hkey. }
  intros tm ws c r p s0 Hc Hrs Hroom Hrole Hr -> Hen Hthrow buf Hbuf.
  rewrite (on_message_metrics tm ws c r rm p s0) by done.
  cbv zeta. rewrite Hbuf. cbn [snd]. do 2 f_equal.
  rewrite checkAlerts_eq. cbn [settings set_lastActivity set_metrics].
  rewrite Hen. unfold js_lt_num. fold entropy. by rewrite Hthrow.
Qed.

(** ** Frame: what the socket handlers leave alone *)

Lemma on_message_frame tm ws m s :
  rooms (step rt tm (Message ws m) s).1 = rooms s
  ∧ removalTimers (step rt tm (Message ws m) s).1 = removalTimers s.
Proof.
  simpl. unfold on_message, on_hello, addMetrics, addClient, ws_close.
  repeat case_match; simplify_eq; done.
Qed.

Lemma on_close_eq tm ws c r rm s :
  conns s !! ws = Some c →
  readyState c ≠ CLOSED →
  room c = Some r →
  heap s !! r = Some rm →
  let rm' :=
    set_lastActivity tm
      (if ws_role c is Some Controller then set_controller None rm
       else set_clients (delete (clientId c) (clients rm)) rm) in
  let s1 :=
    upd_room r (λ _, rm')
      (upd_conn ws
         (λ c, set_heartbeat false
                 (set_authTimeout (clearTimeout (authTimeout c))
                    (set_readyState CLOSED c))) s) in
  on_close tm ws s
  = (set_clientSessions (delete (clientId c) (clientSessions s))
       (if room_is_empty rm'
        then set_removalTimers (removalTimers s ++ [r]) s1
        else s1),
     match ws_role c, controller rm' with
     | Some Client, Some ctl_ws =>
         sendToClient s1 ctl_ws (client_left (clientId c) (size (clients rm')))
     | _, _ => []
     end
     ++ if room_is_empty rm' then [SetTimeout 60000] else []).
Proof.
  intros Hc Hrs Hroom Hr rm' s1. unfold on_close. rewrite Hc.
  assert (Hr1 : heap s1 !! r = Some rm').
  { unfold s1. erewrite heap_upd_room_eq; [done|]. by rewrite heap_upd_conn. }
  destruct (readyState c); try done;
    rewrite Hroom; unfold removeClient; rewrite heap_upd_conn, Hr;
    fold rm'; fold s1; rewrite Hr1; destruct (room_is_empty rm');
    by rewrite ?app_nil_r.
Qed.

Lemma on_close_frame tm ws s :
  rooms (step rt tm (Close ws) s).1 = rooms s
  ∧ (removalTimers (step rt tm (Close ws) s).1 = removalTimers s
     ∨ ∃ c r rm,
         conns s !! ws = Some c ∧ room c = Some r
         ∧ heap (step rt tm (Close ws) s).1 !! r = Some rm
         ∧ room_is_empty rm = true
         ∧ removalTimers (step rt tm (Close ws) s).1 = removalTimers s ++ [r]
         ∧ SetTimeout 60000 ∈ (step rt tm (Close ws) s).2).
Proof.
  simpl.
  destruct (conns s !! ws) as [c|] eqn:Hc;
    [|unfold on_close; rewrite Hc; by split; [|left]].
  destruct (decide (readyState c = CLOSED)) as [Hrs|Hrs];
    [unfold on_close; rewrite Hc, Hrs; by split; [|left]|].
  destruct (room c) as [r|] eqn:Hroom; cycle 1.
  { unfold on_close. rewrite Hc, Hroom.
    destruct (readyState c); by split; [|left]. }
  destruct (heap s !! r) as [rm|] eqn:Hr; cycle 1.
  { unfold on_close, removeClient. rewrite Hc, Hroom, !heap_upd_conn, Hr.
    rewrite heap_upd_conn, Hr. destruct (readyState c); by split; [|left]. }
  rewrite (on_close_eq tm ws c r rm s) by done.
  match goal with |- context [room_is_empty ?x] =>
    destruct (room_is_empty x) eqn:He end.
  - split; [done|]. right. exists c, r. eexists.
    split; [done|]. split; [done|].
    split; [|split; [exact He|split; [done|]]].
    + cbn [fst heap set_clientSessions set_removalTimers].
      erewrite heap_upd_room_eq; [done|]. by rewrite heap_upd_conn.
    + cbn [snd]. apply elem_of_app. right. by apply list_elem_of_singleton.
  - split; [done|]. by left.
Qed.

Lemma other_events_frame tm e s :
  match e with
  | Close _ | EmptyRoomTimeout | PostRooms _ | DeleteRooms _ => True
  | _ =>
      rooms (step rt tm e s).1 = rooms s
      ∧ removalTimers (step rt tm e s).1 = removalTimers s
  end.
Proof.
  destruct e; try done.
  - apply on_message_frame.
  - simpl. unfold on_authTimeout, ws_close. repeat case_match; done.
  - simpl. unfold on_heartbeat. repeat case_match; done.
Qed.

(** C7 (as amended): a close removes nothing from the registry; it
    schedules one check of its room, 60 s ahead, exactly if it leaves
    the room without controller and without clients; when the oldest
    scheduled check runs it removes the room's code from the registry
    exactly if the room has no controller and no clients at that moment;
    joins and all other socket events leave the registry and the
    scheduled checks as they are, so a join does not cancel a check. *)
Theorem empty_room_removal tm s :
  (∀ ws, rooms (step rt tm (Close ws) s).1 = rooms s)
  ∧ (∀ ws c r rm,
       conns s !! ws = Some c →
       readyState c ≠ CLOSED →
       room c = Some r →
       heap s !! r = Some rm →
       let res := step rt tm (Close ws) s in
       ∃ rm',
         heap res.1 !! r = Some rm'
         ∧ removalTimers res.1
           = (if room_is_empty rm' then removalTimers s ++ [r] else removalTimers s)
         ∧ (SetTimeout 60000 ∈ res.2 ↔ room_is_empty rm' = true))
  ∧ (∀ r rest rm,
       removalTimers s = r :: rest →
       heap s !! r = Some rm →
       let res := step rt tm EmptyRoomTimeout s in
       res.2 = [] ∧ removalTimers res.1 = rest ∧ heap res.1 = heap s
       ∧ rooms res.1
         = if room_is_empty rm then delete (code rm) (rooms s) else rooms s)
  ∧ (∀ e,
       match e with
       | Close _ | EmptyRoomTimeout | PostRooms _ | DeleteRooms _ => True
       | _ =>
           rooms (step rt tm e s).1 = rooms s
           ∧ removalTimers (step rt tm e s).1 = removalTimers s
       end).
Proof.
  split; [|split; [|split]].
  - intros ws. apply on_close_frame.
  - intros ws c r rm Hc Hrs Hroom Hr res. subst res. cbn [step].
    rewrite (on_close_eq tm ws c r rm s) by done.
    eexists. split.
    { match goal with |- context [room_is_empty ?x] =>
        destruct (room_is_empty x) end;
        cbn [fst heap set_clientSessions set_removalTimers];
        (erewrite heap_upd_room_eq; [done|]; by rewrite heap_upd_conn). }
    match goal with |- context [room_is_empty ?x] =>
      destruct (room_is_empty x) eqn:He end; (split; [done|]); cbn [snd].
    + split; [done|]. intros _. apply elem_of_app. right.
      by apply list_elem_of_singleton.
    + split; [|done]. rewrite app_nil_r. intros Hin.
      destruct (ws_role c) as [[]|]; try by apply not_elem_of_nil in Hin.
      cbn [controller set_lastActivity set_clients] in Hin.
      destruct (controller rm) as [ctl|]; [|by apply not_elem_of_nil in Hin].
      unfold sendToClient in Hin. destruct (is_open _ ctl).
      * apply list_elem_of_singleton in Hin. discriminate.
      * by apply not_elem_of_nil in Hin.
  - intros r rest rm Ht Hr res. subst res. simpl. unfold on_emptyRoomTimeout.
    rewrite Ht. cbn [heap set_removalTimers]. rewrite Hr.
    by destruct (room_is_empty rm).
  - intros e. apply other_events_frame.
Qed.

(** ** The hello handshake *)

Lemma sendToClient_no_rejection s ws m :
  (if m is error_msg _ then false else true) = true →
  Forall (λ a, is_rejection a = false) (sendToClient s ws m).
Proof.
  intros Hm. unfold sendToClient. destruct (is_open s ws); [|constructor].
  constructor; [|constructor]. by destruct m.
Qed.

Lemma on_hello_missing tm ws c role code_ s :
  ToBoolean role = false ∨ ToBoolean code_ = false →
  catch ws (on_hello rt tm ws c role code_ s)
  = ws_close ws (Some "Invalid authentication")
      (upd_conn ws (λ c, set_authTimeout (clearTimeout (authTimeout c)) c) s).
Proof.
  intros H. unfold on_hello.
  destruct H as [-> | ->]; [done|]. by rewrite orb_true_r.
Qed.

Lemma on_hello_unknown tm ws c role code_ s :
  ToBoolean role = true →
  ToBoolean code_ = true →
  rooms_get s code_ = None →
  catch ws (on_hello rt tm ws c role code_ s)
  = let '(s1, a) :=
      ws_close ws (Some "Invalid room code")
        (upd_conn ws (λ c, set_authTimeout (clearTimeout (authTimeout c)) c) s) in
    (s1, WsSend ws (error_msg "Invalid room code") :: a).
Proof.
  intros Hr Hc Hg. unfold on_hello. rewrite Hr, Hc. cbn [negb orb].
  replace (rooms_get (upd_conn ws _ s) code_) with (rooms_get s code_)
    by (by destruct code_).
  rewrite Hg. by destruct code_.
Qed.

Lemma on_hello_full tm ws c k r rm s :
  k ≠ "" →
  rooms s !! k = Some r →
  heap s !! r = Some rm →
  CONFIG.MAX_CLIENTS_PER_ROOM ≤ size (clients rm) →
  catch ws (on_hello rt tm ws c (JStr "client") (JStr k) s)
  = let '(s2, a) :=
      ws_close ws (Some "Room is full")
        (upd_conn ws (set_room (Some r))
           (upd_conn ws (λ c, set_authTimeout (clearTimeout (authTimeout c)) c) s)) in
    (s2, WsSend ws (error_msg "Room is full") :: a).
Proof.
  intros Hk Hreg Hr Hfull. unfold on_hello. cbn [ToBoolean].
  destruct (String.eqb_spec k "") as [->|_]; [done|].
  change (negb (negb ("client" =? ""))%string) with false. cbn [negb orb].
  unfold rooms_get. change (rooms (upd_conn ws ?f s)) with (rooms s).
  rewrite Hreg, !heap_upd_conn, Hr.
  change (strict_eq_str (JStr "client") "client") with true. cbn [andb].
  destruct (Nat.leb_spec CONFIG.MAX_CLIENTS_PER_ROOM (size (clients rm))); [done|lia].
Qed.

Lemma step_hello tm ws c role code_ s :
  conns s !! ws = Some c →
  readyState c ≠ CLOSED →
  step rt tm (Message ws (hello role code_)) s
  = catch ws (on_hello rt tm ws c role code_ s).
Proof.
  intros Hc Hrs. simpl. unfold on_message. rewrite Hc.
  by destruct (readyState c).
Qed.

(** C4 (as amended): for a hello on a connected socket,
    - with role [controller] or [client], a code that names a registered
      room and, for a client, fewer than [MAX_CLIENTS_PER_ROOM] clients in
      it: the session is registered with the room and no close or
      [error] is issued;
    - a client hello to a room at the cap: [error] "Room is full", then
      close;
    - role or code missing (falsy): close with "Invalid authentication"
      and no [error] message;
    - role and code present, code not registered: [error] "Invalid room
      code", then close.
    The three refusals leave every room as it was. *)
Theorem hello_outcomes tm ws c s :
  conns s !! ws = Some c →
  readyState c ≠ CLOSED →
  (∀ role k r rm,
     role = "controller" ∨ role = "client" →
     k ≠ "" →
     rooms s !! k = Some r →
     heap s !! r = Some rm →
     (role = "client" → size (clients rm) < CONFIG.MAX_CLIENTS_PER_ROOM) →
     let res := step rt tm (Message ws (hello (JStr role) (JStr k))) s in
     Forall (λ a, is_rejection a = false) res.2
     ∧ clientSessions res.1 !! clientId c
       = Some (mkSession k (JStr role) tm (remoteAddress c))
     ∧ ∃ rm' c',
         heap res.1 !! r = Some rm' ∧ conns res.1 !! ws = Some c'
         ∧ room c' = Some r
         ∧ (role = "controller" →
            controller rm' = Some ws ∧ clients rm' = clients rm
            ∧ ws_role c' = Some Controller)
         ∧ (role = "client" →
            clients rm' = <[clientId c := ws]> (clients rm)
            ∧ controller rm' = controller rm ∧ ws_role c' = Some Client))
  ∧ (∀ k r rm,
       k ≠ "" →
       rooms s !! k = Some r →
       heap s !! r = Some rm →
       CONFIG.MAX_CLIENTS_PER_ROOM ≤ size (clients rm) →
       let res := step rt tm (Message ws (hello (JStr "client") (JStr k))) s in
       res.2 = [WsSend ws (error_msg "Room is full");
                WsClose ws (Some "Room is full")]
       ∧ heap res.1 = heap s)
  ∧ (∀ role code_,
       ToBoolean role = false ∨ ToBoolean code_ = false →
       let res := step rt tm (Message ws (hello role code_)) s in
       res.2 = [WsClose ws (Some "Invalid authentication")]
       ∧ heap res.1 = heap s)
  ∧ (∀ role code_,
       ToBoolean role = true →
       ToBoolean code_ = true →
       rooms_get s code_ = None →
       let res := step rt tm (Message ws (hello role code_)) s in
       res.2 = [WsSend ws (error_msg "Invalid room code");
                WsClose ws (Some "Invalid room code")]
       ∧ heap res.1 = heap s).
Proof.
  intros Hc Hrs. split; [|split; [|split]].
  - intros role k r rm Hrole Hk Hreg Hr Hcap res. subst res.
    rewrite (step_hello tm ws c) by done.
    rewrite (on_hello_accept tm ws c (JStr role) k r rm); try done; cycle 1.
    { by destruct Hrole as [-> | ->]. }
    { destruct Hrole as [-> | ->]; [done|].
      change (strict_eq_str (JStr "client") "client") with true. cbn [andb].
      specialize (Hcap eq_refl).
      destruct (Nat.leb_spec CONFIG.MAX_CLIENTS_PER_ROOM (size (clients rm)));
        [lia|done]. }
    cbv zeta. cbn [ToString]. unfold addClient. rewrite !heap_upd_conn, Hr.
    assert (Hcw : ∀ f g h st,
      conns (upd_conn ws f (upd_room r st (upd_conn ws g (upd_conn ws h s)))) !! ws
      = Some (f (g (h c)))).
    { intros. unfold upd_conn, upd_room. cbn [conns].
      rewrite !list_lookup_alter_eq, Hc. done. }
    destruct Hrole as [-> | ->].
    + change (strict_eq_str (JStr "controller") "controller") with true.
      change (strict_eq_str (JStr "controller") "client") with false.
      cbv iota. cbn [fst snd controller set_lastActivity set_controller].
      rewrite app_nil_r.
      split; [by apply sendToClient_no_rejection|].
      split; [cbn [clientSessions set_clientSessions]; by rewrite lookup_insert_eq|].
      eexists _, _. split.
      { cbn [heap set_clientSessions upd_conn].
        erewrite heap_upd_room_eq; [done|]. by rewrite !heap_upd_conn. }
      split; [cbn [conns set_clientSessions]; apply Hcw|].
      split; [done|]. split; [done|]. intros [=].
    + change (strict_eq_str (JStr "client") "controller") with false.
      change (strict_eq_str (JStr "client") "client") with true.
      cbv iota. cbn [fst snd controller set_lastActivity set_clients].
      split.
      { apply Forall_app. split; [by apply sendToClient_no_rejection|].
        destruct (controller rm); [|constructor].
        by apply sendToClient_no_rejection. }
      split; [cbn [clientSessions set_clientSessions]; by rewrite lookup_insert_eq|].
      eexists _, _. split.
      { cbn [heap set_clientSessions upd_conn].
        erewrite heap_upd_room_eq; [done|]. by rewrite !heap_upd_conn. }
      split; [cbn [conns set_clientSessions]; apply Hcw|].
      split; [done|]. split; [intros [=]|done].
  - intros k r rm Hk Hreg Hr Hfull res. subst res.
    rewrite (step_hello tm ws c) by done.
    by rewrite (on_hello_full tm ws c k r rm).
  - intros role code_ H res. subst res.
    rewrite (step_hello tm ws c) by done.
    by rewrite on_hello_missing.
  - intros role code_ H1 H2 H3 res. subst res.
    rewrite (step_hello tm ws c) by done.
    by rewrite on_hello_unknown.
Qed.

(** ** Room objects along a run *)

Lemma heap_ext_refl s : heap_ext s s.
Proof. intros r rm H. eauto. Qed.

Lemma heap_ext_trans s1 s2 s3 : heap_ext s1 s2 → heap_ext s2 s3 → heap_ext s1 s3.
Proof.
  intros H12 H23 r rm H. destruct (H12 _ _ H) as (rm2 & H2 & E2).
  destruct (H23 _ _ H2) as (rm3 & H3 & E3). exists rm3. split; [done|congruence].
Qed.

Lemma heap_ext_same s s' : heap s' = heap s → heap_ext s s'.
Proof. intros E r rm H. rewrite E. eauto. Qed.

Lemma heap_ext_upd_room r rm0 rm1 s :
  heap s !! r = Some rm0 → code rm1 = code rm0 →
  heap_ext s (upd_room r (λ _, rm1) s).
Proof.
  intros H0 Hc r' rm H. destruct (decide (r = r')) as [->|Hne].
  - exists rm1. split; [by eapply heap_upd_room_eq|]. congruence.
  - exists rm. by rewrite heap_upd_room_ne.
Qed.

Lemma close_all_state l s :
  (close_all l s).1 = foldl (λ s ws, (ws_close ws None s).1) s l.
Proof.
  unfold close_all. generalize (@nil Action).
  revert s. induction l as [|x l IH]; intros s a; [done|].
  simpl. by rewrite IH.
Qed.

Lemma heap_close_all l s : heap (close_all l s).1 = heap s.
Proof.
  rewrite close_all_state. revert s.
  induction l as [|x l IH]; intros s; [done|]. simpl. by rewrite IH.
Qed.

Lemma rooms_close_all l s : rooms (close_all l s).1 = rooms s.
Proof.
  rewrite close_all_state. revert s.
  induction l as [|x l IH]; intros s; [done|]. simpl. by rewrite IH.
Qed.

Lemma addClient_heap_ext tm r cid ws role s :
  heap_ext s (addClient rt tm r cid ws role s).1.1.
Proof.
  unfold addClient. destruct (heap s !! r) as [rm|] eqn:Hr; [|apply heap_ext_refl].
  cbn [fst]. eapply heap_ext_trans; [|by apply heap_ext_same].
  eapply heap_ext_upd_room; [done|]. by destruct (strict_eq_str role "controller").
Qed.

Lemma on_hello_heap_ext tm ws c role code_ s :
  heap_ext s (on_hello rt tm ws c role code_ s).1.1.
Proof.
  unfold on_hello.
  destruct (negb (ToBoolean role) || negb (ToBoolean code_));
    [by apply heap_ext_same|].
  destruct (rooms_get _ code_) as [r|]; [|by apply heap_ext_same].
  destruct code_; try by apply heap_ext_same.
  destruct (heap _ !! r) as [rm|]; [|by apply heap_ext_same].
  destruct (_ && _); [by apply heap_ext_same|].
  match goal with |- context [addClient rt ?a ?b ?c ?d ?e ?f] =>
    pose proof (addClient_heap_ext a b c d e f) as H;
    destruct (addClient rt a b c d e f) as [[s2 acts] []] end.
  all: cbn [fst] in *; (eapply heap_ext_trans; [|by apply heap_ext_same]).
  all: eapply heap_ext_trans; [|exact H]; by apply heap_ext_same.
Qed.

Lemma step_heap_ext tm e s : heap_ext s (step rt tm e s).1.
Proof.
  destruct e as [rnd addr ua|ws m|ws|ws|ws| |ok|rnd|rc]; simpl.
  - by apply heap_ext_same.
  - unfold on_message. destruct (conns s !! ws) as [c|]; [|apply heap_ext_refl].
    destruct (readyState c); try apply heap_ext_refl; rewrite catch_fst;
      (destruct m as [role code_|payload|st| | |]; try apply heap_ext_refl;
       [apply on_hello_heap_ext
       |destruct (room c) as [r|], (ws_role c) as [[]|], payload as [pl|];
          try apply heap_ext_refl;
          unfold addMetrics; destruct (heap s !! r) as [rm|] eqn:Hr;
          [|apply heap_ext_refl]; repeat case_match; by eapply heap_ext_upd_room
       |destruct (room c) as [r|], (ws_role c) as [[]|], st as [pt|];
          try apply heap_ext_refl;
          destruct (heap s !! r) as [rm|] eqn:Hr;
          [|apply heap_ext_refl]; by eapply heap_ext_upd_room]).
  - destruct (conns s !! ws) as [c|] eqn:Hc;
      [|unfold on_close; rewrite Hc; apply heap_ext_refl].
    destruct (decide (readyState c = CLOSED)) as [Hrs|Hrs];
      [unfold on_close; rewrite Hc, Hrs; apply heap_ext_refl|].
    destruct (room c) as [r|] eqn:Hroom; cycle 1.
    { unfold on_close. rewrite Hc, Hroom.
      destruct (readyState c); by apply heap_ext_same. }
    destruct (heap s !! r) as [rm|] eqn:Hr; cycle 1.
    { unfold on_close, removeClient. rewrite Hc, Hroom, !heap_upd_conn, Hr.
      rewrite heap_upd_conn, Hr. destruct (readyState c); by apply heap_ext_same. }
    rewrite (on_close_eq tm ws c r rm s) by done.
    match goal with |- context [upd_room r (λ _, ?x) ?y] =>
      assert (Hx : heap_ext s (upd_room r (λ _, x) y));
      [eapply heap_ext_trans;
       [apply (heap_ext_same s y); reflexivity
       |eapply heap_ext_upd_room; [by rewrite heap_upd_conn|];
        by destruct (ws_role c) as [[]|]]|]
    end.
    eapply heap_ext_trans; [exact Hx|]. apply heap_ext_same.
    by destruct (room_is_empty _).
  - unfold on_authTimeout. repeat case_match; by apply heap_ext_same.
  - unfold on_heartbeat. repeat case_match; by apply heap_ext_same.
  - unfold on_emptyRoomTimeout. repeat case_match; by apply heap_ext_same.
  - apply heap_ext_refl.
  - intros r rm H. exists rm. split; [|done]. cbn [fst heap post_rooms].
    by apply lookup_app_l_Some.
  - unfold delete_rooms. destruct (rooms s !! rc) as [r|]; [|apply heap_ext_refl].
    destruct (heap s !! r) as [rm|]; [|apply heap_ext_refl].
    match goal with |- context [close_all ?l ?s] =>
      pose proof (heap_close_all l s) as H; destruct (close_all l s) as [s1 a] end.
    by apply heap_ext_same.
Qed.

(** ** Runs *)

Lemma run_cons tm e tr s :
  run rt ((tm, e) :: tr) s
  = ((run rt tr (step rt tm e s).1).1, (step rt tm e s).2 ++ (run rt tr (step rt tm e s).1).2).
Proof.
  cbn [run]. destruct (step rt tm e s) as [s1 a1].
  cbn [fst snd]. by destruct (run rt tr s1).
Qed.

Lemma run_invariant (P : State → Prop) :
  (∀ tm e s, P s → P (step rt tm e s).1) →
  ∀ tr s, P s → P (run rt tr s).1.
Proof.
  intros Hstep tr. induction tr as [|[tm e] tr IH]; intros s Hs; [done|].
  rewrite run_cons. cbn [fst]. apply IH, Hstep, Hs.
Qed.

(** ** The registry *)

Lemma registry_ok_sub s s' :
  (∀ k r, rooms s' !! k = Some r → rooms s !! k = Some r) →
  heap_ext s s' → registry_ok s → registry_ok s'.
Proof.
  intros Hsub Hext Hok k r Hk. destruct (Hok _ _ (Hsub _ _ Hk)) as (rm & Hr & Hc).
  destruct (Hext _ _ Hr) as (rm' & Hr' & Hc'). exists rm'. split; [done|congruence].
Qed.

Lemma step_registry_ok tm e s : registry_ok s → registry_ok (step rt tm e s).1.
Proof.
  intros Hok. pose proof (step_heap_ext tm e s) as Hext.
  pose proof (other_events_frame tm e s) as Hfr.
  destruct e as [rnd addr ua|ws m|ws|ws|ws| |ok|rnd|rc];
    try (lazymatch type of Hfr with _ ∧ _ => idtac end;
         eapply registry_ok_sub; [|exact Hext|exact Hok];
         intros k r; destruct Hfr as [Hfr _]; by rewrite Hfr).
  - eapply registry_ok_sub; [|exact Hext|exact Hok].
    intros k r. by destruct (on_close_frame tm ws s) as [-> _].
  - eapply registry_ok_sub; [|exact Hext|exact Hok].
    intros k r. simpl. unfold on_emptyRoomTimeout.
    repeat case_match; cbn [fst rooms set_rooms set_removalTimers]; try done.
    intros Hd. by apply lookup_delete_Some in Hd as [_ Hd].
  - intros k r. cbn [step post_rooms fst rooms heap].
    destruct (decide (generateRoomCode rnd = k)) as [<-|Hne].
    + rewrite lookup_insert_eq. intros [= <-]. eexists.
      split; [by apply list_lookup_middle|done].
    + rewrite lookup_insert_ne by done. intros Hk.
      destruct (Hok _ _ Hk) as (rm & Hr & Hc). exists rm. split; [|done].
      by apply lookup_app_l_Some.
  - eapply registry_ok_sub; [|exact Hext|exact Hok].
    intros k r. simpl. unfold delete_rooms.
    destruct (rooms s !! rc) as [r0|]; [|done].
    destruct (heap s !! r0) as [rm|]; [|done].
    match goal with |- context [close_all ?l ?s] =>
      pose proof (rooms_close_all l s) as Hrooms;
      destruct (close_all l s) as [s1 a] end.
    cbn [fst rooms set_rooms] in *. rewrite Hrooms.
    intros H. by apply lookup_delete_Some in H as [_ H].
Qed.

Lemma exec_registry_ok tr : registry_ok (exec rt tr).
Proof.
  unfold exec. apply (run_invariant registry_ok); [apply step_registry_ok|].
  intros k r H. cbn [rooms initial] in H. by rewrite lookup_empty in H.
Qed.

Lemma hexDigit_upper n : is_upper_hex (upcase (hexDigit n)) = true.
Proof.
  destruct n as [|p]; [reflexivity|].
  do 4 (try (destruct p as [p|p|]; try reflexivity)).
Qed.

Lemma generateRoomCode_shape rnd :
  String.length (generateRoomCode rnd) = 6
  ∧ Forall (λ a, is_upper_hex a = true)
      (String.list_ascii_of_string (generateRoomCode rnd)).
Proof.
  inv_vec rnd; intros b0 b1 b2. split; [reflexivity|].
  unfold generateRoomCode.
  cbn [vec_to_list toHex toUpperCase String.list_ascii_of_string].
  repeat (constructor; [apply hexDigit_upper|]). constructor.
Qed.

(** C2 (as amended): in any state the server can reach, creating a room
    produces a code of six upper-case hex digits, allocates a fresh empty
    room object and registers it under that code, without looking the
    code up first; all room objects and all registrations under other
    codes stay as they were, the registry still leads from every code to
    a room object carrying that code, and so never lists one room under
    two codes. *)
Theorem post_rooms_registers tr tm rnd :
  let s := exec rt tr in
  let rc := generateRoomCode rnd in
  let res := step rt tm (PostRooms rnd) s in
  (String.length rc = 6
   ∧ Forall (λ a, is_upper_hex a = true) (String.list_ascii_of_string rc))
  ∧ rooms res.1 !! rc = Some (length (heap s))
  ∧ heap s !! length (heap s) = None
  ∧ heap res.1 !! length (heap s) = Some (newRoom tm rc)
  ∧ (∀ r rm, heap s !! r = Some rm → heap res.1 !! r = Some rm)
  ∧ (∀ k, k ≠ rc → rooms res.1 !! k = rooms s !! k)
  ∧ registry_ok res.1
  ∧ (∀ k1 k2 r, rooms res.1 !! k1 = Some r → rooms res.1 !! k2 = Some r → k1 = k2).
Proof.
  intros s rc res.
  assert (Hok : registry_ok res.1).
  { apply step_registry_ok, exec_registry_ok. }
  split; [apply generateRoomCode_shape|].
  split; [apply lookup_insert_eq|].
  split; [by apply lookup_ge_None_2|].
  split; [by apply list_lookup_middle|].
  split; [intros r rm H; by apply lookup_app_l_Some|].
  split; [intros k Hk; by apply lookup_insert_ne|].
  split; [exact Hok|].
  intros k1 k2 r H1 H2.
  destruct (Hok _ _ H1) as (rm1 & Hr1 & <-).
  destruct (Hok _ _ H2) as (rm2 & Hr2 & <-). congruence.
Qed.

(** ** Sessions that never say hello *)








Lemma close_all_conns_ne l ws s :
  ws ∉ l → conns (close_all l s).1 !! ws = conns s !! ws.
Proof.
  rewrite close_all_state. revert s.
  induction l as [|x l IH]; intros s Hl; [done|].
  apply not_elem_of_cons in Hl as [Hx Hl]. simpl. rewrite IH by done.
  cbn [conns upd_conn]. by rewrite list_lookup_alter_ne.
Qed.







(** ** The client cap *)

Lemma within_cap_same_heap s s' :
  heap s' = heap s → within_cap s → within_cap s'.
Proof. intros E H r rm Hr. rewrite E in Hr. exact (H _ _ Hr). Qed.

Lemma within_cap_upd_room r rm1 s :
  within_cap s →
  size (clients rm1) ≤ CONFIG.MAX_CLIENTS_PER_ROOM →
  within_cap (upd_room r (λ _, rm1) s).
Proof.
  intros H H1 r' rm' Hr'. destruct (decide (r = r')) as [->|Hne].
  - unfold upd_room in Hr'. cbn [heap] in Hr'.
    rewrite list_lookup_alter_eq in Hr'.
    destruct (heap s !! r') as [rm0|]; [|done]. by injection Hr' as <-.
  - rewrite heap_upd_room_ne in Hr' by done. exact (H _ _ Hr').
Qed.

Lemma on_hello_within_cap tm ws c role code_ s :
  strict_eq_str role "client" || strict_eq_str role "controller" = true →
  within_cap s → within_cap (on_hello rt tm ws c role code_ s).1.1.
Proof.
  intros Hrole H. unfold on_hello.
  destruct (negb (ToBoolean role) || negb (ToBoolean code_));
    [by eapply within_cap_same_heap|].
  destruct (rooms_get _ code_) as [r|]; [|by eapply within_cap_same_heap].
  destruct code_; try by eapply within_cap_same_heap.
  rewrite heap_upd_conn.
  destruct (heap _ !! r) as [rm|] eqn:Hr; [|by eapply within_cap_same_heap].
  rewrite heap_upd_conn in Hr.
  destruct (strict_eq_str role "client") eqn:Hcl; cbn [andb].
  - destruct (Nat.leb_spec CONFIG.MAX_CLIENTS_PER_ROOM (size (clients rm)))
      as [Hfull|Hfree]; [by eapply within_cap_same_heap|].
    unfold addClient. rewrite !heap_upd_conn, Hr.
    assert (Hctl : strict_eq_str role "controller" = false).
    { destruct role as [| | | |x| |]; try done. simpl in Hcl.
      apply String.eqb_eq in Hcl as ->. done. }
    rewrite Hctl. destruct (ToString rt role); cbn [fst].
    all: eapply within_cap_same_heap; [reflexivity|].
    all: apply within_cap_upd_room; [by eapply within_cap_same_heap|].
    all: cbn [clients set_lastActivity set_clients]; rewrite map_size_insert.
    all: destruct (clients rm !! clientId c); unfold id; lia.
  - cbn [orb] in Hrole. unfold addClient. rewrite !heap_upd_conn, Hr, Hrole.
    destruct (ToString rt role); cbn [fst].
    all: eapply within_cap_same_heap; [reflexivity|].
    all: apply within_cap_upd_room; [by eapply within_cap_same_heap|].
    all: exact (H _ _ Hr).
Qed.

Lemma step_within_cap tm e s :
  roles_valid [(tm, e)] = true →
  within_cap s → within_cap (step rt tm e s).1.
Proof.
  intros Hv H. cbn [roles_valid forallb snd] in Hv. rewrite andb_true_r in Hv.
  destruct e as [rnd addr ua|ws m|ws|ws|ws| |ok|rnd|rc]; simpl.
  - by eapply within_cap_same_heap.
  - unfold on_message. destruct (conns s !! ws) as [c|]; [|done].
    destruct (readyState c); try done; rewrite catch_fst;
      (destruct m as [role code_|payload|st| | |]; cbn [fst]; try done;
       [by apply on_hello_within_cap
       |destruct (room c) as [r|], (ws_role c) as [[]|], payload as [pl|];
          cbn [fst]; try done;
          unfold addMetrics; destruct (heap s !! r) as [rm|] eqn:Hr; [|exact H];
          repeat case_match; cbn [fst];
          (apply within_cap_upd_room; [done|exact (H _ _ Hr)])
       |destruct (room c) as [r|], (ws_role c) as [[]|], st as [pt|];
          cbn [fst]; try done;
          destruct (heap s !! r) as [rm|] eqn:Hr; [|exact H]; cbn [fst];
          (apply within_cap_upd_room; [done|exact (H _ _ Hr)])]).
  - destruct (conns s !! ws) as [c|] eqn:Hc;
      [|unfold on_close; by rewrite Hc].
    destruct (decide (readyState c = CLOSED)) as [Hrs|Hrs];
      [unfold on_close; by rewrite Hc, Hrs|].
    destruct (room c) as [r|] eqn:Hroom; cycle 1.
    { unfold on_close. rewrite Hc, Hroom.
      destruct (readyState c); by eapply within_cap_same_heap. }
    destruct (heap s !! r) as [rm|] eqn:Hr; cycle 1.
    { unfold on_close, removeClient. rewrite Hc, Hroom, !heap_upd_conn, Hr.
      rewrite heap_upd_conn, Hr.
      destruct (readyState c); by eapply within_cap_same_heap. }
    rewrite (on_close_eq tm ws c r rm s) by done.
    match goal with |- context [upd_room r (λ _, ?x) ?y] =>
      assert (Hx : within_cap (upd_room r (λ _, x) y)) end.
    { apply within_cap_upd_room; [by eapply within_cap_same_heap|].
      pose proof (H _ _ Hr) as Hsz.
      destruct (ws_role c) as [[]|];
        cbn [clients set_lastActivity set_controller set_clients]; try done;
        rewrite map_size_delete; destruct (clients rm !! clientId c);
        unfold id; lia. }
    destruct (room_is_empty _); by eapply within_cap_same_heap.
  - unfold on_authTimeout. repeat case_match; by eapply within_cap_same_heap.
  - unfold on_heartbeat. repeat case_match; by eapply within_cap_same_heap.
  - unfold on_emptyRoomTimeout. repeat case_match; by eapply within_cap_same_heap.
  - done.
  - intros r rm Hr. cbn [fst heap post_rooms] in Hr.
    apply lookup_app_Some in Hr as [Hr|[_ Hr]]; [exact (H _ _ Hr)|].
    apply list_lookup_singleton_Some in Hr as [_ <-].
    cbn [clients newRoom]. rewrite map_size_empty. unfold CONFIG.MAX_CLIENTS_PER_ROOM. lia.
  - unfold delete_rooms. destruct (rooms s !! rc) as [r|]; [|done].
    destruct (heap s !! r) as [rm|]; [|done].
    match goal with |- context [close_all ?l ?s] =>
      pose proof (heap_close_all l s) as Hh; destruct (close_all l s) as [s1 a] end.
    by eapply within_cap_same_heap.
Qed.

(** X1: in every run whose hellos all carry role [client] or
    [controller], no room ever holds more than [MAX_CLIENTS_PER_ROOM]
    clients. *)
Theorem cap_holds_for_valid_roles tr :
  roles_valid tr = true → within_cap (exec rt tr).
Proof.
  unfold exec.
  assert (H : ∀ s, roles_valid tr = true → within_cap s → within_cap (run rt tr s).1).
  { induction tr as [|[tm e] tr IH]; intros s Hv Hs; [done|].
    cbn [roles_valid forallb] in Hv. apply andb_true_iff in Hv as [He Hv].
    rewrite run_cons. cbn [fst]. apply IH; [done|].
    apply step_within_cap; [|done].
    cbn [roles_valid forallb]. by rewrite He. }
  intros Hv. apply H; [done|].
  intros r rm Hr. cbn [heap initial] in Hr. by rewrite lookup_nil in Hr.
Qed.

(** ** The buffer under the default maximum *)

Lemma buffers_same_heap s s' :
  heap s' = heap s → buffers_within_default s → buffers_within_default s'.
Proof. intros E H r rm Hr. rewrite E in Hr. exact (H _ _ Hr). Qed.

Lemma buffers_upd_room r rm1 s :
  buffers_within_default s →
  (maxMetricsHistory (settings rm1) = JInt 1000 ∧ length (metrics rm1) ≤ 1000) →
  buffers_within_default (upd_room r (λ _, rm1) s).
Proof.
  intros H H1 r' rm' Hr'. destruct (decide (r = r')) as [->|Hne].
  - unfold upd_room in Hr'. cbn [heap] in Hr'.
    rewrite list_lookup_alter_eq in Hr'.
    destruct (heap s !! r') as [rm0|]; [|done]. by injection Hr' as <-.
  - rewrite heap_upd_room_ne in Hr' by done. exact (H _ _ Hr').
Qed.

Lemma trim_default (buf : list MetricEntry) :
  ∃ kept, trim rt (JInt 1000) buf = Some kept ∧ length kept ≤ 1000.
Proof.
  eexists. split; [by apply (trim_exact _ (inject_Z 1000))|].
  rewrite length_drop, Qfloor_Z. lia.
Qed.

Lemma on_hello_buffers tm ws c role code_ s :
  buffers_within_default s →
  buffers_within_default (on_hello rt tm ws c role code_ s).1.1.
Proof.
  intros H. unfold on_hello.
  destruct (negb (ToBoolean role) || negb (ToBoolean code_));
    [by eapply buffers_same_heap|].
  destruct (rooms_get _ code_) as [r|]; [|by eapply buffers_same_heap].
  destruct code_; try by eapply buffers_same_heap.
  rewrite heap_upd_conn.
  destruct (heap _ !! r) as [rm|] eqn:Hr; [|by eapply buffers_same_heap].
  rewrite heap_upd_conn in Hr.
  destruct (_ && _); [by eapply buffers_same_heap|].
  unfold addClient. rewrite !heap_upd_conn, Hr.
  destruct (ToString rt role); cbn [fst].
  all: eapply buffers_same_heap; [reflexivity|].
  all: apply buffers_upd_room; [by eapply buffers_same_heap|].
  all: pose proof (H _ _ Hr); by destruct (strict_eq_str role "controller").
Qed.

Lemma step_buffers tm e s :
  maximum_untouched [(tm, e)] = true →
  buffers_within_default s → buffers_within_default (step rt tm e s).1.
Proof.
  intros Hv H. cbn [maximum_untouched forallb snd] in Hv.
  rewrite andb_true_r in Hv.
  destruct e as [rnd addr ua|ws m|ws|ws|ws| |ok|rnd|rc]; simpl.
  - by eapply buffers_same_heap.
  - unfold on_message. destruct (conns s !! ws) as [c|]; [|done].
    destruct (readyState c); try done; rewrite catch_fst;
      (destruct m as [role code_|payload|st| | |]; cbn [fst]; try done;
       [by apply on_hello_buffers
       |destruct (room c) as [r|], (ws_role c) as [[]|], payload as [pl|];
          cbn [fst]; try done;
          unfold addMetrics; destruct (heap s !! r) as [rm|] eqn:Hr; [|exact H];
          destruct (H _ _ Hr) as [Hmax Hlen]; rewrite Hmax;
          match goal with |- context [trim rt _ ?b] =>
            destruct (trim_default b) as (kept & -> & Hkept) end;
          destruct (checkAlerts _ _ _ _ _); cbn [fst];
          (apply buffers_upd_room; [done|];
           cbn [settings metrics set_lastActivity set_metrics]; by split)
       |destruct (room c) as [r|], (ws_role c) as [[]|], st as [pt|];
          cbn [fst]; try done;
          destruct (heap s !! r) as [rm|] eqn:Hr; [|exact H]; cbn [fst];
          (apply buffers_upd_room; [done|];
           destruct (H _ _ Hr) as [Hmax Hlen];
           cbn [settings metrics set_settings merge_settings maxMetricsHistory];
           destruct (p_maxMetricsHistory pt); done)]).
  - destruct (conns s !! ws) as [c|] eqn:Hc;
      [|unfold on_close; by rewrite Hc].
    destruct (decide (readyState c = CLOSED)) as [Hrs|Hrs];
      [unfold on_close; by rewrite Hc, Hrs|].
    destruct (room c) as [r|] eqn:Hroom; cycle 1.
    { unfold on_close. rewrite Hc, Hroom.
      destruct (readyState c); by eapply buffers_same_heap. }
    destruct (heap s !! r) as [rm|] eqn:Hr; cycle 1.
    { unfold on_close, removeClient. rewrite Hc, Hroom, !heap_upd_conn, Hr.
      rewrite heap_upd_conn, Hr.
      destruct (readyState c); by eapply buffers_same_heap. }
    rewrite (on_close_eq tm ws c r rm s) by done.
    match goal with |- context [upd_room r (λ _, ?x) ?y] =>
      assert (Hx : buffers_within_default (upd_room r (λ _, x) y)) end.
    { apply buffers_upd_room; [by eapply buffers_same_heap|].
      pose proof (H _ _ Hr). by destruct (ws_role c) as [[]|]. }
    destruct (room_is_empty _); by eapply buffers_same_heap.
  - unfold on_authTimeout. repeat case_match; by eapply buffers_same_heap.
  - unfold on_heartbeat. repeat case_match; by eapply buffers_same_heap.
  - unfold on_emptyRoomTimeout. repeat case_match; by eapply buffers_same_heap.
  - done.
  - intros r rm Hr. cbn [fst heap post_rooms] in Hr.
    apply lookup_app_Some in Hr as [Hr|[_ Hr]]; [exact (H _ _ Hr)|].
    apply list_lookup_singleton_Some in Hr as [_ <-].
    cbn [settings metrics newRoom maxMetricsHistory length]. split; [done|lia].
  - unfold delete_rooms. destruct (rooms s !! rc) as [r|]; [|done].
    destruct (heap s !! r) as [rm|]; [|done].
    match goal with |- context [close_all ?l ?s] =>
      pose proof (heap_close_all l s) as Hh; destruct (close_all l s) as [s1 a] end.
    by eapply buffers_same_heap.
Qed.

(** X3: in every run in which no settings update carries a
    [maxMetricsHistory] key, every room keeps the default maximum of 1000
    and its buffer never holds more than 1000 records. *)
Theorem buffer_within_default_maximum tr :
  maximum_untouched tr = true → buffers_within_default (exec rt tr).
Proof.
  unfold exec.
  assert (H : ∀ s, maximum_untouched tr = true →
                   buffers_within_default s →
                   buffers_within_default (run rt tr s).1).
  { induction tr as [|[tm e] tr IH]; intros s Hv Hs; [done|].
    cbn [maximum_untouched forallb] in Hv. apply andb_true_iff in Hv as [He Hv].
    rewrite run_cons. cbn [fst]. apply IH; [done|].
    apply step_buffers; [|done].
    cbn [maximum_untouched forallb]. by rewrite He. }
  intros Hv. apply H; [done|].
  intros r rm Hr. cbn [heap initial] in Hr. by rewrite lookup_nil in Hr.
Qed.

End Properties.

(** * The remaining functions *)

(** ** Hex codes *)

Lemma hexValue_hexDigit n : (n < 16)%N → hexValue (hexDigit n) = n.
Proof.
  intros H. destruct n as [|p]; [reflexivity|].
  do 4 (try (destruct p as [p|p|]; try reflexivity)); lia.
Qed.

Lemma hexValue_upcase_hexDigit n :
  (n < 16)%N → hexValue (upcase (hexDigit n)) = n.
Proof.
  intros H. destruct n as [|p]; [reflexivity|].
  do 4 (try (destruct p as [p|p|]; try reflexivity)); lia.
Qed.

Lemma hexDigit_lower n : is_lower_hex (hexDigit n) = true.
Proof.
  destruct n as [|p]; [reflexivity|].
  do 4 (try (destruct p as [p|p|]; try reflexivity)).
Qed.

Lemma byte_of_nibbles b :
  Byte.of_N (16 * (Byte.to_N b / 16) + Byte.to_N b mod 16) = Some b.
Proof.
  rewrite <- N.div_mod by lia. apply Byte.of_to_N.
Qed.

Lemma byte_nibbles_small b :
  (Byte.to_N b / 16 < 16)%N ∧ (Byte.to_N b mod 16 < 16)%N.
Proof.
  pose proof (Byte.to_N_bounded b). split.
  - apply N.Div0.div_lt_upper_bound. lia.
  - apply N.mod_lt. lia.
Qed.

Lemma fromHex_toHex bs : fromHex (toHex bs) = bs.
Proof.
  induction bs as [|b bs IH]; [reflexivity|].
  destruct (byte_nibbles_small b) as [Hh Hl].
  cbn [toHex fromHex]. rewrite !hexValue_hexDigit by done.
  by rewrite byte_of_nibbles, IH.
Qed.

Lemma fromHex_toUpperCase_toHex bs : fromHex (toUpperCase (toHex bs)) = bs.
Proof.
  induction bs as [|b bs IH]; [reflexivity|].
  destruct (byte_nibbles_small b) as [Hh Hl].
  cbn [toHex toUpperCase fromHex]. rewrite !hexValue_upcase_hexDigit by done.
  by rewrite byte_of_nibbles, IH.
Qed.

Lemma toHex_length bs : String.length (toHex bs) = 2 * length bs.
Proof. induction bs as [|b bs IH]; [done|]. cbn [toHex String.length length]. lia. Qed.

Lemma toHex_lower bs :
  Forall (λ a, is_lower_hex a = true) (String.list_ascii_of_string (toHex bs)).
Proof.
  induction bs as [|b bs IH]; [constructor|].
  cbn [toHex String.list_ascii_of_string].
  repeat (constructor; [apply hexDigit_lower|]). exact IH.
Qed.

(** X4: a room code determines the three random bytes it was made from
    (they are read back by [fromHex]), so two creations get the same
    code only when the generator returned the same bytes. *)
Theorem generateRoomCode_injective rnd1 rnd2 :
  fromHex (generateRoomCode rnd1) = vec_to_list rnd1
  ∧ (generateRoomCode rnd1 = generateRoomCode rnd2 ↔ rnd1 = rnd2).
Proof.
  unfold generateRoomCode. split; [apply fromHex_toUpperCase_toHex|].
  split; [|by intros ->].
  intros H. apply vec_to_list_inj2.
  by rewrite <- (fromHex_toUpperCase_toHex (vec_to_list rnd1)), H,
    fromHex_toUpperCase_toHex.
Qed.

(** X5: a client id is sixteen lower-case hex digits, and it determines
    the eight random bytes it was made from, so two connections get the
    same id only when the generator returned the same bytes. *)
Theorem generateClientId_shape rnd1 rnd2 :
  String.length (generateClientId rnd1) = 16
  ∧ Forall (λ a, is_lower_hex a = true)
      (String.list_ascii_of_string (generateClientId rnd1))
  ∧ fromHex (generateClientId rnd1) = vec_to_list rnd1
  ∧ (generateClientId rnd1 = generateClientId rnd2 ↔ rnd1 = rnd2).
Proof.
  unfold generateClientId.
  split; [by rewrite toHex_length, length_vec_to_list|].
  split; [apply toHex_lower|]. split; [apply fromHex_toHex|].
  split; [|by intros ->].
  intros H. apply vec_to_list_inj2.
  by rewrite <- (fromHex_toHex (vec_to_list rnd1)), H, fromHex_toHex.
Qed.

(** ** sanitizeInput *)

Lemma strip_markup_clean s :
  Forall (λ a, is_markup a = false) (String.list_ascii_of_string (strip_markup s)).
Proof.
  induction s as [|a s IH]; [constructor|]. cbn [strip_markup].
  destruct (is_markup a) eqn:E; [done|].
  cbn [String.list_ascii_of_string]. by constructor.
Qed.

Lemma strip_markup_id s :
  Forall (λ a, is_markup a = false) (String.list_ascii_of_string s) →
  strip_markup s = s.
Proof.
  induction s as [|a s IH]; [done|]. cbn [String.list_ascii_of_string].
  intros H. apply Forall_cons in H as [Ha Hs]. cbn [strip_markup].
  by rewrite Ha, IH.
Qed.

Lemma substring_prefix_length n s : String.length (String.substring 0 n s) ≤ n.
Proof.
  revert s. induction n as [|n IH]; intros [|a s]; cbn; try lia.
  specialize (IH s). lia.
Qed.

Lemma substring_prefix_id n s :
  String.length s ≤ n → String.substring 0 n s = s.
Proof.
  revert s. induction n as [|n IH]; intros [|a s]; cbn; try done; [lia|].
  intros H. rewrite IH by lia. done.
Qed.

Lemma substring_prefix_Forall (P : ascii → Prop) n s :
  Forall P (String.list_ascii_of_string s) →
  Forall P (String.list_ascii_of_string (String.substring 0 n s)).
Proof.
  revert s. induction n as [|n IH]; intros [|a s]; cbn; try done.
  intros H. apply Forall_cons in H as [Ha Hs]. constructor; [done|by apply IH].
Qed.

(** X6: whatever it is given, [sanitizeInput] returns at most 100
    characters, none of them an angle bracket, a quote or an ampersand;
    a value that is not a string gives the empty string; a string that is
    already clean and short enough comes back unchanged; and sanitising
    twice is the same as once. *)
Theorem sanitizeInput_spec input :
  String.length (sanitizeInput input) ≤ 100
  ∧ Forall (λ a, is_markup a = false)
      (String.list_ascii_of_string (sanitizeInput input))
  ∧ (if input is JStr _ then True else sanitizeInput input = "")
  ∧ (∀ s, input = JStr s → String.length s ≤ 100 →
          Forall (λ a, is_markup a = false) (String.list_ascii_of_string s) →
          sanitizeInput input = s)
  ∧ sanitizeInput (JStr (sanitizeInput input)) = sanitizeInput input.
Proof.
  assert (Hlen : String.length (sanitizeInput input) ≤ 100).
  { destruct input; cbn [sanitizeInput String.length]; try lia.
    apply substring_prefix_length. }
  assert (Hclean : Forall (λ a, is_markup a = false)
                     (String.list_ascii_of_string (sanitizeInput input))).
  { destruct input; cbn [sanitizeInput String.list_ascii_of_string];
      try constructor.
    apply substring_prefix_Forall, strip_markup_clean. }
  split; [done|]. split; [done|]. split; [by destruct input|]. split.
  - intros s -> Hs Hc. cbn [sanitizeInput].
    by rewrite strip_markup_id, substring_prefix_id.
  - cbn [sanitizeInput]. by rewrite strip_markup_id, substring_prefix_id.
Qed.

(** ** getLocalIp *)

Lemma firstExternal_app l1 l2 :
  firstExternal (l1 ++ l2)
  = match firstExternal l1 with Some a => Some a | None => firstExternal l2 end.
Proof.
  induction l1 as [|n l1 IH]; [done|]. cbn [app firstExternal].
  by destruct (_ && _).
Qed.

Lemma getLocalIp_concat nets :
  getLocalIp nets = default "localhost" (firstExternal (concat nets.*2)).
Proof.
  induction nets as [|[name entries] nets IH]; [done|].
  cbn [getLocalIp fmap list_fmap concat snd]. rewrite firstExternal_app.
  by destruct (firstExternal entries).
Qed.

Lemma firstExternal_none l :
  (∀ net, net ∈ l → family net = "IPv4" → internal net = true) →
  firstExternal l = None.
Proof.
  induction l as [|n l IH]; [done|]. intros H. cbn [firstExternal].
  destruct (String.eqb_spec (family n) "IPv4") as [E|E]; cbn [andb].
  - rewrite (H n) by (done || by left). cbn [negb].
    apply IH. intros net Hin. apply H. by right.
  - apply IH. intros net Hin. apply H. by right.
Qed.

(** X7: [getLocalIp] goes through the entries of all interfaces in
    order and returns the address of the first one that is IPv4 and not
    internal; when there is none it returns "localhost". *)
Theorem getLocalIp_first_external nets :
  let entries := concat nets.*2 in
  ((∀ net, net ∈ entries → family net = "IPv4" → internal net = true) →
   getLocalIp nets = "localhost")
  ∧ (∀ before net after,
       entries = before ++ net :: after →
       (∀ n, n ∈ before → family n = "IPv4" → internal n = true) →
       family net = "IPv4" → internal net = false →
       getLocalIp nets = address net).
Proof.
  intros entries. split.
  - intros H. rewrite getLocalIp_concat. fold entries.
    by rewrite firstExternal_none.
  - intros before net after E Hb Hf Hi. rewrite getLocalIp_concat. fold entries.
    rewrite E, firstExternal_app, (firstExternal_none before) by done.
    cbn [firstExternal]. by rewrite Hf, Hi.
Qed.

(** ** broadcastToClients *)

(** X8: a broadcast makes exactly one call for each entry of the room's
    client table whose socket is open and is not the excluded one: a
    send of the message to that socket, in the order of the table; it
    makes no other call.  When no socket is stored under two ids (as in
    every state the server reaches), no socket is sent the message
    twice. *)
Theorem broadcastToClients_targets s rm m excludeClient :
  broadcastToClients s rm m excludeClient
  = (λ kv : string * nat, WsSend kv.2 m)
      <$> filter (λ kv : string * nat,
                    excludeClient ≠ Some kv.2 ∧ is_open s kv.2 = true)
            (map_to_list (clients rm))
  ∧ (∀ a, a ∈ broadcastToClients s rm m excludeClient
          ↔ ∃ k ws, clients rm !! k = Some ws ∧ excludeClient ≠ Some ws
                    ∧ is_open s ws = true ∧ a = WsSend ws m)
  ∧ length (broadcastToClients s rm m excludeClient) ≤ size (clients rm)
  ∧ ((∀ k1 k2 ws, clients rm !! k1 = Some ws → clients rm !! k2 = Some ws →
                  k1 = k2) →
     NoDup (broadcastToClients s rm m excludeClient)).
Proof.
  assert (Heq : broadcastToClients s rm m excludeClient
    = (λ kv : string * nat, WsSend kv.2 m)
        <$> filter (λ kv : string * nat,
                      excludeClient ≠ Some kv.2 ∧ is_open s kv.2 = true)
              (map_to_list (clients rm))).
  { unfold broadcastToClients, sendToClient.
    induction (map_to_list (clients rm)) as [|[k ws] l IH]; [done|].
    cbn [flat_map snd]. rewrite filter_cons, IH. cbn [snd].
    destruct (bool_decide_reflect (excludeClient = Some ws)) as [He|He];
      cbn [negb andb].
    - rewrite decide_False by (by intros [? _]). done.
    - destruct (is_open s ws) eqn:Ho.
      + by rewrite decide_True by done.
      + rewrite decide_False by (by intros [_ ?]). done. }
  split; [exact Heq|]. split; [|split].
  - intros a. rewrite Heq, list_elem_of_fmap. split.
    + intros ([k ws] & -> & Hin). apply list_elem_of_filter in Hin as [[Hne Ho] Hin].
      apply elem_of_map_to_list in Hin. by exists k, ws.
    + intros (k & ws & Hk & Hne & Ho & ->). exists (k, ws). split; [done|].
      apply list_elem_of_filter. split; [done|]. by apply elem_of_map_to_list.
  - rewrite Heq, length_fmap, <- length_map_to_list. apply length_filter.
  - intros Hinj. rewrite Heq. apply NoDup_fmap_2_strong.
    + intros [k1 ws1] [k2 ws2] H1 H2 [= <-].
      apply list_elem_of_filter in H1 as [_ H1], H2 as [_ H2].
      apply elem_of_map_to_list in H1, H2. by rewrite (Hinj k1 k2 ws1).
    + apply NoDup_filter, NoDup_map_to_list.
Qed.

(** ** DELETE /api/rooms/:roomCode *)

Lemma close_all_actions l s :
  (close_all l s).2 = (λ ws, WsClose ws None) <$> l.
Proof.
  unfold close_all.
  assert (H : ∀ l s a,
    (foldl (λ '(s, a) ws, let '(s', a') := ws_close ws None s in (s', a ++ a'))
       (s, a) l).2 = a ++ ((λ ws, WsClose ws None) <$> l)).
  { clear. induction l as [|x l IH]; intros s a; [by rewrite app_nil_r|].
    cbn [foldl fmap list_fmap]. unfold ws_close at 2. rewrite IH.
    by rewrite <- app_assoc. }
  by rewrite H.
Qed.

Lemma is_open_ws_close ws reason s x :
  is_open (ws_close ws reason s).1 x = (if decide (x = ws) then false else is_open s x).
Proof.
  unfold ws_close, is_open. cbn [fst conns upd_conn].
  destruct (decide (x = ws)) as [->|Hne].
  - rewrite list_lookup_alter_eq. destruct (conns s !! ws) as [c|]; [|done].
    cbn. by destruct (readyState c) eqn:E; cbn; rewrite ?E.
  - by rewrite list_lookup_alter_ne.
Qed.

Lemma is_open_close_all l s x :
  is_open (close_all l s).1 x = (if decide (x ∈ l) then false else is_open s x).
Proof.
  rewrite close_all_state. revert s.
  induction l as [|y l IH]; intros s; [done|]. cbn [foldl]. rewrite IH.
  rewrite is_open_ws_close.
  destruct (decide (x ∈ l)) as [Hin|Hnin].
  - rewrite decide_True by (by right). done.
  - destruct (decide (x = y)) as [->|Hne].
    + rewrite decide_True by (by left). done.
    + rewrite decide_False; [done|]. intros [?|?]%elem_of_cons; done.
Qed.

(** X9: deleting a code that is not registered changes nothing and makes
    no call.  Deleting a registered code calls close on the room's
    controller and on every client of the room and on no other socket,
    then deletes the stored session; afterwards none of these sockets
    is open, the code is no longer registered, registrations under other
    codes and all room objects are as before, and deleting the same
    code again changes nothing. *)
Theorem delete_rooms_effect rt tm rc s :
  (rooms s !! rc = None → step rt tm (DeleteRooms rc) s = (s, []))
  ∧ (∀ r rm,
       rooms s !! rc = Some r →
       heap s !! r = Some rm →
       let res := step rt tm (DeleteRooms rc) s in
       let members := option_list (controller rm) ++ (map_to_list (clients rm)).*2 in
       res.2 = ((λ ws, WsClose ws None) <$> members) ++ [DeleteSession rc]
       ∧ (∀ ws, ws ∈ members ↔ controller rm = Some ws ∨ ∃ k, clients rm !! k = Some ws)
       ∧ (∀ ws, ws ∈ members → is_open res.1 ws = false)
       ∧ (∀ ws, ws ∉ members → conns res.1 !! ws = conns s !! ws)
       ∧ rooms res.1 = delete rc (rooms s)
       ∧ heap res.1 = heap s
       ∧ step rt tm (DeleteRooms rc) res.1 = (res.1, [])).
Proof.
  split.
  - intros H. cbn [step]. unfold delete_rooms. by rewrite H.
  - intros r rm Hreg Hr res members. subst res. cbn [step]. unfold delete_rooms.
    rewrite Hreg, Hr. fold members.
    pose proof (close_all_actions members s) as Hact.
    pose proof (is_open_close_all members s) as Hopen.
    pose proof (heap_close_all members s) as Hheap.
    pose proof (rooms_close_all members s) as Hrooms.
    pose proof (λ ws, close_all_conns_ne members ws s) as Hconns.
    destruct (close_all members s) as [s1 a]. cbn [fst snd] in *.
    split; [by rewrite Hact|]. split.
    { intros ws. unfold members. rewrite elem_of_app. split.
      - intros [Hin|Hin].
        + left. destruct (controller rm); cbn in Hin.
          * by apply list_elem_of_singleton in Hin as ->.
          * by apply not_elem_of_nil in Hin.
        + right. apply list_elem_of_fmap in Hin as ([k v] & -> & Hkv).
          apply elem_of_map_to_list in Hkv. by exists k.
      - intros [Hc|(k & Hk)].
        + left. rewrite Hc. cbn. by apply list_elem_of_singleton.
        + right. apply list_elem_of_fmap. exists (k, ws). split; [done|].
          by apply elem_of_map_to_list. }
    split.
    { intros ws Hin. change (is_open (set_rooms (delete rc (rooms s1)) s1) ws)
        with (is_open s1 ws). rewrite Hopen. by rewrite decide_True. }
    split; [intros ws Hin; by apply Hconns|].
    split; [cbn [rooms set_rooms]; by rewrite Hrooms|].
    split; [done|].
    cbn [rooms set_rooms]. by rewrite lookup_delete_eq.
Qed.

(** ** SIGINT *)

Lemma shutdown_fold l s a0 :
  let res :=
    foldl (λ '(s, a) ws,
             let '(s', a') := ws_close ws (Some "Server shutdown") s in
             (s', a ++ a'))
      (s, a0) l in
  res.2 = a0 ++ ((λ ws, WsClose ws (Some "Server shutdown")) <$> l)
  ∧ rooms res.1 = rooms s ∧ heap res.1 = heap s
  ∧ clientSessions res.1 = clientSessions s
  ∧ ∀ x, is_open res.1 x = (if decide (x ∈ l) then false else is_open s x).
Proof.
  revert s a0. induction l as [|y l IH]; intros s a0.
  - cbn. by rewrite app_nil_r.
  - cbn [foldl].
    pose proof (is_open_ws_close y (Some "Server shutdown") s) as Hy.
    destruct (ws_close y (Some "Server shutdown") s) as [s' a'] eqn:E.
    unfold ws_close in E. injection E as <- <-.
    destruct (IH (upd_conn y
                    (λ c, if readyState c is OPEN then set_readyState CLOSING c else c) s)
                 (a0 ++ [WsClose y (Some "Server shutdown")]))
      as (Ha & Hr & Hh & Hc & Ho).
    cbv zeta. split; [by rewrite Ha, <- app_assoc|].
    split; [done|]. split; [done|]. split; [done|].
    intros x. rewrite Ho. cbn [fst] in Hy. rewrite Hy.
    destruct (decide (x ∈ l)) as [Hin|Hnin].
    + rewrite decide_True by (by right). done.
    + destruct (decide (x = y)) as [->|Hne].
      * rewrite decide_True by (by left). done.
      * rewrite decide_False; [done|]. intros [?|?]%elem_of_cons; done.
Qed.

Lemma elem_of_wss_clients s ws :
  ws ∈ wss_clients s ↔ is_connected s ws = true.
Proof.
  unfold wss_clients. rewrite list_elem_of_filter, elem_of_seq. split; [by intros [? _]|].
  intros H. split; [done|]. unfold is_connected in H.
  destruct (conns s !! ws) eqn:E; [|done].
  apply lookup_lt_Some in E. lia.
Qed.

(** X10: on SIGINT the server calls close, with the shutdown reason,
    once on every connected socket in the order they connected and on
    no other, and schedules the forced exit 5 s ahead;
    afterwards no socket is open, while the registry, the room objects
    and the session table are left as they were. *)
Theorem sigint_closes_every_socket s :
  let res := on_sigint s in
  res.2 = ((λ ws, WsClose ws (Some "Server shutdown")) <$> wss_clients s)
          ++ [SetTimeout 5000]
  ∧ NoDup (wss_clients s)
  ∧ (∀ ws, ws ∈ wss_clients s ↔ is_connected s ws = true)
  ∧ (∀ ws, is_open res.1 ws = false)
  ∧ rooms res.1 = rooms s ∧ heap res.1 = heap s
  ∧ clientSessions res.1 = clientSessions s.
Proof.
  intros res. subst res. unfold on_sigint.
  pose proof (shutdown_fold (wss_clients s) s []) as H. cbv zeta in H.
  destruct (foldl _ _ _) as [s1 a]. cbn [fst snd] in *.
  destruct H as (Ha & Hr & Hh & Hc & Ho).
  split; [by rewrite Ha|].
  split; [apply NoDup_filter, NoDup_seq|].
  split; [apply elem_of_wss_clients|].
  split; [|done].
  intros ws. rewrite Ho. destruct (decide (ws ∈ wss_clients s)) as [|Hn]; [done|].
  rewrite elem_of_wss_clients in Hn. unfold is_connected in Hn. unfold is_open.
  destruct (conns s !! ws) as [c|]; [|done]. by destruct (readyState c).
Qed.

(** ** What an event does to a room object *)

Section RoomChange.

Variable rt : Runtime.

Lemma step_room tm e s r rm :
  heap s !! r = Some rm →
  ∃ rm', heap (step rt tm e s).1 !! r = Some rm' ∧ room_change rt tm s r rm e rm'.
Proof.
  intros Hr.
  assert (Hsame : ∀ s', heap s' = heap s →
            ∃ rm', heap s' !! r = Some rm' ∧ room_change rt tm s r rm e rm').
  { intros s' E. exists rm. rewrite E. split; [done|constructor]. }
  assert (Hupd : ∀ r0 rm0 rm1 s0 s',
            heap s0 = heap s → heap s0 !! r0 = Some rm0 →
            heap s' = heap (upd_room r0 (λ _, rm1) s0) →
            (r0 = r → rm0 = rm → room_change rt tm s r rm e rm1) →
            ∃ rm', heap s' !! r = Some rm' ∧ room_change rt tm s r rm e rm').
  { intros r0 rm0 rm1 s0 s' E0 H0 E' Hch. rewrite E'.
    destruct (decide (r0 = r)) as [->|Hne].
    - exists rm1. split; [by eapply heap_upd_room_eq|].
      apply Hch; [done|]. rewrite E0 in H0. congruence.
    - exists rm. rewrite heap_upd_room_ne by done. rewrite E0.
      split; [done|constructor]. }
  destruct e as [rnd addr ua|ws m|ws|ws|ws| |ok|rnd|rc]; cbn [step].
  - by apply Hsame.
  - unfold on_message. destruct (conns s !! ws) as [c|] eqn:Hc; [|by apply Hsame].
    destruct (decide (readyState c = CLOSED)) as [Hrs|Hrs];
      [rewrite Hrs; by apply Hsame|].
    assert (Hgo : ∀ X : State * list Action,
              (if readyState c is CLOSED then (s, []) else X) = X)
      by (intros X; by destruct (readyState c)).
    rewrite Hgo. clear Hgo. rewrite catch_fst.
    destruct m as [role code_|payload|st| | |]; try by apply Hsame.
    + unfold on_hello.
      destruct (negb (ToBoolean role) || negb (ToBoolean code_));
        [by apply Hsame|].
      destruct (rooms_get _ code_) as [r0|] eqn:Hget; [|by apply Hsame].
      destruct code_ as [| | | |k| |]; try by apply Hsame.
      rewrite heap_upd_conn.
      destruct (heap _ !! r0) as [rm0|] eqn:Hr0; [|by apply Hsame].
      rewrite heap_upd_conn in Hr0.
      destruct (_ && _); [by apply Hsame|].
      unfold addClient. rewrite !heap_upd_conn, Hr0.
      destruct (ToString rt role); cbn [fst];
        (eapply (Hupd r0 rm0 _ s); [done|done|reflexivity|]);
        intros -> ->; by eapply change_join.
    + destruct (room c) as [r0|] eqn:Hroom; [|by apply Hsame].
      destruct (ws_role c) as [[]|] eqn:Hrole; try by apply Hsame.
      destruct payload as [p|]; [|by apply Hsame].
      unfold addMetrics. destruct (heap s !! r0) as [rm0|] eqn:Hr0; [|by apply Hsame].
      fold (spread_payload c p).
      destruct (trim rt _ _) as [buf|] eqn:Hb;
        [destruct (checkAlerts _ _ _ _ _)|]; cbn [fst];
        (eapply (Hupd r0 rm0 _ s); [done|done|reflexivity|]);
        intros -> ->; by econstructor.
    + destruct (room c) as [r0|] eqn:Hroom; [|by apply Hsame].
      destruct (ws_role c) as [[]|] eqn:Hrole; try by apply Hsame.
      destruct st as [p|]; [|by apply Hsame].
      destruct (heap s !! r0) as [rm0|] eqn:Hr0; [|by apply Hsame].
      cbn [fst]. eapply (Hupd r0 rm0 _ s); [done|done|reflexivity|].
      intros -> ->. by eapply change_settings.
  - destruct (conns s !! ws) as [c|] eqn:Hc;
      [|unfold on_close; rewrite Hc; by apply Hsame].
    destruct (decide (readyState c = CLOSED)) as [Hrs|Hrs];
      [unfold on_close; rewrite Hc, Hrs; by apply Hsame|].
    destruct (room c) as [r0|] eqn:Hroom; cycle 1.
    { unfold on_close. rewrite Hc, Hroom. destruct (readyState c); by apply Hsame. }
    destruct (heap s !! r0) as [rm0|] eqn:Hr0; cycle 1.
    { unfold on_close, removeClient. rewrite Hc, Hroom, !heap_upd_conn, Hr0.
      rewrite heap_upd_conn, Hr0. destruct (readyState c); by apply Hsame. }
    rewrite (on_close_eq tm ws c r0 rm0 s) by done. cbn [fst].
    match goal with |- context [upd_room r0 (λ _, ?x) ?y] =>
      eapply (Hupd r0 rm0 x y); [reflexivity|by rewrite heap_upd_conn| |] end.
    + by destruct (room_is_empty _).
    + intros -> ->. by eapply change_leave.
  - unfold on_authTimeout. repeat case_match; by apply Hsame.
  - unfold on_heartbeat. repeat case_match; by apply Hsame.
  - unfold on_emptyRoomTimeout. repeat case_match; by apply Hsame.
  - by apply Hsame.
  - exists rm. split; [|constructor]. cbn [fst heap post_rooms].
    by apply lookup_app_l_Some.
  - unfold delete_rooms. destruct (rooms s !! rc) as [r0|]; [|by apply Hsame].
    destruct (heap s !! r0) as [rm0|]; [|by apply Hsame].
    match goal with |- context [close_all ?l ?s] =>
      pose proof (heap_close_all l s) as Hh; destruct (close_all l s) as [s1 a] end.
    by apply Hsame.
Qed.

Lemma step_new_room tm e s r rm' :
  heap s !! r = None →
  heap (step rt tm e s).1 !! r = Some rm' →
  ∃ rnd, e = PostRooms rnd ∧ r = length (heap s)
         ∧ rm' = newRoom tm (generateRoomCode rnd).
Proof.
  intros Hnone Hsome.
  assert (Hlen : ∀ e', ¬ (∃ rnd, e' = PostRooms rnd) →
            length (heap (step rt tm e' s).1) = length (heap s)).
  { intros e' He'.
    assert (Hle : length (heap s) ≤ length (heap (step rt tm e' s).1)).
    { destruct (heap s) as [|x l] eqn:E; [cbn; lia|].
      destruct (lookup_lt_is_Some_2 (heap s) (length (heap s) - 1)) as [rm Hrm];
        [rewrite E; cbn; lia|].
      destruct (step_room tm e' s _ rm Hrm) as (rm1 & H1 & _).
      apply lookup_lt_Some in H1. rewrite E in *. cbn in *. lia. }
    destruct (decide (length (heap (step rt tm e' s).1) ≤ length (heap s)));
      [lia|exfalso].
    destruct (lookup_lt_is_Some_2 (heap (step rt tm e' s).1) (length (heap s)))
      as [rm1 Hrm1]; [lia|].
    clear Hle. apply lookup_lt_Some in Hrm1. revert Hrm1.
    destruct e' as [rnd addr ua|ws m|ws|ws|ws| |ok|rnd|rc]; cbn [step].
    8: { intros _. apply He'. by eexists. }
    - cbn. lia.
    - unfold on_message, catch, on_hello, addMetrics, addClient, ws_close.
      repeat case_match; simplify_eq;
        cbn [fst heap upd_conn upd_room set_clientSessions];
        rewrite ?length_alter; lia.
    - unfold on_close, removeClient.
      repeat case_match; simplify_eq;
        cbn [fst heap upd_conn upd_room set_clientSessions set_removalTimers];
        rewrite ?length_alter; lia.
    - unfold on_authTimeout, ws_close. repeat case_match; simplify_eq; cbn; lia.
    - unfold on_heartbeat. repeat case_match; cbn; lia.
    - unfold on_emptyRoomTimeout. repeat case_match; cbn; lia.
    - cbn. lia.
    - unfold delete_rooms. repeat case_match; cbn [fst]; try lia.
      match goal with H : close_all ?l ?s0 = _ |- _ =>
        pose proof (heap_close_all l s0) as Hh; rewrite H in Hh end.
      cbn [fst heap set_rooms] in *. rewrite Hh. lia. }
  assert (Hcase : (∃ rnd, e = PostRooms rnd) ∨ ¬ (∃ rnd, e = PostRooms rnd)).
  { destruct e; try (by right; intros [? ?]). left. by eexists. }
  destruct Hcase as [[rnd ->]|Hno].
  - exists rnd. cbn [step post_rooms fst heap] in Hsome.
    apply lookup_ge_None in Hnone.
    apply lookup_app_Some in Hsome as [Hsome|[_ Hsome]];
      [apply lookup_lt_Some in Hsome; lia|].
    apply list_lookup_singleton_Some in Hsome as [Hz <-].
    split; [done|]. split; [lia|done].
  - apply lookup_ge_None in Hnone. apply lookup_lt_Some in Hsome.
    rewrite Hlen in Hsome by done. lia.
Qed.

End RoomChange.

(** ** What an event does to the record of a socket *)

Lemma conn_keeps_refl c : conn_keeps c c.
Proof. by repeat split. Qed.

Lemma conns_keep_refl s : conns_keep s s.
Proof. intros ws c H. exists c. split; [done|apply conn_keeps_refl]. Qed.

Lemma conns_keep_trans s1 s2 s3 :
  conns_keep s1 s2 → conns_keep s2 s3 → conns_keep s1 s3.
Proof.
  intros H12 H23 ws c H. destruct (H12 _ _ H) as (c2 & H2 & E1 & E2 & E3).
  destruct (H23 _ _ H2) as (c3 & H3 & F1 & F2 & F3). exists c3.
  split; [done|]. split; [congruence|]. split; [tauto|]. tauto.
Qed.

Lemma conns_keep_same s s' : conns s' = conns s → conns_keep s s'.
Proof.
  intros E ws c H. exists c. rewrite E. split; [done|apply conn_keeps_refl].
Qed.

Lemma conns_keep_alter ws f s s' :
  conns s' = alter f ws (conns s) →
  (∀ c, conn_keeps c (f c)) → conns_keep s s'.
Proof.
  intros E Hf ws' c Hc. rewrite E.
  destruct (decide (ws = ws')) as [->|Hne].
  - rewrite list_lookup_alter_eq, Hc. cbn. eauto.
  - rewrite list_lookup_alter_ne by done. exists c.
    split; [done|apply conn_keeps_refl].
Qed.

Lemma ws_close_keep ws reason s : conns_keep s (ws_close ws reason s).1.
Proof.
  eapply conns_keep_alter; [reflexivity|]. intros c. cbn beta.
  destruct (readyState c) eqn:E; try apply conn_keeps_refl.
  unfold conn_keeps. cbn. rewrite E. by repeat split.
Qed.

Lemma close_all_keep l s : conns_keep s (close_all l s).1.
Proof.
  rewrite close_all_state. revert s.
  induction l as [|ws l IH]; intros s; [apply conns_keep_refl|].
  cbn [foldl]. eapply conns_keep_trans; [|apply IH]. apply ws_close_keep.
Qed.

Lemma addClient_keep rt tm r cid ws role s :
  conns_keep s (addClient rt tm r cid ws role s).1.1.
Proof.
  unfold addClient. destruct (heap s !! r); [|apply conns_keep_refl].
  eapply conns_keep_alter; [reflexivity|]. intros c. by repeat split.
Qed.

Lemma on_hello_keep rt tm ws c role code_ s :
  conns_keep s (on_hello rt tm ws c role code_ s).1.1.
Proof.
  unfold on_hello.
  match goal with |- context [ws_close ws _ ?x] => set (s0 := x) end.
  assert (H0 : conns_keep s s0).
  { eapply conns_keep_alter; [reflexivity|]. intros c0. by repeat split. }
  assert (Hclose : ∀ reason m,
            conns_keep s
              (let '(s1, a) := ws_close ws reason s0 in
               (s1, WsSend ws m :: a, Normal)).1.1).
  { intros reason m. change (conns_keep s (ws_close ws reason s0).1).
    eapply conns_keep_trans; [exact H0|apply ws_close_keep]. }
  destruct (_ || _).
  { eapply conns_keep_trans; [exact H0|apply ws_close_keep]. }
  destruct (rooms_get s0 code_) as [r|]; [|apply Hclose].
  destruct code_ as [| | | |k| |]; try apply Hclose.
  match goal with |- context [heap ?x !! r] => set (s1 := x) end.
  assert (H1 : conns_keep s s1).
  { eapply conns_keep_trans; [exact H0|].
    eapply conns_keep_alter; [reflexivity|]. intros c0. by repeat split. }
  destruct (heap s1 !! r) as [rm|]; [|exact H1].
  destruct (_ && _).
  - eapply conns_keep_trans; [exact H1|].
    apply (ws_close_keep ws (Some "Room is full") s1).
  - pose proof (addClient_keep rt tm r (clientId c) ws role s1) as H2.
    destruct (addClient rt tm r (clientId c) ws role s1) as [[s2 a] []];
      (eapply conns_keep_trans; [exact H1|]); exact H2.
Qed.

Section Sockets.

Variable rt : Runtime.

Lemma step_keep tm e s :
  (∀ ws, e ≠ Close ws) → conns_keep s (step rt tm e s).1.
Proof.
  intros He. destruct e as [rnd addr ua|ws m|ws|ws|ws| |ok|rnd|rc]; cbn [step].
  - intros ws c H. exists c. split; [|apply conn_keeps_refl].
    cbn. by apply lookup_app_l_Some.
  - unfold on_message. destruct (conns s !! ws) as [c|]; [|apply conns_keep_refl].
    destruct (readyState c); try apply conns_keep_refl.
    all: rewrite catch_fst.
    all: destruct m as [role code_|payload|st| | |];
      try apply conns_keep_refl; try apply on_hello_keep.
    all: try (unfold addMetrics; repeat case_match; try apply conns_keep_refl;
              by apply conns_keep_same).
    all: repeat case_match; try apply conns_keep_refl; by apply conns_keep_same.
  - by destruct (He ws).
  - unfold on_authTimeout. repeat case_match; try apply conns_keep_refl.
    + eapply conns_keep_alter; [reflexivity|]. intros c0. by repeat split.
    + eapply conns_keep_trans; [|apply ws_close_keep].
      eapply conns_keep_alter; [reflexivity|]. intros c0. by repeat split.
  - unfold on_heartbeat. repeat case_match; apply conns_keep_refl.
  - unfold on_emptyRoomTimeout. repeat case_match; try apply conns_keep_refl;
      by apply conns_keep_same.
  - apply conns_keep_refl.
  - by apply conns_keep_same.
  - unfold delete_rooms. repeat case_match; try apply conns_keep_refl.
    match goal with H : close_all ?l ?s0 = _ |- _ =>
      pose proof (close_all_keep l s0) as Hk; rewrite H in Hk end.
    eapply conns_keep_trans; [exact Hk|]. by apply conns_keep_same.
Qed.

Lemma step_conn tm e s ws c :
  conns s !! ws = Some c →
  ∃ c', conns (step rt tm e s).1 !! ws = Some c' ∧ conn_forward e ws c c'.
Proof.
  intros Hc.
  assert (Hkeep : ∀ c', conn_keeps c c' → conn_forward e ws c c').
  { intros c' (E1 & E2 & E3). repeat split; tauto. }
  assert (Hcase : (∃ ws0, e = Close ws0) ∨ ¬ (∃ ws0, e = Close ws0)).
  { destruct e; try (by right; intros [? ?]). left. by eexists. }
  destruct Hcase as [[ws0 ->]|Hno]; cycle 1.
  { assert (Hk0 : conns_keep s (step rt tm e s).1).
    { apply step_keep. intros ws0 ->. apply Hno. by eexists. }
    destruct (Hk0 _ _ Hc) as (c' & Hc' & Hk).
    exists c'. split; [done|by apply Hkeep]. }
  cbn [step]. destruct (decide (ws0 = ws)) as [->|Hne]; cycle 1.
  { rewrite on_close_conns_ne by done. exists c. split; [done|].
    apply Hkeep, conn_keeps_refl. }
  destruct (decide (readyState c = CLOSED)) as [Hrs|Hrs].
  { unfold on_close. rewrite Hc, Hrs. exists c. split; [done|].
    apply Hkeep, conn_keeps_refl. }
  exists (set_heartbeat false
            (set_authTimeout (clearTimeout (authTimeout c))
               (set_readyState CLOSED c))).
  split; [|by repeat split; auto].
  unfold on_close, removeClient. rewrite Hc.
  assert (Hgo : ∀ X : State * list Action,
            (if readyState c is CLOSED then (s, []) else X) = X)
    by (intros X; by destruct (readyState c)).
  rewrite Hgo.
  repeat case_match; simplify_eq; cbn; by rewrite list_lookup_alter_eq, Hc.
Qed.

End Sockets.

(** ** The read-only endpoints *)

Lemma registered_rooms_codes s l :
  (∀ k r, (k, r) ∈ l → ∃ rm, heap s !! r = Some rm ∧ code rm = k) →
  code <$> omap (λ kr : string * nat, heap s !! kr.2) l = l.*1.
Proof.
  induction l as [|[k r] l IH]; intros H; [done|].
  destruct (H k r) as (rm & Hr & Hk); [left|].
  cbn [omap list_omap fmap list_fmap snd fst]. cbn [snd]. rewrite Hr. cbn.
  rewrite Hk. f_equal. apply IH. intros k' r' Hin. apply H. by right.
Qed.

Lemma total_clients_sum (l : list MetricsRoom) n :
  foldl (λ sum rm, sum + size (clients rm)) n l
  = n + sum_list ((λ rm, size (clients rm)) <$> l).
Proof.
  revert n. induction l as [|rm l IH]; intros n; cbn; [lia|].
  rewrite IH. lia.
Qed.

Section Endpoints.

Variable rt : Runtime.

(** X11: in every state the server can reach, the stats endpoint answers
    404 exactly for the codes that are not registered, and the stats it
    returns for a registered code carry that code. *)
Theorem room_stats_of_registered_code tr tm rc :
  let s := exec rt tr in
  (get_room_stats tm rc s = None ↔ rooms s !! rc = None)
  ∧ (∀ st, get_room_stats tm rc s = Some st →
       st_roomCode st = rc ∧ (st_uptime st = tm - st_createdAt st)%Z).
Proof.
  intros s. pose proof (exec_registry_ok rt tr) as Hok. fold s in Hok.
  unfold get_room_stats. destruct (rooms s !! rc) as [r|] eqn:Hreg.
  - destruct (Hok _ _ Hreg) as (rm & Hr & Hk). rewrite Hr. cbn.
    split; [done|]. intros st [= <-]. by cbn.
  - split; [done|]. by intros st.
Qed.

(** X12: in every state the server can reach, the room list has one
    entry per registered code, in the registry's order and without
    repeats; each entry is the reply of the stats endpoint for its code;
    the total of the list and the room count of the info endpoint are
    both the size of the registry, and the client total of the info
    endpoint is the sum of the listed client counts. *)
Theorem room_list_matches_registry tr tm :
  let s := exec rt tr in
  st_roomCode <$> (get_rooms tm s).1 = (map_to_list (rooms s)).*1
  ∧ NoDup (st_roomCode <$> (get_rooms tm s).1)
  ∧ (∀ st, st ∈ (get_rooms tm s).1 →
       get_room_stats tm (st_roomCode st) s = Some st)
  ∧ (get_rooms tm s).2 = size (rooms s)
  ∧ (get_info s).1 = (get_rooms tm s).2
  ∧ (get_info s).2 = sum_list (st_clientCount <$> (get_rooms tm s).1).
Proof.
  intros s. pose proof (exec_registry_ok rt tr) as Hok. fold s in Hok.
  assert (Hl : ∀ k r, (k, r) ∈ map_to_list (rooms s) →
            ∃ rm, heap s !! r = Some rm ∧ code rm = k).
  { intros k r Hin. apply elem_of_map_to_list in Hin. by apply Hok. }
  assert (Hcodes : st_roomCode <$> (get_rooms tm s).1 = (map_to_list (rooms s)).*1).
  { unfold get_rooms, registered_rooms. cbn [fst].
    rewrite <- (registered_rooms_codes s _ Hl), <- list_fmap_compose.
    by apply list_fmap_ext. }
  split; [done|]. split; [rewrite Hcodes; apply NoDup_fst_map_to_list|].
  split.
  { intros st Hin. unfold get_rooms, registered_rooms in Hin. cbn [fst] in Hin.
    apply list_elem_of_fmap in Hin as (rm & -> & Hin).
    apply list_elem_of_omap in Hin as ([k r] & Hin & Hr). cbn [snd] in Hr.
    destruct (Hl _ _ Hin) as (rm0 & Hr0 & Hk). simplify_eq.
    apply elem_of_map_to_list in Hin. unfold get_room_stats. cbn [st_roomCode getStats].
    by rewrite Hin, Hr. }
  assert (Hlen : (get_rooms tm s).2 = size (rooms s)).
  { unfold get_rooms. cbn [snd].
    rewrite <- (length_fmap st_roomCode). fold (get_rooms tm s).1.
    change (getStats tm <$> registered_rooms s) with (get_rooms tm s).1.
    by rewrite Hcodes, length_fmap, length_map_to_list. }
  split; [done|]. split; [by rewrite Hlen|].
  unfold get_info, get_rooms. cbn [fst snd]. rewrite total_clients_sum.
  rewrite <- list_fmap_compose. cbn. done.
Qed.

End Endpoints.

(** ** Who can change a room *)

Section Frames.

Variable rt : Runtime.

(** X13: the settings of a room object change only through a
    [room_settings] message with a settings object, sent by a connected
    session that joined this room as controller; the new settings are
    the old ones overridden by the keys sent. No other event, and no
    such message from any other session, changes them. *)
Theorem settings_change_only_by_controller tm e s r rm rm' :
  heap s !! r = Some rm →
  heap (step rt tm e s).1 !! r = Some rm' →
  settings rm' ≠ settings rm →
  ∃ ws c p,
    e = Message ws (room_settings (Some p))
    ∧ conns s !! ws = Some c ∧ readyState c ≠ CLOSED
    ∧ room c = Some r ∧ ws_role c = Some Controller
    ∧ settings rm' = merge_settings (settings rm) p.
Proof.
  intros Hr Hr' Hne. destruct (step_room rt tm e s r rm Hr) as (rm1 & H1 & Hch).
  assert (rm1 = rm') as -> by congruence.
  inversion Hch; subst; try (by destruct Hne);
    try (by destruct Hne; repeat case_match).
  by exists ws, c, p.
Qed.

(** X14: the metrics buffer of a room object changes only through a
    [metrics] message with a payload, sent by a connected session that
    joined this room as a client; the new buffer is the old one with the
    new record appended and then trimmed, or, when the room's maximum
    cannot be read as a number and the trim throws, with the new record
    appended and nothing dropped. *)
Theorem buffer_change_only_by_client tm e s r rm rm' :
  heap s !! r = Some rm →
  heap (step rt tm e s).1 !! r = Some rm' →
  metrics rm' ≠ metrics rm →
  ∃ ws c p,
    e = Message ws (metrics_in (Some p))
    ∧ conns s !! ws = Some c ∧ readyState c ≠ CLOSED
    ∧ room c = Some r ∧ ws_role c = Some Client
    ∧ let pushed :=
        metrics rm
        ++ [mkEntry (spread_payload c p) (clientId c) (code rm) tm tm] in
      match ToNumber rt (maxMetricsHistory (settings rm)) with
      | Some _ =>
          trim rt (maxMetricsHistory (settings rm)) pushed = Some (metrics rm')
      | None => metrics rm' = pushed
      end.
Proof.
  intros Hr Hr' Hne. destruct (step_room rt tm e s r rm Hr) as (rm1 & H1 & Hch).
  assert (rm1 = rm') as -> by congruence.
  inversion Hch; subst; try (by destruct Hne);
    try (by destruct Hne; repeat case_match).
  - exists ws, c, p. repeat (split; [done|]). cbv zeta.
    destruct (ToNumber rt _) eqn:Hn; [done|].
    match goal with H : trim _ _ ?b = Some _ |- _ =>
      rewrite (proj2 (trim_throws rt _ b) Hn) in H; discriminate end.
  - exists ws, c, p. repeat (split; [done|]). cbv zeta.
    match goal with H : trim _ _ _ = None |- _ =>
      by rewrite (proj1 (trim_throws rt _ _) H) end.
Qed.

(** X15: the membership of a room object (its controller slot and its
    client table) changes only through a hello that names a code
    registered for this room, or through the close event of a connected
    session whose handler holds this room. In particular the timers, the
    pings and both registry endpoints leave the membership of every room
    as it is. *)
Theorem membership_change_only_by_join_or_leave tm e s r rm rm' :
  heap s !! r = Some rm →
  heap (step rt tm e s).1 !! r = Some rm' →
  controller rm' ≠ controller rm ∨ clients rm' ≠ clients rm →
  (∃ ws c role k,
     e = Message ws (hello role (JStr k))
     ∧ conns s !! ws = Some c ∧ readyState c ≠ CLOSED
     ∧ rooms s !! k = Some r
     ∧ (if strict_eq_str role "controller"
        then controller rm' = Some ws ∧ clients rm' = clients rm
        else controller rm' = controller rm
             ∧ clients rm' = <[clientId c := ws]> (clients rm)))
  ∨ (∃ ws c,
       e = Close ws
       ∧ conns s !! ws = Some c ∧ readyState c ≠ CLOSED
       ∧ room c = Some r
       ∧ (if ws_role c is Some Controller
          then controller rm' = None ∧ clients rm' = clients rm
          else controller rm' = controller rm
               ∧ clients rm' = delete (clientId c) (clients rm))).
Proof.
  intros Hr Hr' Hne. destruct (step_room rt tm e s r rm Hr) as (rm1 & H1 & Hch).
  assert (rm1 = rm') as -> by congruence.
  inversion Hch; subst; try (by destruct Hne as [Hne|Hne]; destruct Hne).
  - left. exists ws, c, role, k. repeat (split; [done|]).
    by destruct (strict_eq_str role "controller").
  - right. exists ws, c. repeat (split; [done|]).
    by destruct (ws_role c) as [[]|].
Qed.

Lemma run_room tr : ∀ s r rm,
  heap s !! r = Some rm →
  ∃ rm', heap (run rt tr s).1 !! r = Some rm'
         ∧ code rm' = code rm ∧ createdAt rm' = createdAt rm.
Proof.
  induction tr as [|[tm e] tr IH]; intros s r rm Hr; [by exists rm|].
  rewrite run_cons. cbn [fst].
  destruct (step_room rt tm e s r rm Hr) as (rm1 & H1 & Hch).
  destruct (IH _ _ _ H1) as (rm2 & H2 & Hc & Ht). exists rm2.
  split; [done|].
  assert (code rm1 = code rm ∧ createdAt rm1 = createdAt rm) as [E1 E2]
    by (inversion Hch; subst; by repeat case_match).
  split; congruence.
Qed.

Lemma step_heap_length tm e s :
  length (heap (step rt tm e s).1)
  = length (heap s) + (if creates_room e then 1 else 0).
Proof.
  destruct (decide (creates_room e = true)) as [Hc|Hc].
  - destruct e; try done. cbn. rewrite length_app. cbn. lia.
  - assert (creates_room e = false) as -> by by destruct (creates_room e).
    destruct (decide (length (heap (step rt tm e s).1) ≤ length (heap s))) as [Hle|Hgt].
    + destruct (heap s) as [|x l] eqn:E; [cbn in *; lia|].
      destruct (lookup_lt_is_Some_2 (heap s) (length (heap s) - 1)) as [rm Hrm];
        [rewrite E; cbn; lia|].
      destruct (step_room rt tm e s _ rm Hrm) as (rm1 & H1 & _).
      apply lookup_lt_Some in H1. rewrite E in *. cbn in *. lia.
    + destruct (lookup_lt_is_Some_2 (heap (step rt tm e s).1) (length (heap s)))
        as [rm1 Hrm1]; [lia|].
      destruct (step_new_room rt tm e s (length (heap s)) rm1)
        as (rnd & -> & _); [|done|done].
      apply lookup_ge_None. lia.
Qed.

(** X16: a room object, once created, is never freed and keeps its code
    and its creation time through every run, whatever happens to its
    registration; and room objects are created by [POST /api/rooms]
    only, one per request. *)
Theorem room_objects_persist tr s :
  length (heap (run rt tr s).1)
  = length (heap s) + length (filter (λ te, creates_room te.2 = true) tr)
  ∧ ∀ r rm, heap s !! r = Some rm →
      ∃ rm', heap (run rt tr s).1 !! r = Some rm'
             ∧ code rm' = code rm ∧ createdAt rm' = createdAt rm.
Proof.
  split; [|apply run_room].
  revert s. induction tr as [|[tm e] tr IH]; intros s; [cbn; lia|].
  rewrite run_cons. cbn [fst]. rewrite IH, step_heap_length.
  rewrite filter_cons. cbn [snd].
  destruct (creates_room e); [rewrite decide_True by done|rewrite decide_False by done];
    cbn; lia.
Qed.

End Frames.

(** ** Sockets through a run *)

Lemma is_open_connected s ws : is_open s ws = true → is_connected s ws = true.
Proof.
  unfold is_open, is_connected. destruct (conns s !! ws) as [c|]; [|done].
  by destruct (readyState c).
Qed.

Lemma is_open_alter_back ws f s s' ws' :
  conns s' = alter f ws (conns s) →
  (∀ c, readyState (f c) = OPEN → readyState c = OPEN) →
  is_open s' ws' = true → is_open s ws' = true.
Proof.
  intros E Hf. unfold is_open. rewrite E.
  destruct (decide (ws = ws')) as [->|Hne].
  - rewrite list_lookup_alter_eq. destruct (conns s !! ws') as [c|]; [|done].
    cbn. destruct (readyState (f c)) eqn:E1; try done.
    by rewrite (Hf c E1).
  - by rewrite list_lookup_alter_ne.
Qed.

Lemma sendToClient_reaches s s' ws m :
  (is_open s' ws = true → is_open s ws = true) →
  Forall (λ a, reaches_connected s a = true) (sendToClient s' ws m).
Proof.
  intros H. unfold sendToClient. destruct (is_open s' ws); [|constructor].
  repeat constructor. cbn. by apply is_open_connected, H.
Qed.

Lemma sendToController_reaches s s' rm m :
  (∀ ws, is_open s' ws = true → is_open s ws = true) →
  Forall (λ a, reaches_connected s a = true) (sendToController s' rm m).
Proof.
  intros H. unfold sendToController. destruct (controller rm) as [ctl|]; [|constructor].
  destruct (is_open s' ctl); [|constructor]. apply sendToClient_reaches, H.
Qed.

Section Sessions.

Variable rt : Runtime.

(** X17: through every run a socket keeps its client id and its place
    among the connections; it never reopens; once closed it stays
    closed; and it is closed only if its own close event is among the
    events (a [ws.close()] by the server, a timeout or a deletion only
    starts the closing handshake). *)
Theorem socket_lifecycle tr s ws c :
  conns s !! ws = Some c →
  ∃ c', conns (run rt tr s).1 !! ws = Some c'
    ∧ clientId c' = clientId c
    ∧ (readyState c' = OPEN → readyState c = OPEN)
    ∧ (readyState c = CLOSED → readyState c' = CLOSED)
    ∧ (readyState c' = CLOSED → readyState c = CLOSED ∨ closes ws tr = true).
Proof.
  revert s c. induction tr as [|[tm e] tr IH]; intros s c Hc.
  { exists c. repeat split; auto. }
  rewrite run_cons. cbn [fst].
  destruct (step_conn rt tm e s ws c Hc) as (c1 & H1 & E1 & E2 & E3 & E4).
  destruct (IH _ _ H1) as (c2 & H2 & F1 & F2 & F3 & F4). exists c2.
  split; [done|]. split; [congruence|]. split; [tauto|]. split; [tauto|].
  intros Hcl. cbn [closes existsb snd].
  destruct (F4 Hcl) as [Hc1|Hc1]; [|right; rewrite orb_true_iff; by right].
  destruct (E4 Hc1) as [?| ->]; [by left|right].
  by rewrite Nat.eqb_refl.
Qed.

(** X18: whatever the state and the event, every message the server
    sends and every ping it makes goes to a socket that is connected
    when the event arrives: nothing is ever sent to a socket whose close
    event has occurred, nor to an address that is no connection. *)
Theorem sends_reach_connected_sockets tm e s :
  Forall (λ a, reaches_connected s a = true) (step rt tm e s).2.
Proof.
  assert (Hself : ∀ ws c m, conns s !! ws = Some c → readyState c ≠ CLOSED →
            reaches_connected s (WsSend ws m) = true).
  { intros ws c m Hc Hrs. cbn. unfold is_connected. rewrite Hc.
    by destruct (readyState c). }
  destruct e as [rnd addr ua|ws m|ws|ws|ws| |ok|rnd|rc]; cbn [step].
  - by repeat constructor.
  - unfold on_message. destruct (conns s !! ws) as [c|] eqn:Hc; [|constructor].
    destruct (decide (readyState c = CLOSED)) as [Hrs|Hrs];
      [rewrite Hrs; constructor|].
    assert (Hgo : ∀ X : State * list Action,
              (if readyState c is CLOSED then (s, []) else X) = X)
      by (intros X; by destruct (readyState c)).
    rewrite Hgo. clear Hgo.
    assert (Hcatch : ∀ res,
              Forall (λ a, reaches_connected s a = true) res.1.2 →
              Forall (λ a, reaches_connected s a = true) (catch ws res).2).
    { intros [[s' a] []] Ha; cbn [catch fst snd] in *; [done|].
      apply Forall_app. split; [done|]. repeat constructor. by eapply Hself. }
    apply Hcatch. clear Hcatch.
    destruct m as [role code_|payload|st| | |]; cbn [fst snd];
      try by repeat constructor; eauto.
    + unfold on_hello.
      destruct (_ || _); [by repeat constructor|].
      destruct (rooms_get _ code_) as [r0|] eqn:Hget;
        [|repeat constructor; eauto].
      destruct code_ as [| | | |k| |]; try (repeat constructor; by eauto).
      rewrite heap_upd_conn.
      destruct (heap _ !! r0) as [rm0|] eqn:Hr0; [|constructor].
      rewrite heap_upd_conn in Hr0.
      destruct (_ && _); [repeat constructor; by eauto|].
      unfold addClient. rewrite !heap_upd_conn, Hr0.
      assert (Hback : ∀ s1 f g h rm1 ws0,
                s1 = upd_conn ws f (upd_room r0 (λ _, rm1)
                       (upd_conn ws g (upd_conn ws h s))) →
                (∀ c, readyState (f c) = readyState c) →
                (∀ c, readyState (g c) = readyState c) →
                (∀ c, readyState (h c) = readyState c) →
                is_open s1 ws0 = true → is_open s ws0 = true).
      { intros s1 f g h rm1 ws0 -> Hf Hg Hh.
        rewrite is_open_upd_conn_rs by done. rewrite is_open_upd_room.
        by rewrite !is_open_upd_conn_rs by done. }
      destruct (ToString rt role); cbn [fst snd].
      all: apply Forall_app; split;
        [apply sendToClient_reaches; by eapply Hback|].
      all: repeat case_match; try constructor;
        apply sendToClient_reaches; by eapply Hback.
    + destruct (room c) as [r0|]; [|constructor].
      destruct (ws_role c) as [[]|]; try constructor.
      destruct payload as [p|]; [|constructor].
      unfold addMetrics. destruct (heap s !! r0) as [rm0|]; [|constructor].
      destruct (trim rt _ _) as [buf|]; [|constructor].
      assert (Hfwd : ∀ rm1 msg,
                Forall (λ a, reaches_connected s a = true)
                  ([InsertMetric
                      (mkEntry (<["userAgent" := JStr (userAgent c)]>
                                  (<["ip" := remoteAddress c]> p))
                         (clientId c) (code rm0) tm tm)]
                   ++ sendToController (upd_room r0 (λ _, rm1) s) rm1 msg)).
      { intros rm1 msg. constructor; [done|]. by apply sendToController_reaches. }
      destruct (checkAlerts _ _ _ _ _) as [alerts|] eqn:Ha; cbn [fst snd];
        [|apply Hfwd].
      apply Forall_app. split; [apply Hfwd|].
      unfold checkAlerts in Ha. repeat case_match; simplify_eq; try constructor;
        by apply sendToController_reaches.
    + destruct (room c) as [r0|]; [|constructor].
      destruct (ws_role c) as [[]|]; try constructor.
      destruct st as [p|]; [|constructor].
      destruct (heap s !! r0) as [rm0|]; [|constructor].
      cbn [fst snd]. by apply sendToController_reaches.
  - destruct (conns s !! ws) as [c|] eqn:Hc;
      [|unfold on_close; rewrite Hc; constructor].
    destruct (decide (readyState c = CLOSED)) as [Hrs|Hrs];
      [unfold on_close; rewrite Hc, Hrs; constructor|].
    destruct (room c) as [r0|] eqn:Hroom; cycle 1.
    { unfold on_close. rewrite Hc, Hroom. destruct (readyState c); constructor. }
    destruct (heap s !! r0) as [rm0|] eqn:Hr0; cycle 1.
    { unfold on_close, removeClient. rewrite Hc, Hroom, !heap_upd_conn, Hr0.
      rewrite heap_upd_conn, Hr0. destruct (readyState c); constructor. }
    rewrite (on_close_eq tm ws c r0 rm0 s) by done. cbn [snd].
    apply Forall_app. split; [|by destruct (room_is_empty _); repeat constructor].
    repeat case_match; try constructor;
      apply sendToClient_reaches; rewrite is_open_upd_room;
      (eapply is_open_alter_back; [reflexivity|]); by intros c0.
  - unfold on_authTimeout, ws_close. repeat case_match; by repeat constructor.
  - unfold on_heartbeat. destruct (conns s !! ws) as [c|]; [|constructor].
    destruct (heartbeat c); [|constructor].
    destruct (is_open s ws) eqn:Ho; [|constructor].
    repeat constructor. cbn. by apply is_open_connected.
  - unfold on_emptyRoomTimeout. repeat case_match; constructor.
  - constructor.
  - by repeat constructor.
  - unfold delete_rooms. destruct (rooms s !! rc) as [r0|]; [|constructor].
    destruct (heap s !! r0) as [rm0|]; [|constructor].
    match goal with |- context [close_all ?l ?s] =>
      pose proof (close_all_actions l s) as Ha; destruct (close_all l s) as [s1 a] end.
    cbn [snd] in *. rewrite Ha. apply Forall_app. split; [|by repeat constructor].
    apply Forall_fmap, Forall_true. by intros ws.
Qed.

End Sessions.

(** ** Sessions, roles and membership *)

Lemma on_close_noop tm ws s :
  (∀ c, conns s !! ws = Some c → readyState c = CLOSED) →
  on_close tm ws s = (s, []).
Proof.
  intros H. unfold on_close. destruct (conns s !! ws) as [c|]; [|done].
  by rewrite (H c eq_refl).
Qed.

Lemma on_close_sessions tm ws c s :
  conns s !! ws = Some c → readyState c ≠ CLOSED →
  clientSessions (on_close tm ws s).1 = delete (clientId c) (clientSessions s)
  ∧ conns (on_close tm ws s).1 !! ws
    = Some (set_heartbeat false
              (set_authTimeout (clearTimeout (authTimeout c))
                 (set_readyState CLOSED c))).
Proof.
  intros Hc Hrs. unfold on_close, removeClient. rewrite Hc.
  assert (Hgo : ∀ X : State * list Action,
            (if readyState c is CLOSED then (s, []) else X) = X)
    by (intros X; by destruct (readyState c)).
  rewrite Hgo.
  repeat case_match; simplify_eq; cbn; by rewrite list_lookup_alter_eq, Hc.
Qed.

Lemma sessions_close_all l s :
  clientSessions (close_all l s).1 = clientSessions s.
Proof.
  rewrite close_all_state. revert s.
  induction l as [|ws l IH]; intros s; [done|]. cbn [foldl]. by rewrite IH.
Qed.

Lemma on_hello_sessions rt tm ws c role code_ s :
  clientSessions (on_hello rt tm ws c role code_ s).1.1 = clientSessions s
  ∨ ∃ k, code_ = JStr k
         ∧ clientSessions (on_hello rt tm ws c role code_ s).1.1
           = <[clientId c := mkSession k role tm (remoteAddress c)]>
               (clientSessions s).
Proof.
  unfold on_hello, addClient, ws_close.
  repeat case_match; simplify_eq; try (by left); right; by eexists.
Qed.

Section Membership.

Variable rt : Runtime.

Lemma step_sessions tm e s :
  (∀ ws, e ≠ Close ws) →
  clientSessions (step rt tm e s).1 = clientSessions s
  ∨ ∃ ws c role k,
      e = Message ws (hello role (JStr k))
      ∧ conns s !! ws = Some c ∧ readyState c ≠ CLOSED
      ∧ clientSessions (step rt tm e s).1
        = <[clientId c := mkSession k role tm (remoteAddress c)]>
            (clientSessions s).
Proof.
  intros He. destruct e as [rnd addr ua|ws m|ws|ws|ws| |ok|rnd|rc]; cbn [step].
  - by left.
  - unfold on_message. destruct (conns s !! ws) as [c|] eqn:Hc; [|by left].
    destruct (decide (readyState c = CLOSED)) as [Hrs|Hrs];
      [rewrite Hrs; by left|].
    assert (Hgo : ∀ X : State * list Action,
              (if readyState c is CLOSED then (s, []) else X) = X)
      by (intros X; by destruct (readyState c)).
    rewrite Hgo. clear Hgo. rewrite catch_fst.
    destruct m as [role code_|payload|st| | |]; try by left.
    + destruct (on_hello_sessions rt tm ws c role code_ s) as [E|(k & -> & E)];
        [by left|right]. by exists ws, c, role, k.
    + left. unfold addMetrics. by repeat case_match.
    + left. by repeat case_match.
  - by destruct (He ws).
  - left. unfold on_authTimeout. by repeat case_match.
  - left. unfold on_heartbeat. by repeat case_match.
  - left. unfold on_emptyRoomTimeout. by repeat case_match.
  - by left.
  - by left.
  - left. unfold delete_rooms. repeat case_match; try done.
    match goal with H : close_all ?l ?s0 = _ |- _ =>
      pose proof (sessions_close_all l s0) as Hk; rewrite H in Hk end.
    done.
Qed.

Lemma step_sessions_live tm e s :
  sessions_live s → sessions_live (step rt tm e s).1.
Proof.
  intros Hlive.
  assert (Hcase : (∃ ws0, e = Close ws0) ∨ (∀ ws0, e ≠ Close ws0)).
  { destruct e; try (by right); left; by eexists. }
  destruct Hcase as [[ws0 ->]|Hno].
  - cbn [step].
    destruct (conns s !! ws0) as [c0|] eqn:Hc0; cycle 1.
    { rewrite on_close_noop; [done|]. intros c. by rewrite Hc0. }
    destruct (decide (readyState c0 = CLOSED)) as [Hrs|Hrs].
    { rewrite on_close_noop; [done|]. intros c. rewrite Hc0. congruence. }
    destruct (on_close_sessions tm ws0 c0 s Hc0 Hrs) as [E _].
    intros cid si Hsi. rewrite E in Hsi.
    apply lookup_delete_Some in Hsi as [Hne Hsi].
    destruct (Hlive _ _ Hsi) as (ws & c & Hc & Hid & Hopen).
    exists ws, c. split; [|done].
    rewrite on_close_conns_ne; [done|]. intros ->. congruence.
  - pose proof (step_keep rt tm e s Hno) as Hkeep.
    assert (Hold : ∀ cid si, clientSessions s !! cid = Some si →
              ∃ ws c, conns (step rt tm e s).1 !! ws = Some c
                      ∧ clientId c = cid ∧ readyState c ≠ CLOSED).
    { intros cid si Hsi. destruct (Hlive _ _ Hsi) as (ws & c & Hc & Hid & Hopen).
      destruct (Hkeep _ _ Hc) as (c' & Hc' & E1 & E2 & E3).
      exists ws, c'. split; [done|]. split; [congruence|tauto]. }
    destruct (step_sessions tm e s Hno) as [E|(ws & c & role & k & -> & Hc & Hrs & E)];
      intros cid si Hsi; rewrite E in Hsi; [by eapply Hold|].
    apply lookup_insert_Some in Hsi as [[<- _]|[_ Hsi]]; [|by eapply Hold].
    destruct (Hkeep _ _ Hc) as (c' & Hc' & E1 & E2 & E3).
    exists ws, c'. split; [done|]. split; [done|tauto].
Qed.

(** X19: in every state the server can reach, every entry of the session
    table is filed under the client id of a socket that is still
    connected: the entry of a session is dropped by its close event at
    the latest, and nothing else than an accepted hello adds one. *)
Theorem session_table_holds_connected_sessions tr : sessions_live (exec rt tr).
Proof.
  unfold exec. apply (run_invariant rt sessions_live).
  - intros tm e s. apply step_sessions_live.
  - intros cid si H. cbn in H. by rewrite lookup_empty in H.
Qed.

Lemma step_members_keyed tm e s :
  members_keyed s → members_keyed (step rt tm e s).1.
Proof.
  intros Hm r rm' Hr'.
  assert (Hfwd : ∀ ws c, conns s !! ws = Some c →
            ∃ c', conns (step rt tm e s).1 !! ws = Some c'
                  ∧ clientId c' = clientId c).
  { intros ws c Hc. destruct (step_conn rt tm e s ws c Hc) as (c' & Hc' & E & _).
    by exists c'. }
  destruct (heap s !! r) as [rm|] eqn:Hr; cycle 1.
  { destruct (step_new_room rt tm e s r rm' Hr Hr') as (rnd & _ & _ & ->).
    split; [done|]. intros k ws H. cbn in H. by rewrite lookup_empty in H. }
  destruct (step_room rt tm e s r rm Hr) as (rm1 & H1 & Hch).
  assert (rm1 = rm') as -> by congruence.
  destruct (Hm _ _ Hr) as [Hctl Hcl].
  assert (Hctl' : ∀ ws, controller rm = Some ws →
            is_Some (conns (step rt tm e s).1 !! ws)).
  { intros ws Hw. destruct (Hctl _ Hw) as [c Hc].
    destruct (Hfwd _ _ Hc) as (c' & Hc' & _). by eexists. }
  assert (Hcl' : ∀ k ws, clients rm !! k = Some ws →
            ∃ c, conns (step rt tm e s).1 !! ws = Some c ∧ clientId c = k).
  { intros k ws Hw. destruct (Hcl _ _ Hw) as (c & Hc & Hid).
    destruct (Hfwd _ _ Hc) as (c' & Hc' & E). exists c'. split; [done|congruence]. }
  inversion Hch; subst; try done.
  - destruct (Hfwd _ _ H) as (c' & Hc' & E).
    destruct (strict_eq_str role "controller"); cbn; split; try done.
    + intros ws0 [= <-]. by eexists.
    + intros k0 ws0 Hw. apply lookup_insert_Some in Hw as [[<- <-]|[_ Hw]];
        [by exists c'|by apply Hcl'].
  - destruct (ws_role c) as [[]|]; cbn; split; try done.
    all: intros k0 ws0 Hw; apply lookup_delete_Some in Hw as [_ Hw];
      by apply Hcl'.
Qed.

(** X20: in every state the server can reach, the controller slot of
    every room object holds an accepted connection, and every entry of a
    client table is filed under the client id of the socket it holds. *)
Theorem members_are_keyed_by_their_id tr : members_keyed (exec rt tr).
Proof.
  unfold exec. apply (run_invariant rt members_keyed).
  - intros tm e s. apply step_members_keyed.
  - intros r rm H. cbn in H. by rewrite lookup_nil in H.
Qed.

(** X21: a [metrics] message is dropped, with no change of state and no
    call, unless it carries a payload and comes from a session whose
    handler holds a room and whose role is client; a [room_settings]
    message is dropped likewise unless it carries settings and comes
    from a session that holds a room with the role controller; a message
    of any other type but hello and ping is dropped; and the close of a
    session whose handler holds no room touches no room, no registration
    and no pending removal, and makes no call. *)
Theorem messages_gated_by_role tm ws c s :
  conns s !! ws = Some c →
  (∀ payload,
     room c = None ∨ ws_role c ≠ Some Client ∨ payload = None →
     step rt tm (Message ws (metrics_in payload)) s = (s, []))
  ∧ (∀ st,
       room c = None ∨ ws_role c ≠ Some Controller ∨ st = None →
       step rt tm (Message ws (room_settings st)) s = (s, []))
  ∧ step rt tm (Message ws other) s = (s, [])
  ∧ (room c = None →
     let res := step rt tm (Close ws) s in
     heap res.1 = heap s ∧ rooms res.1 = rooms s
     ∧ removalTimers res.1 = removalTimers s ∧ res.2 = []).
Proof.
  intros Hc. cbn [step]. unfold on_message, on_close. rewrite Hc.
  repeat split.
  - intros payload H. destruct (readyState c); try done;
      destruct (room c); try done; destruct (ws_role c) as [[]|]; try done;
      destruct payload; try done; by destruct H as [?|[?|?]].
  - intros st H. destruct (readyState c); try done;
      destruct (room c); try done; destruct (ws_role c) as [[]|]; try done;
      destruct st; try done; by destruct H as [?|[?|?]].
  - by destruct (readyState c).
  - rewrite H. by destruct (readyState c).
  - rewrite H. by destruct (readyState c).
  - rewrite H. by destruct (readyState c).
  - rewrite H. by destruct (readyState c).
Qed.

(** X22: when a connected session that joined as a client closes, its
    entry leaves the client table of its room and the session table;
    the controller slot, the buffer and the settings stay; the room's
    controller is told [client_left] with the new client count if its
    socket is open and is not the closing socket itself; and the removal
    check is scheduled exactly if the room is now empty. *)
Theorem client_close_leaves_room tm ws c r rm s :
  conns s !! ws = Some c →
  readyState c ≠ CLOSED →
  room c = Some r →
  ws_role c = Some Client →
  heap s !! r = Some rm →
  let res := step rt tm (Close ws) s in
  let left := delete (clientId c) (clients rm) in
  (∃ rm', heap res.1 !! r = Some rm'
          ∧ clients rm' = left ∧ controller rm' = controller rm
          ∧ metrics rm' = metrics rm ∧ settings rm' = settings rm)
  ∧ clientSessions res.1 = delete (clientId c) (clientSessions s)
  ∧ res.2
    = match controller rm with
      | Some ctl =>
          if negb (ctl =? ws) && is_open s ctl
          then [WsSend ctl (client_left (clientId c) (size left))]
          else []
      | None => []
      end
      ++ (if (size left =? 0) && (if controller rm is None then true else false)
          then [SetTimeout 60000] else []).
Proof.
  intros Hc Hrs Hroom Hrole Hr res left. unfold res. cbn [step].
  rewrite (on_close_eq tm ws c r rm s Hc Hrs Hroom Hr). rewrite Hrole.
  cbn [fst snd]. split; [|split].
  - eexists. split.
    + destruct (room_is_empty _); cbn [heap set_clientSessions set_removalTimers];
        (eapply heap_upd_room_eq; by rewrite heap_upd_conn).
    + by cbn.
  - by destruct (room_is_empty _).
  - f_equal. cbn [controller set_lastActivity set_clients clients].
    destruct (controller rm) as [ctl|]; [|done].
    unfold sendToClient. rewrite is_open_upd_room. unfold is_open. cbn [conns upd_conn].
    destruct (Nat.eqb_spec ctl ws) as [->|Hne].
    + rewrite list_lookup_alter_eq, Hc. by cbn.
    + by rewrite list_lookup_alter_ne.
Qed.

(** X23: a hello whose role has no primitive value (an object with an
    own [toString] key, say) and whose code names a registered room is
    taken for a client whatever the room's client count: the session is
    put in the room's client table and its socket is marked as a client;
    then printing the role throws, so no session entry is written, and
    the sender gets [room_info] (if its socket is open) followed by the
    [error] of the handler's [catch]. *)
Theorem unreadable_role_joins_without_session tm ws c role k r rm s :
  conns s !! ws = Some c →
  readyState c ≠ CLOSED →
  ToString rt role = None →
  k ≠ "" →
  rooms s !! k = Some r →
  heap s !! r = Some rm →
  let res := step rt tm (Message ws (hello role (JStr k))) s in
  (∃ rm', heap res.1 !! r = Some rm'
          ∧ clients rm' = <[clientId c := ws]> (clients rm)
          ∧ controller rm' = controller rm)
  ∧ ws_role <$> conns res.1 !! ws = Some (Some Client)
  ∧ clientSessions res.1 = clientSessions s
  ∧ res.2
    = (if is_open s ws
       then [WsSend ws (room_info (code rm) (clientId c) role
                          (size (<[clientId c := ws]> (clients rm)))
                          (if controller rm is Some _ then true else false))]
       else [])
      ++ failure_reply ws.
Proof.
  intros Hc Hrs Hthrow Hk Hreg Hr res. subst res.
  assert (Hrole : ToBoolean role = true ∧ ∀ lit, strict_eq_str role lit = false).
  { destruct role as [| |[]| | | |]; try discriminate Hthrow; by split. }
  destruct Hrole as [Htrue Hlit].
  rewrite (step_hello rt tm ws c) by done.
  rewrite (on_hello_accept rt tm ws c role k r rm) by (by rewrite ?Hlit).
  cbv zeta. rewrite Hthrow. unfold addClient.
  rewrite !heap_upd_conn, Hr, !Hlit. cbn [fst snd].
  assert (Hopen : ∀ f g h st,
    (∀ c, readyState (f c) = readyState c) →
    (∀ c, readyState (g c) = readyState c) →
    (∀ c, readyState (h c) = readyState c) →
    is_open (upd_conn ws f (upd_room r st (upd_conn ws g (upd_conn ws h s)))) ws
    = is_open s ws).
  { intros f g h st Hf Hg Hh. rewrite is_open_upd_conn_rs by done.
    rewrite is_open_upd_room. by rewrite !is_open_upd_conn_rs by done. }
  split; [|split; [|split]].
  - eexists. split.
    + rewrite heap_upd_conn. eapply heap_upd_room_eq. by rewrite !heap_upd_conn.
    + done.
  - cbn [conns upd_conn upd_room]. by rewrite !list_lookup_alter_eq, Hc.
  - done.
  - unfold sendToClient. rewrite Hopen by done.
    cbn [code controller clients set_lastActivity set_clients].
    destruct (controller rm); by rewrite app_nil_r.
Qed.

End Membership.

(** * Concrete runs *)

(** C1, the claim as stated fails: the controller of [pairedRoom] says
    hello again with a code that is not registered, so the server calls
    close on it; it is still the room's controller while its socket is
    closing. A metrics message from the client is then stored, but no
    [metrics] message goes to the attached controller. *)
Lemma attached_controller_not_forwarded :
  let s :=
    exec sampleRuntime
      (pairedRoom
       ++ [(5%Z, Message 0 (hello (JStr "controller") (JStr "NOSUCH")))]) in
  let res :=
    step sampleRuntime 9
      (Message 1 (metrics_in (Some {[ "entropy" := JInt 50 ]}))) s in
  controller <$> heap s !! 0 = Some (Some 0)
  ∧ readyState <$> conns s !! 0 = Some CLOSING
  ∧ ws_role <$> conns s !! 1 = Some (Some Client)
  ∧ room <$> conns s !! 1 = Some (Some 0)
  ∧ length <$> (metrics <$> heap res.1 !! 0) = Some 1
  ∧ ∃ e, res.2 = [InsertMetric e].
Proof.
  cbv zeta. repeat split; try (vm_compute; reflexivity).
  eexists. vm_compute. reflexivity.
Qed.

(** C1, a run of the amended statement: in [pairedRoom] the controller's
    socket is open and the maximum is the default, so the client's
    metrics are stored, then forwarded, then the low-entropy alert
    follows. *)
Lemma ingestion_sequence_witness :
  let s := exec sampleRuntime pairedRoom in
  let p : JsObject := {[ "entropy" := JInt 10 ]} in
  let res := step sampleRuntime 9 (Message 1 (metrics_in (Some p))) s in
  ∃ c rm,
    conns s !! 1 = Some c ∧ readyState c ≠ CLOSED ∧ room c = Some 0
    ∧ ws_role c = Some Client ∧ heap s !! 0 = Some rm
    ∧ ∃ forward alerts,
        res.2
        = [InsertMetric (mkEntry (spread_payload c p) (clientId c) (code rm) 9 9)]
          ++ forward ++ alerts
        ∧ forward = [WsSend 0 (metrics_msg (clientId c) (spread_payload c p) 9)]
        ∧ alerts ≠ [] ∧ alerts ≠ failure_reply 1.
Proof.
  cbv zeta. eexists _, _.
  split; [vm_compute; reflexivity|].
  split; [discriminate|]. split; [reflexivity|]. split; [reflexivity|].
  split; [vm_compute; reflexivity|].
  lazymatch goal with
  | |- ∃ forward alerts,
         _ = [InsertMetric (mkEntry (spread_payload ?c ?p) _ (code ?rm) _ _)] ++ _ ∧ _ =>
      destruct (ingestion_sequence sampleRuntime 9 1 c 0 rm p
                  (exec sampleRuntime pairedRoom))
        as (_ & buf & forward & alerts & _ & _ & Hacts & Hfw & _ & Hfail);
      [vm_compute; reflexivity|discriminate|reflexivity|reflexivity
      |vm_compute; reflexivity|]
  end.
  exists forward, alerts. split; [exact Hacts|]. split; [exact Hfw|].
  split.
  - intros ->. rewrite Hfw in Hacts. vm_compute in Hacts. discriminate.
  - intros Hf. apply Hfail in Hf as [_ Hf]. vm_compute in Hf. discriminate.
Defined.

(** C1, where the steps depend on one another: the controller of
    [pairedRoom] stores a maximum that has no primitive value; the
    client's next record is pushed, the trim throws, and nothing is
    inserted or forwarded: the sender gets the handler's [error]. *)
Lemma unreadable_maximum_aborts_ingestion :
  let s :=
    exec sampleRuntime
      (pairedRoom
       ++ [(5%Z, Message 0 (room_settings
                              (Some (mkPatch (Some unreadable) None None))))]) in
  let res :=
    step sampleRuntime 9
      (Message 1 (metrics_in (Some {[ "entropy" := JInt 50 ]}))) s in
  maxMetricsHistory <$> (settings <$> heap s !! 0) = Some unreadable
  ∧ is_open s 0 = true
  ∧ length <$> (metrics <$> heap res.1 !! 0) = Some 1
  ∧ res.2 = [WsSend 1 (error_msg "Invalid message format")].
Proof. cbv zeta. repeat split; vm_compute; reflexivity. Qed.

(** C2, the claim as stated fails: the room created first has its
    controller attached when a second creation draws the same three random
    bytes; the code then leads to the new, empty room object, and the
    first room, controller still attached, is no longer registered. *)
Lemma create_replaces_live_room :
  let s1 := exec sampleRuntime controllerAndGuest in
  let s2 := (step sampleRuntime 5 (PostRooms roomBytes) s1).1 in
  rooms s1 !! "0AFF3C" = Some 0
  ∧ controller <$> heap s1 !! 0 = Some (Some 0)
  ∧ rooms s2 !! "0AFF3C" = Some 1
  ∧ heap s2 !! 1 = Some (newRoom 5 "0AFF3C")
  ∧ controller <$> heap s2 !! 0 = Some (Some 0)
  ∧ ∀ k, rooms s2 !! k ≠ Some 0.
Proof.
  cbv zeta. repeat split; try (vm_compute; reflexivity).
  intros k Hk.
  assert (E : rooms (step sampleRuntime 5 (PostRooms roomBytes)
                       (exec sampleRuntime controllerAndGuest)).1
              = {[ "0AFF3C" := 1 ]}) by (vm_compute; reflexivity).
  rewrite E in Hk. by apply lookup_singleton_Some in Hk as [_ [=]].
Qed.

(** C3, the code at the failing input: fifty client hellos fill the
    room and the fifty-first is refused with "Room is full"; a further
    socket whose hello carries role [viewer] skips the capacity test, is
    stored among the clients as socket 51, and the room has fifty-one
    clients. *)
Lemma capacity_bypassed_by_other_role :
  let s := exec sampleRuntime (fullRoom ++ [(6%Z, connect 50); (6%Z, connect 51)]) in
  let refused := step sampleRuntime 7 (say 50 "client") s in
  let joined := step sampleRuntime 8 (say 51 "viewer") refused.1 in
  size <$> (clients <$> heap s !! 0) = Some CONFIG.MAX_CLIENTS_PER_ROOM
  ∧ refused.2 = [WsSend 50 (error_msg "Room is full");
                 WsClose 50 (Some "Room is full")]
  ∧ size <$> (clients <$> heap refused.1 !! 0) = Some 50
  ∧ joined.2 = [WsSend 51 (room_info "0AFF3C" "0000000000000033" (JStr "viewer") 51 false)]
  ∧ ws_role <$> conns joined.1 !! 51 = Some (Some Client)
  ∧ size <$> (clients <$> heap joined.1 !! 0) = Some 51.
Proof. cbv zeta. repeat split; vm_compute; reflexivity. Qed.

(** C4, the claim as stated fails twice: a hello without a role is
    closed with no [error] message before the close, and a client hello
    with a valid role and a registered code is refused when the room is
    full. *)
Lemma hello_refusals_differ :
  let s := exec sampleRuntime (fullRoom ++ [(6%Z, connect 50)]) in
  (step sampleRuntime 7 (Message 50 (hello JUndefined (JStr "0AFF3C"))) s).2
  = [WsClose 50 (Some "Invalid authentication")]
  ∧ rooms s !! "0AFF3C" = Some 0
  ∧ (step sampleRuntime 7 (say 50 "client") s).2
    = [WsSend 50 (error_msg "Room is full"); WsClose 50 (Some "Room is full")].
Proof. cbv zeta. repeat split; vm_compute; reflexivity. Qed.

(** C4, a run of the amended statement: the guest of
    [controllerAndGuest] joins as a client. *)
Lemma hello_outcomes_witness :
  let s := exec sampleRuntime controllerAndGuest in
  let res := step sampleRuntime 5 (say 1 "client") s in
  ∃ c rm,
    conns s !! 1 = Some c ∧ readyState c ≠ CLOSED
    ∧ rooms s !! "0AFF3C" = Some 0 ∧ heap s !! 0 = Some rm
    ∧ size (clients rm) < CONFIG.MAX_CLIENTS_PER_ROOM
    ∧ Forall (λ a, is_rejection a = false) res.2
    ∧ clientSessions res.1 !! clientId c
      = Some (mkSession "0AFF3C" (JStr "client") 5 (remoteAddress c)).
Proof.
  cbv zeta. eexists _, _.
  split; [vm_compute; reflexivity|]. split; [discriminate|].
  split; [vm_compute; reflexivity|]. split; [vm_compute; reflexivity|].
  split; [vm_compute; lia|].
  lazymatch goal with
  | |- _ ∧ clientSessions _ !! clientId ?c = _ =>
      destruct (hello_outcomes sampleRuntime 5 1 c
                  (exec sampleRuntime controllerAndGuest))
        as (Hacc & _); [vm_compute; reflexivity|discriminate|]
  end.
  edestruct (Hacc "client" "0AFF3C" 0) as (Hno & Hsess & _);
    [by right|done|vm_compute; reflexivity|vm_compute; reflexivity
    |intros _; vm_compute; lia|].
  split; [exact Hno|exact Hsess].
Defined.

(** C5, the claim as stated fails: two records are in the buffer when the
    controller lowers [maxMetricsHistory] to 1; the update trims
    nothing, so the buffer is longer than the configured maximum. *)
Lemma settings_update_leaves_buffer_over_cap :
  let s :=
    exec sampleRuntime
      (pairedRoom
       ++ [(5, Message 1 (metrics_in (Some {[ "entropy" := JInt 50 ]})));
           (6, Message 1 (metrics_in (Some {[ "entropy" := JInt 60 ]})));
           (7, Message 0 (room_settings
                            (Some (mkPatch (Some (JInt 1)) None None))))]%Z) in
  length <$> (metrics <$> heap s !! 0) = Some 2
  ∧ maxMetricsHistory <$> (settings <$> heap s !! 0) = Some (JInt 1).
Proof. cbv zeta. split; vm_compute; reflexivity. Qed.

(** C5, a run of the amended statement: the maximum is 2 and the buffer
    holds two records; the third record evicts the oldest one and is
    itself kept. *)
Lemma buffer_bounded_witness :
  let s := exec sampleRuntime cappedRoom in
  let p : JsObject := {[ "entropy" := JInt 70 ]} in
  let res := step sampleRuntime 9 (Message 1 (metrics_in (Some p))) s in
  ∃ c rm,
    conns s !! 1 = Some c ∧ readyState c ≠ CLOSED ∧ room c = Some 0
    ∧ ws_role c = Some Client ∧ heap s !! 0 = Some rm
    ∧ ToNumber sampleRuntime (maxMetricsHistory (settings rm))
      = Some (Fin (inject_Z 2))
    ∧ (1 <= inject_Z 2)%Q
    ∧ length (metrics rm) = 2
    ∧ ∃ rm',
        heap res.1 !! 0 = Some rm'
        ∧ metrics rm'
          = drop 1 (metrics rm
                    ++ [mkEntry (spread_payload c p) (clientId c) (code rm) 9 9])
        ∧ length (metrics rm') = 2
        ∧ last (metrics rm')
          = Some (mkEntry (spread_payload c p) (clientId c) (code rm) 9 9).
Proof.
  cbv zeta. eexists _, _.
  split; [vm_compute; reflexivity|].
  split; [discriminate|]. split; [reflexivity|]. split; [reflexivity|].
  split; [vm_compute; reflexivity|]. split; [reflexivity|].
  split; [by vm_compute|]. split; [reflexivity|].
  lazymatch goal with
  | |- ∃ rm', _ ∧ metrics rm' = drop 1 (metrics ?rm ++ [mkEntry (spread_payload ?c ?p) _ _ _ _]) ∧ _ =>
      destruct (buffer_bounded_after_ingestion sampleRuntime 9 1 c 0 rm p
                  (inject_Z 2) (exec sampleRuntime cappedRoom))
        as (rm' & Hrm' & _ & Hm & Hlen & _ & Hlast & _);
      [vm_compute; reflexivity|discriminate|reflexivity|reflexivity
      |vm_compute; reflexivity|reflexivity|by vm_compute|]
  end.
  exists rm'. split; [exact Hrm'|]. split; [exact Hm|].
  split; [exact Hlen|exact Hlast].
Defined.

(** C6, the claim as stated fails three times: with [enableAlerts]
    switched off by the controller, a payload of entropy 10 with
    [breached] true raises nothing; with alerts on, a [breached] field
    holding the string "no" (truthy, not [true]) raises the critical
    alert; and with alerts on, an [entropy] field without a primitive
    value makes the evaluation throw, so that [breached] true raises
    nothing and the sender is answered with the handler's [error]. *)
Lemma alerts_off_truthy_breach_and_throw :
  let off :=
    exec sampleRuntime
      (pairedRoom
       ++ [(5%Z, Message 0 (room_settings
                              (Some (mkPatch None None (Some (JBool false))))))]) in
  let on := exec sampleRuntime pairedRoom in
  (∃ e m,
     (step sampleRuntime 9
        (Message 1 (metrics_in
                      (Some {[ "entropy" := JInt 10; "breached" := JBool true ]})))
        off).2
     = [InsertMetric e; WsSend 0 (metrics_msg "0000000000000001" m 9)])
  ∧ (∃ e m,
       (step sampleRuntime 9
          (Message 1 (metrics_in (Some {[ "breached" := JStr "no" ]}))) on).2
       = [InsertMetric e; WsSend 0 (metrics_msg "0000000000000001" m 9);
          WsSend 0 (alerts_msg
                      [mkAlert "breached_password" "critical"
                         (BreachedText "00000000")])])
  ∧ (∃ e m,
       (step sampleRuntime 9
          (Message 1 (metrics_in
                        (Some {[ "entropy" := unreadable;
                                 "breached" := JBool true ]})))
          on).2
       = [InsertMetric e; WsSend 0 (metrics_msg "0000000000000001" m 9);
          WsSend 1 (error_msg "Invalid message format")]).
Proof. cbv zeta. repeat split; eexists _, _; vm_compute; reflexivity. Qed.

(** C6, a run of the amended statement: both rules fire and go out in
    one message. *)
Lemma alert_rules_witness :
  let s := exec sampleRuntime pairedRoom in
  let m : JsObject := {[ "entropy" := JInt 10; "breached" := JBool true ]} in
  let cid := "0000000000000001" in
  ∃ rm,
    heap s !! 0 = Some rm
    ∧ ToBoolean (enableAlerts (settings rm)) = true
    ∧ ToNumber sampleRuntime (get_field m "entropy") = Some (Fin (inject_Z 10))
    ∧ ∃ alerts,
        mkAlert "low_entropy" "warning"
          (LowEntropyText (String.substring 0 8 cid) (get_field m "entropy"))
        ∈ alerts
        ∧ mkAlert "breached_password" "critical"
            (BreachedText (String.substring 0 8 cid)) ∈ alerts
        ∧ NoDup alerts
        ∧ checkAlerts sampleRuntime s rm cid m
          = Some [WsSend 0 (alerts_msg alerts)].
Proof.
  cbv zeta. eexists. split; [vm_compute; reflexivity|]. split; [reflexivity|].
  split; [vm_compute; reflexivity|].
  lazymatch goal with
  | |- ∃ alerts, _ ∧ _ ∧ _ ∧ checkAlerts _ ?s ?rm ?cid ?m = _ =>
      destruct (alert_rules sampleRuntime s rm cid m) as (_ & _ & Hon & _);
      destruct (Hon eq_refl (Fin (inject_Z 10)))
        as (alerts & Hlow & Hbr & _ & Hnd & Hchk & _);
      [vm_compute; reflexivity|]
  end.
  exists alerts.
  assert (Hin : mkAlert "low_entropy" "warning"
                  (LowEntropyText (String.substring 0 8 "0000000000000001")
                     (get_field ({[ "entropy" := JInt 10; "breached" := JBool true ]}
                                   : JsObject) "entropy")) ∈ alerts).
  { apply Hlow. vm_compute. reflexivity. }
  split; [exact Hin|]. split; [apply Hbr; vm_compute; reflexivity|].
  split; [exact Hnd|]. rewrite Hchk.
  destruct alerts as [|a l]; [by apply not_elem_of_nil in Hin|].
  vm_compute. reflexivity.
Defined.

(** C7, the claim as stated fails: the controller leaves at 1 s, which
    schedules a check for 61 s; another controller joins at 20 s and
    leaves at 40 s, which schedules a check for 100 s. The join
    cancelled nothing: the first check runs at 61 s, finds the room
    empty and removes it, 21 s after its last member left and with the
    second check still pending. *)
Lemma rejoin_does_not_cancel_removal :
  let joined :=
    [(0, PostRooms roomBytes); (1, connect 0); (2, say 0 "controller");
     (1000, Close 0); (20000, connect 1); (20001, say 1 "controller")]%Z in
  let s := exec sampleRuntime (joined ++ [(40000%Z, Close 1)]) in
  let s' := (step sampleRuntime 61000 EmptyRoomTimeout s).1 in
  controller <$> heap (exec sampleRuntime joined) !! 0 = Some (Some 1)
  ∧ removalTimers (exec sampleRuntime joined) = [0]
  ∧ rooms s !! "0AFF3C" = Some 0
  ∧ removalTimers s = [0; 0]
  ∧ rooms s' !! "0AFF3C" = None
  ∧ removalTimers s' = [0].
Proof. cbv zeta. repeat split; vm_compute; reflexivity. Qed.

(** C7, a run of the amended statement: the check finds the new
    controller in the room and removes nothing. *)
Lemma empty_room_removal_witness :
  let s :=
    exec sampleRuntime
      [(0, PostRooms roomBytes); (1, connect 0); (2, say 0 "controller");
       (1000, Close 0); (20000, connect 1); (20001, say 1 "controller")]%Z in
  ∃ rm,
    removalTimers s = [0] ∧ heap s !! 0 = Some rm
    ∧ room_is_empty rm = false
    ∧ rooms (step sampleRuntime 61000 EmptyRoomTimeout s).1 = rooms s
    ∧ removalTimers (step sampleRuntime 61000 EmptyRoomTimeout s).1 = [].
Proof.
  cbv zeta. eexists.
  split; [vm_compute; reflexivity|]. split; [vm_compute; reflexivity|].
  split; [vm_compute; reflexivity|].
  lazymatch goal with
  | |- rooms (step _ ?tm _ ?s).1 = _ ∧ _ =>
      destruct (empty_room_removal sampleRuntime tm s) as (_ & _ & Hcheck & _);
      edestruct (Hcheck 0 []) as (_ & Htimers & _ & Hrooms);
      [vm_compute; reflexivity|vm_compute; reflexivity|]
  end.
  split; [exact Hrooms|exact Htimers].
Defined.



(** C9, a run: the guest of [controllerAndGuest] says hello as
    controller. *)
Lemma second_controller_witness :
  let s := exec sampleRuntime controllerAndGuest in
  let res := step sampleRuntime 5 (say 1 "controller") s in
  ∃ c rm,
    conns s !! 1 = Some c ∧ readyState c ≠ CLOSED
    ∧ rooms s !! "0AFF3C" = Some 0 ∧ heap s !! 0 = Some rm
    ∧ controller rm = Some 0
    ∧ controller <$> heap res.1 !! 0 = Some (Some 1)
    ∧ (∀ a, a ∈ res.2 → action_target a ≠ Some 0)
    ∧ conns res.1 !! 0 = conns s !! 0.
Proof.
  cbv zeta. eexists _, _.
  split; [vm_compute; reflexivity|].
  lazymatch goal with |- readyState ?c ≠ CLOSED ∧ _ => pose (c0 := c) end.
  split; [discriminate|].
  split; [vm_compute; reflexivity|]. split; [vm_compute; reflexivity|].
  lazymatch goal with |- controller ?rm = Some 0 ∧ _ => pose (rm0 := rm) end.
  split; [reflexivity|].
  destruct (second_controller_replaces sampleRuntime 5 1 c0 0 "0AFF3C" 0 rm0
              (exec sampleRuntime controllerAndGuest))
    as (Hctl & _ & Hquiet & Hold);
    [vm_compute; reflexivity|discriminate|done|vm_compute; reflexivity
    |vm_compute; reflexivity|reflexivity|lia|].
  split; [exact Hctl|]. split; [exact Hquiet|exact Hold].
Defined.

(** C10, a run: socket 1 has replaced socket 0 as controller; socket 0
    then closes, and the room is left without controller although
    socket 1 is still open and still has the controller role. *)
Lemma controller_close_witness :
  let s := exec sampleRuntime (controllerAndGuest ++ [(4%Z, say 1 "controller")]) in
  let s' := (step sampleRuntime 9 (Close 0) s).1 in
  ∃ c rm,
    conns s !! 0 = Some c ∧ readyState c ≠ CLOSED
    ∧ ws_role c = Some Controller ∧ room c = Some 0
    ∧ heap s !! 0 = Some rm ∧ controller rm = Some 1
    ∧ controller <$> heap s' !! 0 = Some None
    ∧ conns s' !! 1 = conns s !! 1
    ∧ readyState <$> conns s' !! 1 = Some OPEN
    ∧ ws_role <$> conns s' !! 1 = Some (Some Controller).
Proof.
  cbv zeta. eexists _, _.
  split; [vm_compute; reflexivity|].
  lazymatch goal with |- readyState ?c ≠ CLOSED ∧ _ => pose (c0 := c) end.
  split; [discriminate|].
  split; [reflexivity|]. split; [reflexivity|].
  split; [vm_compute; reflexivity|].
  lazymatch goal with |- controller ?rm = Some 1 ∧ _ => pose (rm0 := rm) end.
  split; [reflexivity|].
  destruct (controller_close_nulls_slot sampleRuntime 9 0 c0 0 rm0
              (exec sampleRuntime (controllerAndGuest ++ [(4%Z, say 1 "controller")])))
    as (Hnull & Hothers);
    [vm_compute; reflexivity|discriminate|reflexivity|reflexivity
    |vm_compute; reflexivity|].
  split; [exact Hnull|]. split; [by apply Hothers|].
  split; vm_compute; reflexivity.
Defined.

(** X1, a run: fifty clients and a refused fifty-first stay within the
    cap. *)
Lemma cap_holds_witness :
  let tr := fullRoom ++ [(6%Z, connect 50); (7%Z, say 50 "client")] in
  roles_valid tr = true
  ∧ within_cap (exec sampleRuntime tr)
  ∧ size <$> (clients <$> heap (exec sampleRuntime tr) !! 0) = Some 50.
Proof.
  cbv zeta. split; [reflexivity|].
  split; [by apply cap_holds_for_valid_roles|vm_compute; reflexivity].
Defined.

(** X3, a run: two records under the default maximum, with alerts
    switched off in between. *)
Lemma buffer_within_default_witness :
  let tr :=
    pairedRoom
    ++ [(5, Message 1 (metrics_in (Some {[ "entropy" := JInt 50 ]})));
        (6, Message 0 (room_settings
                         (Some (mkPatch None None (Some (JBool false))))));
        (7, Message 1 (metrics_in (Some {[ "entropy" := JInt 60 ]})))]%Z in
  maximum_untouched tr = true
  ∧ buffers_within_default (exec sampleRuntime tr)
  ∧ length <$> (metrics <$> heap (exec sampleRuntime tr) !! 0) = Some 2.
Proof.
  cbv zeta. split; [reflexivity|].
  split; [by apply buffer_within_default_maximum|vm_compute; reflexivity].
Defined.

(** X13, a run: the controller of the paired room lowers the maximum. *)
Lemma settings_change_witness :
  let s := exec sampleRuntime pairedRoom in
  let e := Message 0 (room_settings (Some (mkPatch (Some (JInt 5)) None None))) in
  ∃ rm rm',
    heap s !! 0 = Some rm
    ∧ heap (step sampleRuntime 5 e s).1 !! 0 = Some rm'
    ∧ settings rm' ≠ settings rm
    ∧ ∃ ws c p,
        e = Message ws (room_settings (Some p))
        ∧ conns s !! ws = Some c ∧ readyState c ≠ CLOSED
        ∧ room c = Some 0 ∧ ws_role c = Some Controller
        ∧ settings rm' = merge_settings (settings rm) p.
Proof.
  cbv zeta. eexists _, _.
  split; [vm_compute; reflexivity|]. split; [vm_compute; reflexivity|].
  split; [intros H; vm_compute in H; discriminate|].
  lazymatch goal with
  | |- ∃ ws c p, _ ∧ _ ∧ _ ∧ _ ∧ _ ∧ settings ?rm' = merge_settings (settings ?rm) p =>
      apply (settings_change_only_by_controller sampleRuntime 5 _
               (exec sampleRuntime pairedRoom) 0 rm rm')
  end;
    [vm_compute; reflexivity|vm_compute; reflexivity
    |intros H; vm_compute in H; discriminate].
Defined.

(** X14, a run: the client of the paired room reports a record. *)
Lemma buffer_change_witness :
  let s := exec sampleRuntime pairedRoom in
  let e := Message 1 (metrics_in (Some {[ "entropy" := JInt 50 ]})) in
  ∃ rm rm',
    heap s !! 0 = Some rm
    ∧ heap (step sampleRuntime 9 e s).1 !! 0 = Some rm'
    ∧ metrics rm' ≠ metrics rm
    ∧ ∃ ws c p,
        e = Message ws (metrics_in (Some p))
        ∧ conns s !! ws = Some c ∧ readyState c ≠ CLOSED
        ∧ room c = Some 0 ∧ ws_role c = Some Client
        ∧ trim sampleRuntime (maxMetricsHistory (settings rm))
            (metrics rm
             ++ [mkEntry (spread_payload c p) (clientId c) (code rm) 9 9])
          = Some (metrics rm').
Proof.
  cbv zeta. eexists _, _.
  split; [vm_compute; reflexivity|]. split; [vm_compute; reflexivity|].
  split; [intros H; vm_compute in H; discriminate|].
  lazymatch goal with
  | |- ∃ ws c p, _ ∧ _ ∧ _ ∧ _ ∧ _ ∧ trim _ (_ (settings ?rm)) _ = Some (metrics ?rm') =>
      destruct (buffer_change_only_by_client sampleRuntime 9
                  (Message 1 (metrics_in (Some {[ "entropy" := JInt 50 ]})))
                  (exec sampleRuntime pairedRoom) 0 rm rm')
        as (ws & c & p & He & Hc & Hrs & Hroom & Hrole & Hbuf);
      [vm_compute; reflexivity|vm_compute; reflexivity
      |intros H; vm_compute in H; discriminate|]
  end.
  exists ws, c, p. repeat (split; [done|]). exact Hbuf.
Defined.

(** X15, a run: the controller of the paired room closes. *)
Lemma membership_change_witness :
  let s := exec sampleRuntime pairedRoom in
  ∃ rm rm',
    heap s !! 0 = Some rm
    ∧ heap (step sampleRuntime 9 (Close 0) s).1 !! 0 = Some rm'
    ∧ controller rm = Some 0 ∧ controller rm' = None
    ∧ ∃ ws c,
        Close 0 = Close ws
        ∧ conns s !! ws = Some c ∧ readyState c ≠ CLOSED
        ∧ room c = Some 0
        ∧ (if ws_role c is Some Controller
           then controller rm' = None ∧ clients rm' = clients rm
           else controller rm' = controller rm
                ∧ clients rm' = delete (clientId c) (clients rm)).
Proof.
  cbv zeta. eexists _, _.
  split; [vm_compute; reflexivity|]. split; [vm_compute; reflexivity|].
  lazymatch goal with
  | |- controller ?rm = Some 0 ∧ controller ?rm' = None ∧ _ =>
      pose (rm0 := rm); pose (rm1 := rm')
  end.
  split; [reflexivity|]. split; [reflexivity|].
  destruct (membership_change_only_by_join_or_leave sampleRuntime 9 (Close 0)
              (exec sampleRuntime pairedRoom) 0 rm0 rm1)
    as [(ws & c & role & k & He & _)|H];
    [vm_compute; reflexivity|vm_compute; reflexivity
    |left; discriminate|discriminate He|exact H].
Defined.

(** X17, a run: the client of the paired room closes and a late ping
    arrives on its socket. *)
Lemma socket_lifecycle_witness :
  let s := exec sampleRuntime pairedRoom in
  let tr := [(9%Z, Close 1); (10%Z, Message 1 ping)] in
  ∃ c,
    conns s !! 1 = Some c
    ∧ readyState c = OPEN
    ∧ closes 1 tr = true
    ∧ ∃ c', conns (run sampleRuntime tr s).1 !! 1 = Some c'
        ∧ clientId c' = clientId c
        ∧ (readyState c' = OPEN → readyState c = OPEN)
        ∧ (readyState c = CLOSED → readyState c' = CLOSED)
        ∧ (readyState c' = CLOSED → readyState c = CLOSED ∨ closes 1 tr = true).
Proof.
  cbv zeta. eexists.
  split; [vm_compute; reflexivity|]. split; [reflexivity|]. split; [reflexivity|].
  lazymatch goal with
  | |- ∃ c', _ ∧ clientId c' = clientId ?c ∧ _ =>
      apply (socket_lifecycle sampleRuntime
               [(9%Z, Close 1); (10%Z, Message 1 ping)]
               (exec sampleRuntime pairedRoom) 1 c)
  end.
  vm_compute; reflexivity.
Defined.

(** X21, a run: the guest, who has not said hello, sends a record and a
    settings update; both are dropped. *)
Lemma messages_gated_witness :
  let s := exec sampleRuntime controllerAndGuest in
  ∃ c,
    conns s !! 1 = Some c
    ∧ room c = None
    ∧ step sampleRuntime 5
        (Message 1 (metrics_in (Some {[ "entropy" := JInt 50 ]}))) s
      = (s, [])
    ∧ step sampleRuntime 5
        (Message 1 (room_settings (Some (mkPatch (Some (JInt 1)) None None)))) s
      = (s, []).
Proof.
  cbv zeta. eexists.
  split; [vm_compute; reflexivity|]. split; [reflexivity|].
  lazymatch goal with
  | |- step _ _ (Message _ (metrics_in (Some ?p))) _ = _ ∧ _ =>
      destruct (messages_gated_by_role sampleRuntime 5 1
                  (mkConn (generateClientId (clientBytes 1)) (JStr "10.0.0.7")
                     (Some "probe") OPEN None None None Armed true)
                  (exec sampleRuntime controllerAndGuest))
        as (Hm & Hs & _); [vm_compute; reflexivity|]
  end.
  split; [apply Hm|apply Hs]; by left.
Defined.

(** X22, a run: the client of the paired room closes; the controller is
    told, and the room, still holding its controller, is not scheduled
    for removal. *)
Lemma client_close_witness :
  let s := exec sampleRuntime pairedRoom in
  let res := step sampleRuntime 9 (Close 1) s in
  ∃ c rm,
    conns s !! 1 = Some c ∧ readyState c ≠ CLOSED
    ∧ room c = Some 0 ∧ ws_role c = Some Client
    ∧ heap s !! 0 = Some rm
    ∧ clientSessions res.1 = delete (clientId c) (clientSessions s)
    ∧ res.2 = [WsSend 0 (client_left (clientId c) 0)].
Proof.
  cbv zeta. eexists _, _.
  split; [vm_compute; reflexivity|].
  lazymatch goal with |- readyState ?c ≠ CLOSED ∧ _ => pose (c0 := c) end.
  split; [discriminate|]. split; [reflexivity|]. split; [reflexivity|].
  split; [vm_compute; reflexivity|].
  destruct (client_close_leaves_room sampleRuntime 9 1 c0 0
              (mkRoom "0AFF3C" (Some 0)
                 {[ generateClientId (clientBytes 1) := 1 ]} [] 0 4
                 (mkSettings (JInt 1000) (JBool true) (JBool true)))
              (exec sampleRuntime pairedRoom))
    as (_ & Hs & Ha);
    [vm_compute; reflexivity|discriminate|reflexivity|reflexivity
    |vm_compute; reflexivity|].
  split; [exact Hs|]. rewrite Ha. vm_compute. reflexivity.
Defined.

(** X23, a run: the guest of [controllerAndGuest] says hello with a role
    that cannot be printed. *)
Lemma unreadable_role_witness :
  let s := exec sampleRuntime controllerAndGuest in
  let res := step sampleRuntime 5 (Message 1 (hello unreadable (JStr "0AFF3C"))) s in
  ∃ c rm,
    conns s !! 1 = Some c ∧ readyState c ≠ CLOSED
    ∧ ToString sampleRuntime unreadable = None
    ∧ rooms s !! "0AFF3C" = Some 0 ∧ heap s !! 0 = Some rm
    ∧ ws_role <$> conns res.1 !! 1 = Some (Some Client)
    ∧ clientSessions res.1 = clientSessions s
    ∧ res.2 = [WsSend 1 (room_info "0AFF3C" (clientId c) unreadable 1 true);
               WsSend 1 (error_msg "Invalid message format")].
Proof.
  cbv zeta. eexists _, _.
  split; [vm_compute; reflexivity|].
  lazymatch goal with |- readyState ?c ≠ CLOSED ∧ _ => pose (c0 := c) end.
  split; [discriminate|]. split; [reflexivity|].
  split; [vm_compute; reflexivity|]. split; [vm_compute; reflexivity|].
  destruct (unreadable_role_joins_without_session sampleRuntime 5 1 c0 unreadable
              "0AFF3C" 0
              (mkRoom "0AFF3C" (Some 0) ∅ [] 0 2
                 (mkSettings (JInt 1000) (JBool true) (JBool true)))
              (exec sampleRuntime controllerAndGuest))
    as (_ & Hrole & Hsess & Hacts);
    [vm_compute; reflexivity|discriminate|reflexivity|discriminate
    |vm_compute; reflexivity|vm_compute; reflexivity|].
  split; [exact Hrole|]. split; [exact Hsess|].
  rewrite Hacts. vm_compute. reflexivity.
Defined.
